(** * mcp-chatbot: intent routing, menu tree and learned-answer similarity

    A shallow embedding of the parts of the chatbot that decide how an
    utterance is answered:

    - [learning_memory.py]: [_normalize_text], [_calculate_similarity],
      [_generate_key], the scoring loop of [find_similar];
    - [menu_tree.py]: [MenuNode], [MenuTree.get_node], [get_root],
      [format_menu], [_get_info_content], [get_child_by_number],
      [find_node_by_keyword], [find_path_to_node];
    - [query_router.py]: [TOOL_MAPPINGS], [LOCATION_NAMES],
      [LOCATION_CANONICAL], [detect_tool], [extract_locations],
      [extract_params], [is_comparison_query], [route_and_execute],
      [_format_comparison];
    - [keyword_detector.py]: [detect_intent], [build_database_query];
    - [tool_executor.py]: [ToolExecutor.execute], [is_available];
    - [related_options_finder.py]: [find_related_options].

    Python [str] values are lists of Unicode code points, Python [float]s
    are IEEE-754 binary64 numbers (Rocq's primitive floats), Python sets
    are [gset]s, and [dict]s are association lists where insertion order
    is observable and [gmap]s where it is not.  What the code borrows from
    the Python runtime (the Unicode character database, [int()],
    [difflib], the [re] engine) is not part of the repository; it enters
    through the type classes of the first section. *)

From Stdlib Require Import ZArith NArith Lia Ascii String.
From Stdlib Require Import PrimFloat FloatAxioms SpecFloat FloatOps Uint63.
From Stdlib Require Import DecimalString.
From Stdlib Require Sorted.
From stdpp Require Import base gmap sets list.

Set Warnings "-inexact-float".
Set Warnings "-clear-no-such-hyp".


Open Scope N_scope.
Open Scope list_scope.

(* ===================================================================== *)
(** * Python text *)
(* ===================================================================== *)

(** A [str] is a sequence of code points; indexing, slicing and [len]
    count code points, as in Python 3. *)
Abbreviation char := N (only parsing).
Abbreviation str := (list N) (only parsing).

(** Source literals are written as UTF-8 Rocq strings and decoded once. *)
Fixpoint utf8_decode (s : string) (need : nat) (acc : N) : str :=
  match s with
  | EmptyString => []
  | String a rest =>
      let b := N_of_ascii a in
      if b <? 128 then b :: utf8_decode rest 0 0
      else if b <? 192 then
        let acc' := acc * 64 + (b - 128) in
        match need with
        | O => utf8_decode rest 0 0
        | S O => acc' :: utf8_decode rest 0 0
        | S n => utf8_decode rest n acc'
        end
      else if b <? 224 then utf8_decode rest 1 (b - 192)
      else if b <? 240 then utf8_decode rest 2 (b - 224)
      else utf8_decode rest 3 (b - 240)
  end.

Definition u (s : string) : str := utf8_decode s 0 0.

(** ["\n"] and [" "]. *)
Definition NL : N := 10.
Definition SP : N := 32.

Definition str_eqb (a b : str) : bool := bool_decide (a = b).

(** [s.startswith(p)]. *)
Fixpoint startswith (s p : str) {struct p} : bool :=
  match p, s with
  | [], _ => true
  | _ :: _, [] => false
  | x :: p', y :: s' => (x =? y) && startswith s' p'
  end.

(** [needle in hay] on strings: substring test (the empty needle is found). *)
Fixpoint contains (hay needle : str) : bool :=
  startswith hay needle ||
  match hay with
  | [] => false
  | _ :: hay' => contains hay' needle
  end.

Definition endswith (s p : str) : bool := startswith (rev s) (rev p).

Fixpoint dropwhile (f : N -> bool) (s : str) : str :=
  match s with
  | [] => []
  | c :: r => if f c then dropwhile f r else s
  end.

(** [s.split(sep)] for a one-character separator: empty fields are kept. *)
Fixpoint split_on (sep : N) (s : str) : list str :=
  match s with
  | [] => [[]]
  | c :: r =>
      if c =? sep then [] :: split_on sep r
      else match split_on sep r with
           | [] => [[c]]
           | w :: ws => (c :: w) :: ws
           end
  end.

(** [sep.join(parts)]. *)
Fixpoint join (sep : str) (parts : list str) : str :=
  match parts with
  | [] => []
  | [p] => p
  | p :: ps => p ++ sep ++ join sep ps
  end.

(** [s.replace(old, new)] for one-character [old] and [new]. *)
Definition replace_char (old new : N) (s : str) : str :=
  map (fun c => if c =? old then new else c) s.

(** [str(i)] for a non-negative integer. *)
Definition str_of_nat (n : nat) : str :=
  u (NilEmpty.string_of_uint (Nat.to_uint n)).

(* ===================================================================== *)
(** * What the Python runtime supplies *)
(* ===================================================================== *)

(** The Unicode character database as CPython exposes it.  [isspace] is
    [Py_UNICODE_ISSPACE], shared by [str.strip()], [str.split()] and the
    regular-expression class [\s]; [re_word] is the class [\w] of a [str]
    pattern; [int_of_str s] is [int(s)], [None] standing for
    [ValueError]. *)
Class Unicode := {
  str_lower : str -> str;
  str_title : str -> str;
  isspace : N -> bool;
  re_word : N -> bool;
  int_of_str : str -> option Z;
}.

(** [difflib.SequenceMatcher(None, a, b)]: the total size of the matching
    blocks it finds. *)
Class Difflib := {
  matching_size : str -> str -> nat;
}.

(** [re.search(pattern, s) is not None], the pattern given by its source
    text. *)
Class Regex := {
  re_search : str -> str -> bool;
}.

Section Text.
Context {U : Unicode}.

(** [s.strip()]. *)
Definition strip (s : str) : str :=
  rev (dropwhile isspace (rev (dropwhile isspace s))).

(** [s.split()]: maximal runs of non-whitespace. *)
Fixpoint split_ws_from (cur : str) (s : str) : list str :=
  match s with
  | [] => match cur with [] => [] | _ => [rev cur] end
  | c :: r =>
      if isspace c then
        match cur with
        | [] => split_ws_from [] r
        | _ => rev cur :: split_ws_from [] r
        end
      else split_ws_from (c :: cur) r
  end.

Definition split_ws (s : str) : list str := split_ws_from [] s.

(** [re.sub(r'[^\w\s]', '', s)]. *)
Definition remove_punctuation (s : str) : str :=
  filter (fun c => Is_true (re_word c || isspace c)) s.

(** [re.sub(r'\s+', ' ', s)]: [in_run] tells that the previous character
    belonged to the run being replaced. *)
Fixpoint collapse_from (in_run : bool) (s : str) : str :=
  match s with
  | [] => []
  | c :: r =>
      if isspace c then
        if in_run then collapse_from true r else SP :: collapse_from true r
      else c :: collapse_from false r
  end.

Definition collapse_whitespace (s : str) : str := collapse_from false s.

(** [re.search(rf'\b{re.escape(kw)}\b', s)]: some occurrence of [kw]
    in [s] has a word boundary on both sides.  [before] is the character
    preceding the current position, if any. *)
Definition is_word_opt (c : option N) : bool :=
  match c with Some c => re_word c | None => false end.

Definition boundary (before after : option N) : bool :=
  xorb (is_word_opt before) (is_word_opt after).

Definition word_match_here (before : option N) (s kw : str) : bool :=
  startswith s kw &&
  boundary before (head s) &&
  boundary (last (option_list before ++ take (length kw) s))
           (head (drop (length kw) s)).

Fixpoint word_search_from (before : option N) (s kw : str) : bool :=
  word_match_here before s kw ||
  match s with
  | [] => false
  | c :: r => word_search_from (Some c) r kw
  end.

Definition word_search (s kw : str) : bool := word_search_from None s kw.
End Text.

(* ===================================================================== *)
(** * Python floats *)
(* ===================================================================== *)

Definition float_of_nat (n : nat) : float :=
  PrimFloat.of_uint63 (Uint63.of_Z (Z.of_nat n)).

(** [min(x, y)] on two arguments: the later argument replaces the earlier
    one only when it compares strictly smaller. *)
Definition py_min (x y : float) : float :=
  if PrimFloat.ltb y x then y else x.

(** [difflib._calculate_ratio(matches, length)]. *)
Definition calculate_ratio (matches length : nat) : float :=
  match length with
  | O => 1.0%float
  | _ => (2.0 * float_of_nat matches / float_of_nat length)%float
  end.

(** [0 <= x <= 1] as Python evaluates it. *)
Definition in_unit_interval (x : float) : Prop :=
  PrimFloat.leb 0%float x = true /\ PrimFloat.leb x 1%float = true.

(* ===================================================================== *)
(** * learning_memory.py *)
(* ===================================================================== *)

Definition STOP_WORDS : gset str :=
  list_to_set (map u
    ["que"; "es"; "el"; "la"; "los"; "las"; "un"; "una"; "de"; "del"; "al";
     "en"; "por"; "para"; "con"; "sin"; "sobre"; "entre"; "como"; "cual";
     "donde"; "cuando"; "quien"; "cuanto"; "me"; "te"; "se"; "nos"; "les";
     "lo"; "le"; "y"; "o"; "a"; "e"; "u"; "pero"; "si"; "no"; "mas"; "muy";
     "tan"; "este"; "esta"; "estos"; "estas"; "ese"; "esa"; "esos"; "esas";
     "aquel"; "aquella"; "su"; "sus"; "mi"; "tu"; "ser"; "estar"; "tiene";
     "significa"; "significa"; "quiere"; "decir"; "dame"; "dime"; "mostrar"
    ]%string).

Definition KEY_TERMS : gset str :=
  list_to_set (map u
    ["ipc"; "eph"; "ecv"; "emae"; "sipa"; "oede"; "ripte"; "pbg"; "ipi";
     "dolar"; "blue"; "mep"; "ccl"; "oficial"; "censo"; "canasta"; "basica";
     "empleo"; "desempleo"; "inflacion"; "precios"; "salario"; "semaforo"
    ]%string).

(** The [replacements] dict of [_normalize_text], in insertion order. *)
Definition replacements : list (N * N) :=
  [(225, 97); (233, 101); (237, 105); (243, 111); (250, 117);
   (241, 110); (252, 117)].

(** A set is truthy when it is not empty. *)
Definition truthy (X : gset str) : bool := bool_decide (X ≠ ∅).

Section LearningMemory.
Context {U : Unicode} {D : Difflib}.

Definition normalize_text (text : str) : str :=
  let text := strip (str_lower text) in
  let text := remove_punctuation text in
  let text := collapse_whitespace text in
  let text := fold_left (fun t '(old, new) => replace_char old new t)
                        replacements text in
  take 500 text.

(** [SequenceMatcher(None, a, b).ratio()]. *)
Definition SequenceMatcher_ratio (a b : str) : float :=
  calculate_ratio (matching_size a b) (length a + length b).

Definition calculate_similarity (text1 text2 : str) : float :=
  let norm1 := normalize_text text1 in
  let norm2 := normalize_text text2 in
  let words1 : gset str := list_to_set (split_ws norm1) in
  let words2 : gset str := list_to_set (split_ws norm2) in
  let key_words1 := words1 ∩ KEY_TERMS in
  let key_words2 := words2 ∩ KEY_TERMS in
  if truthy key_words1 && truthy key_words2
     && bool_decide (key_words1 ≠ key_words2)
  then 0.0%float
  else if (truthy key_words1 || truthy key_words2)
          && bool_decide (key_words1 ≠ key_words2)
  then 0.3%float
  else
    let content_words1 := words1 ∖ STOP_WORDS in
    let content_words2 := words2 ∖ STOP_WORDS in
    if negb (truthy content_words1) || negb (truthy content_words2)
    then (SequenceMatcher_ratio norm1 norm2 * 0.5)%float
    else
      let common_content := content_words1 ∩ content_words2 in
      let content_similarity :=
        (float_of_nat (size common_content)
         / float_of_nat (Nat.max (size content_words1) (size content_words2)))%float in
      let seq_similarity := SequenceMatcher_ratio norm1 norm2 in
      let key_bonus :=
        if truthy key_words1 && bool_decide (key_words1 = key_words2)
        then 0.3%float else 0.0%float in
      py_min (content_similarity * 0.5 + seq_similarity * 0.2 + key_bonus)%float
             1.0%float.
End LearningMemory.

(** ** The quantities the similarity score is made of *)

Section SimilarityTerms.
Context {U : Unicode} {D : Difflib}.

(** The token set of a text: [set(norm.split())]. *)
Definition tokens (text : str) : gset str :=
  list_to_set (split_ws (normalize_text text)).

Definition key_terms_of (text : str) : gset str := tokens text ∩ KEY_TERMS.

Definition content_words_of (text : str) : gset str := tokens text ∖ STOP_WORDS.

(** [len(A & B) / max(len(A), len(B))], the quotient the code takes. *)
Definition word_overlap (A B : gset str) : float :=
  (float_of_nat (size (A ∩ B))
   / float_of_nat (Nat.max (size A) (size B)))%float.

(** The Jaccard index [len(A & B) / len(A | B)] the specification
    names. *)
Definition jaccard (A B : gset str) : float :=
  (float_of_nat (size (A ∩ B)) / float_of_nat (size (A ∪ B)))%float.

(** The weighted sum of the specification, clipped at [1.0]. *)
Definition combined_score (word_score seq_ratio : float) (bonus : bool)
    : float :=
  py_min (word_score * 0.5 + seq_ratio * 0.2
          + (if bonus then 0.3 else 0.0))%float 1.0%float.
End SimilarityTerms.

(* ===================================================================== *)
(** * menu_tree.py *)
(* ===================================================================== *)

(** A field read from the persisted definition: [MenuNode.from_dict]
    stores whatever JSON value it finds.  Only strings have [.lower()]. *)
Inductive pyval :=
  | PStr (s : str)
  | PNone
  | PInt (z : Z).

Definition pyval_truthy (v : pyval) : bool :=
  match v with
  | PStr s => negb (str_eqb s [])
  | PNone => false
  | PInt z => negb (z =? 0)%Z
  end.

(** [MenuNode].  [action] is stored as [action or "menu"], hence always a
    string; [title] is only ever formatted, which every value supports,
    and is kept a string; [tool_args] and [info_text] are read by none of
    the functions below. *)
Record MenuNode := {
  id : str;
  title : str;
  description : pyval;
  action : str;
  children : list str;
  keywords : list str;
  db_query : option str;
  tool : option str;
}.

(** [MenuTree]: [nodes] is a [dict], whose keys keep insertion order. *)
Record MenuTree := {
  nodes : list (str * MenuNode);
  root_node_id : option str;
}.

Inductive exn :=
  | AttributeError.

Definition QUOTE : N := 34.

Definition DEFAULT_MENU : str := Eval vm_compute in
  u "1. 📊 Datos Económicos" ++ [NL] ++ u "2. 👥 Datos Sociales" ++ [NL]
  ++ u "3. ℹ️ Información General".

Definition NO_OPTIONS : str := Eval vm_compute in
  u "❌ No hay opciones disponibles en este menú.".

Definition HELP_TEXT : str := Eval vm_compute in join [NL] [
  u "";
  u "═══════════════════════════════════════════════════════";
  u "  📖 CÓMO USAR EL CHATBOT";
  u "═══════════════════════════════════════════════════════";
  u "";
  u "📌 NAVEGACIÓN POR MENÚ:";
  u "   • Puedes navegar seleccionando números (1, 2, 3...)";
  u "   • O escribiendo palabras clave relacionadas";
  u "";
  u "📌 PREGUNTAS ABIERTAS:";
  u "   • Escribe tu pregunta directamente";
  u "   • El bot detectará palabras clave automáticamente";
  u "   • Buscará en la base de datos de forma inteligente";
  u "";
  u "📌 COMANDOS ESPECIALES:";
  u "   • " ++ [QUOTE] ++ u "menú" ++ [QUOTE] ++ u " o " ++ [QUOTE] ++ u "menu" ++ [QUOTE] ++ u " → Volver al menú principal";
  u "   • " ++ [QUOTE] ++ u "atrás" ++ [QUOTE] ++ u " o " ++ [QUOTE] ++ u "back" ++ [QUOTE] ++ u " → Volver al menú anterior";
  u "   • " ++ [QUOTE] ++ u "ayuda" ++ [QUOTE] ++ u " → Mostrar esta ayuda";
  u "";
  u "📌 EJEMPLOS DE PREGUNTAS:";
  u "   • " ++ [QUOTE] ++ u "¿Cuál es el último valor de inflación?" ++ [QUOTE];
  u "   • " ++ [QUOTE] ++ u "Muéstrame datos económicos del año 2023" ++ [QUOTE];
  u "   • " ++ [QUOTE] ++ u "Información sobre población" ++ [QUOTE];
  u "   • " ++ [QUOTE] ++ u "Estructura de las bases de datos" ++ [QUOTE];
  u "";
  u "═══════════════════════════════════════════════════════";
  u ""
].

(** The terms that mark a description as technical. *)
Definition tech_terms : list str :=
  map u ["base de datos"; "tabla"; "datalake"; "dwh"]%string.

Section MenuTree.
Context {U : Unicode}.

(** [self.nodes.get(node_id)]. *)
Definition get_node (t : MenuTree) (node_id : str) : option MenuNode :=
  snd <$> List.find (fun p => str_eqb (fst p) node_id) (nodes t).

Definition get_root (t : MenuTree) : option MenuNode :=
  match root_node_id t with
  | Some r => if str_eqb r [] then None else get_node t r
  | None => None
  end.

Definition get_info_content (node_id : str) : str :=
  if str_eqb node_id (u "ayuda") then HELP_TEXT else [].

(** The first loop over [node.children]: first occurrences, in order. *)
Fixpoint unique_from (seen_children : list str) (cs : list str) : list str :=
  match cs with
  | [] => []
  | child_id :: cs' =>
      if bool_decide (child_id ∈ seen_children) then unique_from seen_children cs'
      else child_id :: unique_from (seen_children ++ [child_id]) cs'
  end.

(** The second loop: the ids that resolve. *)
Definition valid_children_of (t : MenuTree) (unique_children : list str) : list str :=
  filter (fun child_id => is_Some (get_node t child_id)) unique_children.

(** The description line of a child: shown when [child.description] is
    truthy and [not any(tech_term in child.description.lower() for
    tech_term in [...])].  A truthy number has no [.lower()]. *)
Definition description_line (d : pyval) : exn + str :=
  match d with
  | PStr s =>
      if pyval_truthy d
         && negb (existsb (fun tech_term => contains (str_lower s) tech_term)
                          tech_terms)
      then inr (u "   └─ " ++ s ++ [NL])
      else inr []
  | PNone => inr []
  | PInt z => if pyval_truthy d then inl AttributeError else inr []
  end.

(** The numbered entry of one child; [i] is its 1-based position. *)
Definition menu_entry (t : MenuTree) (i : nat) (child_id : str) : exn + str :=
  match get_node t child_id with
  | Some child =>
      let line := str_of_nat i ++ u ". " ++ title child ++ [NL] in
      match description_line (description child) with
      | inl e => inl e
      | inr shown => inr (line ++ shown)
      end
  | None => inr []
  end.

(** [for i, child_id in enumerate(valid_children, 1)], appending to
    [menu_text]. *)
Fixpoint menu_entries (t : MenuTree) (i : nat) (valid_children : list str)
    (menu_text : str) : exn + str :=
  match valid_children with
  | [] => inr menu_text
  | child_id :: rest =>
      match menu_entry t i child_id with
      | inl e => inl e
      | inr entry => menu_entries t (S i) rest (menu_text ++ entry)
      end
  end.

(** The body of the [try] block of [format_menu]. *)
Definition format_menu_body (t : MenuTree) (node_id : option str) : exn + str :=
  let node_id := match node_id with Some n => Some n | None => root_node_id t end in
  let node_id :=
    match node_id with
    | Some n => if str_eqb n [] then u "root" else n
    | None => u "root"
    end in
  let found :=
    match get_node t node_id with
    | Some node => inl node
    | None =>
        match nodes t with
        | (first_node_id, _) :: _ =>
            match get_node t first_node_id with
            | Some node => inl node
            | None => inr DEFAULT_MENU
            end
        | [] => inr DEFAULT_MENU
        end
    end in
  match found with
  | inr early => inr early
  | inl node =>
      let rendered :=
        match children node with
        | _ :: _ =>
            let unique_children := unique_from [] (children node) in
            let valid_children := valid_children_of t unique_children in
            match valid_children with
            | [] => inl (inr NO_OPTIONS)
            | _ => match menu_entries t 1 valid_children [] with
                   | inl e => inl (inl e)
                   | inr menu_text => inr menu_text
                   end
            end
        | [] =>
            if str_eqb (action node) (u "info") then inr (get_info_content node_id)
            else if str_eqb (action node) (u "query")
            then inr (u "🔍 Buscando información sobre: " ++ title node)
            else inr []
        end in
      match rendered with
      | inl (inl e) => inl e
      | inl (inr early) => inr early
      | inr menu_text =>
          let result := strip menu_text in
          if str_eqb result [] then inr DEFAULT_MENU else inr result
      end
  end.

(** [format_menu]: any exception of the body is answered with the
    default menu. *)
Definition format_menu (t : MenuTree) (node_id : option str) : str :=
  match format_menu_body t node_id with
  | inr text => text
  | inl _ => DEFAULT_MENU
  end.

Definition get_child_by_number (t : MenuTree) (node_id : str) (number : Z)
    : option MenuNode :=
  match get_node t node_id with
  | None => None
  | Some node =>
      match children node with
      | [] => None
      | _ =>
          if ((1 <=? number) && (number <=? Z.of_nat (length (children node))))%Z
          then child_id ← children node !! Z.to_nat (number - 1);
               get_node t child_id
          else None
      end
  end.
End MenuTree.

(* ===================================================================== *)
(** * keyword_detector.py *)
(* ===================================================================== *)

(** The dictionary [detect_intent] returns.  [intent_node_id] and
    [intent_db_query] are absent from some of the dictionaries the
    function builds; an absent key and a key bound to [None] are both
    [None] here. *)
Record Intent := {
  intent_type : str;
  intent_node_id : option str;
  intent_keywords : list str;
  intent_db_query : option str;
  confidence : float;
}.

Section KeywordDetector.
Context {U : Unicode}.

(** What [detect_intent] does with a text that was not answered as a
    menu number (lines 109-238: navigation words, query patterns,
    database keywords, menu aliases, open query). *)
Variable detect_text_intent : MenuTree -> str -> Intent.

(** The [try] block at the head of [detect_intent]: [None] when control
    leaves it without returning. *)
Definition number_selection (menu_tree : MenuTree) (text_lower : str)
    : option Intent :=
  match int_of_str text_lower with
  | None => None
  | Some option_number =>
      match get_root menu_tree with
      | None => None
      | Some root =>
          match children root with
          | [] => None
          | _ =>
              if ((1 <=? option_number)
                  && (option_number <=? Z.of_nat (length (children root))))%Z
              then
                match children root !! Z.to_nat (option_number - 1) with
                | None => None
                | Some child_id =>
                    match get_node menu_tree child_id with
                    | None => None
                    | Some child_node =>
                        Some {| intent_type :=
                                  if str_eqb (action child_node) (u "menu")
                                  then u "menu" else u "query";
                                intent_node_id := Some (id child_node);
                                intent_keywords := [u "number_selection"];
                                intent_db_query := db_query child_node;
                                confidence := 1.0%float |}
                    end
                end
              else None
          end
      end
  end.

Definition detect_intent (menu_tree : MenuTree) (text : str) : Intent :=
  let text_lower := strip (str_lower text) in
  match number_selection menu_tree text_lower with
  | Some intent => intent
  | None => detect_text_intent menu_tree text
  end.
End KeywordDetector.

(* ===================================================================== *)
(** * query_router.py *)
(* ===================================================================== *)

(** An entry of [TOOL_MAPPINGS]. *)
Record ToolConfig := {
  cfg_keywords : list str;
  param_name : option str;
  param_values : option (list (str * str));
  cfg_description : str;
}.

Definition TOOL_MAPPINGS : list (str * ToolConfig) := Eval vm_compute in [
  (u "get_censo",
   {| cfg_keywords := map u [
          "poblacion"; "población"; "habitantes"; "censo"; "gente";
          "personas"; "demografía"; "demografico"]%string;
      param_name := Some (u "municipio");
      param_values := None;
      cfg_description := u "datos de población" |});
  (u "get_dolar",
   {| cfg_keywords := map u [
          "dolar"; "dólar"; "cotizacion"; "cotización"; "blue"; "oficial";
          "mep"; "ccl"; "tipo de cambio"]%string;
      param_name := Some (u "tipo");
      param_values := Some [
          (u "blue", u "blue"); (u "oficial", u "oficial");
          (u "mep", u "mep"); (u "ccl", u "ccl")];
      cfg_description := u "cotización del dólar" |});
  (u "get_ipc",
   {| cfg_keywords := map u [
          "ipc"; "inflacion"; "inflación"; "precios"; "indice de precios";
          "índice de precios"]%string;
      param_name := Some (u "region");
      param_values := None;
      cfg_description := u "índice de precios al consumidor" |});
  (u "get_empleo",
   {| cfg_keywords := map u [
          "empleo"; "desempleo"; "trabajo"; "ocupacion"; "ocupación";
          "tasa de empleo"; "eph"; "actividad"]%string;
      param_name := Some (u "provincia");
      param_values := None;
      cfg_description := u "tasas de empleo y desempleo" |});
  (u "get_semaforo",
   {| cfg_keywords := map u [
          "semaforo"; "semáforo"; "indicadores economicos";
          "indicadores económicos"; "variacion"; "variación"]%string;
      param_name := Some (u "tipo");
      param_values := Some [
          (u "interanual", u "interanual"); (u "mensual", u "intermensual")];
      cfg_description := u "semáforo económico" |});
  (u "get_patentamientos",
   {| cfg_keywords := map u [
          "patentamiento"; "patentamientos"; "vehiculos"; "vehículos";
          "autos"; "motos"; "0km"; "dnrpa"]%string;
      param_name := Some (u "provincia");
      param_values := None;
      cfg_description := u "patentamientos de vehículos" |});
  (u "get_aeropuertos",
   {| cfg_keywords := map u [
          "aeropuerto"; "aeropuertos"; "vuelos"; "pasajeros aereos"; "anac";
          "aviacion"; "aviación"]%string;
      param_name := Some (u "aeropuerto");
      param_values := None;
      cfg_description := u "pasajeros en aeropuertos" |});
  (u "get_combustible",
   {| cfg_keywords := map u [
          "combustible"; "nafta"; "gasoil"; "diesel"; "gas"; "petroleo";
          "petróleo"; "ventas de combustible"]%string;
      param_name := Some (u "provincia");
      param_values := None;
      cfg_description := u "ventas de combustible" |});
  (u "get_canasta_basica",
   {| cfg_keywords := map u [
          "canasta"; "canasta basica"; "canasta básica"; "alimentos";
          "costo de vida"]%string;
      param_name := None;
      param_values := None;
      cfg_description := u "canasta básica" |});
  (u "get_pobreza",
   {| cfg_keywords := map u [
          "pobreza"; "indigencia"; "cbt"; "cba"; "linea de pobreza";
          "línea de pobreza"]%string;
      param_name := Some (u "region");
      param_values := None;
      cfg_description := u "líneas de pobreza e indigencia" |});
  (u "get_ecv",
   {| cfg_keywords := map u [
          "ecv"; "encuesta de calidad"; "calidad de vida";
          "condiciones de vida"]%string;
      param_name := None;
      param_values := None;
      cfg_description := u "encuesta de calidad de vida" |});
  (u "get_oede",
   {| cfg_keywords := map u [
          "oede"; "observatorio de empleo"; "dinamica empresarial";
          "dinámica empresarial"]%string;
      param_name := Some (u "provincia");
      param_values := None;
      cfg_description := u "observatorio de empleo" |});
  (u "get_emae",
   {| cfg_keywords := map u [
          "emae"; "actividad economica"; "actividad económica";
          "estimador mensual"; "pbi mensual"]%string;
      param_name := Some (u "categoria");
      param_values := None;
      cfg_description := u "actividad económica mensual" |});
  (u "get_pbg",
   {| cfg_keywords := map u [
          "pbg"; "producto bruto"; "pbi provincial"; "produccion provincial";
          "producción provincial"]%string;
      param_name := Some (u "sector");
      param_values := None;
      cfg_description := u "producto bruto geográfico" |});
  (u "get_salarios",
   {| cfg_keywords := map u [
          "salario"; "salarios"; "sueldo"; "sueldos"; "smvm"; "minimo vital";
          "mínimo vital"; "ripte"; "remuneracion"; "remuneración"]%string;
      param_name := Some (u "tipo");
      param_values := Some [
          (u "smvm", u "smvm"); (u "minimo", u "smvm");
          (u "mínimo", u "smvm"); (u "ripte", u "ripte");
          (u "indicadores", u "indicadores")];
      cfg_description := u "salarios e índices salariales" |});
  (u "get_supermercados",
   {| cfg_keywords := map u [
          "supermercado"; "supermercados"; "autoservicio";
          "facturacion supermercados"; "ventas minoristas"]%string;
      param_name := Some (u "rubro");
      param_values := None;
      cfg_description := u "facturación de supermercados" |});
  (u "get_construccion",
   {| cfg_keywords := map u [
          "construccion"; "construcción"; "ieric"; "obras"; "edificacion";
          "edificación"]%string;
      param_name := Some (u "tipo");
      param_values := Some [
          (u "puestos", u "puestos"); (u "trabajo", u "puestos");
          (u "ingresos", u "ingresos"); (u "actividad", u "actividad")];
      cfg_description := u "industria de la construcción" |});
  (u "get_ipc_corrientes",
   {| cfg_keywords := map u [
          "ipc corrientes"; "ipicorr"; "inflacion corrientes";
          "inflación corrientes"; "precios corrientes"]%string;
      param_name := None;
      param_values := None;
      cfg_description := u "IPC específico de Corrientes" |})
].

(** The elements of the set display [LOCATION_NAMES], as written. *)
Definition LOCATION_NAMES_listed : list str := Eval vm_compute in map u [
  "goya"; "corrientes"; "corientes"; "corrientrs"; "ctes";
  "paso de los libres"; "mercedes"; "curuzú cuatiá"; "curuzu cuatia";
  "bella vista"; "esquina"; "monte caseros"; "santo tomé"; "santo tome";
  "virasoro"; "ituzaingó"; "ituzaingo"; "saladas"; "empedrado"; "san roque";
  "concepción"; "concepcion"; "lavalle"; "santa lucia"; "mocoretá";
  "mocoreta"; "alvear"; "san cosme"; "itatí"; "itati"; "buenos aires";
  "bsas"; "bs as"; "caba"; "capital federal"; "córdoba"; "cordoba";
  "rosario"; "mendoza"; "tucumán"; "tucuman"; "santa fe"; "salta"; "chaco";
  "misiones"; "entre ríos"; "entre rios"; "formosa"; "jujuy"; "san juan";
  "san luis"; "la rioja"; "catamarca"; "santiago del estero"; "neuquén";
  "neuquen"; "río negro"; "rio negro"; "chubut"; "santa cruz";
  "tierra del fuego"; "la pampa"; "capital"; "gba"; "nea"; "noa"; "cuyo";
  "patagonia"; "pampeana"
]%string.

Definition LOCATION_CANONICAL : list (str * str) := Eval vm_compute in [
  (u "corrientrs", u "corrientes"); (u "corientes", u "corrientes");
  (u "ctes", u "corrientes"); (u "bsas", u "buenos aires");
  (u "bs as", u "buenos aires"); (u "capital federal", u "caba");
  (u "curuzu cuatia", u "curuzú cuatiá"); (u "santo tome", u "santo tomé");
  (u "ituzaingo", u "ituzaingó"); (u "concepcion", u "concepción");
  (u "mocoreta", u "mocoretá"); (u "itati", u "itatí");
  (u "cordoba", u "córdoba"); (u "tucuman", u "tucumán");
  (u "entre rios", u "entre ríos"); (u "neuquen", u "neuquén");
  (u "rio negro", u "río negro")
].

(** [LOCATION_NAMES] as a set. *)
Definition LOCATION_NAMES : gset str := list_to_set LOCATION_NAMES_listed.

(** The order in which this process iterates over the set
    [LOCATION_NAMES]; it depends on the interpreter's string hashing. *)
Class HashSeed := {
  LOCATION_NAMES_iter : list str;
}.

Definition iterates_LOCATION_NAMES {HS : HashSeed} : Prop :=
  NoDup LOCATION_NAMES_iter /\
  forall location, location ∈ LOCATION_NAMES_iter <-> location ∈ LOCATION_NAMES.

(** The tool layer behind [tool_executor]; [W] is its state together with
    that of the data sources it reads. *)
Class ToolExecutor (W : Type) := {
  is_available : W -> bool;
  execute : W -> str -> gmap str str -> str * W;
}.

(** One invocation of [tool_executor.execute], as observed from outside. *)
Record Call := {
  call_tool : str;
  call_args : gmap str str;
  call_result : str;
}.

Definition comparison_patterns : list str := Eval vm_compute in map u [
  "compara\w*"; "diferencia\w*"; "vs\.?"; "entre\s+\w+\s+y\s+";
  "\w+\s+y\s+\w+"; "cual.*mayor"; "cual.*menor"; "mas.*que"; "menos.*que"
]%string.

Definition NOT_FOUND_MARK : str := Eval vm_compute in u "No se encontraron".
Definition ERROR_MARK : str := Eval vm_compute in u "Error".

Definition COMPARISON_FOOTER : str := Eval vm_compute in
  [NL; NL] ++ u "> Comparativa generada automáticamente.".

(** [dict.get(key)] on a dictionary kept in insertion order. *)
Definition dict_get {V : Type} (d : list (str * V)) (key : str) : option V :=
  snd <$> List.find (fun p => str_eqb (fst p) key) d.

(** [TOOL_MAPPINGS.get(tool_name, {})]; the empty dictionary has no
    parameter and answers [.get('description', 'datos')] with the
    default. *)
Definition tool_config (tool_name : str) : ToolConfig :=
  default {| cfg_keywords := []; param_name := None; param_values := None;
             cfg_description := u "datos" |}
          (dict_get TOOL_MAPPINGS tool_name).

Section QueryRouter.
Context {U : Unicode} {R : Regex} {HS : HashSeed}.
Context {W : Type} {TE : ToolExecutor W}.

(** The points one keyword adds to a tool's score. *)
Definition keyword_score (query_lower keyword : str) : nat :=
  if contains query_lower keyword then
    if word_search query_lower keyword then 10 else 5
  else 0.

Definition tool_score (query_lower : str) (config : ToolConfig) : nat :=
  fold_left (fun score keyword => (score + keyword_score query_lower keyword)%nat)
            (cfg_keywords config) 0%nat.

Fixpoint best_tool_from (query_lower : str) (tools : list (str * ToolConfig))
    (best_tool : option str) (best_score : nat) : option str * nat :=
  match tools with
  | [] => (best_tool, best_score)
  | (tool_name, config) :: rest =>
      let score := tool_score query_lower config in
      if (best_score <? score)%nat
      then best_tool_from query_lower rest (Some tool_name) score
      else best_tool_from query_lower rest best_tool best_score
  end.

Definition detect_tool (query : str) : option str :=
  let query_lower := str_lower query in
  let '(best_tool, best_score) :=
    best_tool_from query_lower TOOL_MAPPINGS None 0%nat in
  if (5 <=? best_score)%nat then best_tool else None.

Fixpoint found_from (query_lower : str) (names : list str)
    (found_locations : list str) : list str :=
  match names with
  | [] => found_locations
  | location :: rest =>
      if contains query_lower location then
        let canonical := default location (dict_get LOCATION_CANONICAL location) in
        if bool_decide (canonical ∈ found_locations)
        then found_from query_lower rest found_locations
        else found_from query_lower rest (found_locations ++ [canonical])
      else found_from query_lower rest found_locations
  end.

Definition extract_locations (query : str) : list str :=
  found_from (str_lower query) LOCATION_NAMES_iter [].

(** The first entry of [param_values] whose keyword occurs in the query
    sets the parameter.  Every entry of [TOOL_MAPPINGS] that has
    [param_values] names its parameter. *)
Definition extract_params (query : str) (tool_name : str) : gmap str str :=
  let config := tool_config tool_name in
  match param_values config with
  | None => ∅
  | Some values =>
      let query_lower := str_lower query in
      match List.find (fun kv => contains query_lower (fst kv)) values,
            param_name config with
      | Some (_, value), Some name => {[ name := value ]}
      | _, _ => ∅
      end
  end.

Definition is_comparison_query (query : str) : bool :=
  let query_lower := str_lower query in
  existsb (fun pattern => re_search pattern query_lower) comparison_patterns
  || (2 <=? length (extract_locations query))%nat.

(** [lines.index(line)]. *)
Fixpoint index_of (lines : list str) (line : str) : nat :=
  match lines with
  | [] => 0
  | l :: rest => if str_eqb l line then 0 else S (index_of rest line)
  end.

(** The body of [for line in lines] in [_format_comparison]. *)
Definition comparison_line (lines : list str) (line : str)
    (acc : str * bool) : str * bool :=
  let '(combined, header_found) := acc in
  if contains line (u "|") then
    if contains line (u "---") then
      if negb header_found then
        let idx := index_of lines line in
        match idx with
        | O => (combined, header_found)
        | S idx' =>
            (combined ++ nth idx' lines [] ++ [NL] ++ line ++ [NL], true)
        end
      else (combined, header_found)
    else if header_found && negb (str_eqb (strip line) [])
            && negb (contains line (u "Municipio"))
            && negb (contains line (u "Fecha"))
    then (combined ++ line ++ [NL], header_found)
    else (combined, header_found)
  else (combined, header_found).

Definition comparison_result (acc : str * bool) (r : str) : str * bool :=
  let lines := split_on NL r in
  fold_left (fun acc line => comparison_line lines line acc) lines acc.

Definition comparison_heading (description : str) : str :=
  u "## 📊 Comparativa de " ++ str_title description ++ [NL; NL].

Definition format_comparison (results : list str) (description : str) : str :=
  match results with
  | [only] => only
  | _ =>
      let combined := comparison_heading description in
      let '(combined, header_found) :=
        fold_left comparison_result results (combined, false) in
      let combined :=
        if negb header_found
        then comparison_heading description ++ join ([NL] ++ u "---" ++ [NL]) results
        else combined in
      combined ++ COMPARISON_FOOTER
  end.

(** [result and "No se encontraron" not in result]. *)
Definition found_something (result : str) : bool :=
  negb (str_eqb result []) && negb (contains result NOT_FOUND_MARK).

(** The test of the comparison loop, which also rejects ["Error"]. *)
Definition survives (result : str) : bool :=
  found_something result && negb (contains result ERROR_MARK).

(** [for location in locations] of the comparison branch.  [log] is the
    record of the calls made so far; it is not program state. *)
Fixpoint fan_out (w : W) (tool_name name : str) (params : gmap str str)
    (locations : list str) (results : list str) (log : list Call)
    : list str * list Call * W :=
  match locations with
  | [] => (results, log, w)
  | location :: rest =>
      let loc_params := params ∪ {[ name := location ]} in
      let '(result, w) := execute w tool_name loc_params in
      let log := log ++ [{| call_tool := tool_name; call_args := loc_params;
                            call_result := result |}] in
      let results := if survives result then results ++ [result] else results in
      fan_out w tool_name name params rest results log
  end.

Definition single_call (w : W) (tool_name : str) (params : gmap str str)
    : option (str * str) * list Call * W :=
  let '(result, w) := execute w tool_name params in
  let log := [{| call_tool := tool_name; call_args := params;
                 call_result := result |}] in
  if found_something result then (Some (tool_name, result), log, w)
  else (None, log, w).

(** [route_and_execute] once the executor is known to exist: what is
    returned, the calls made, and the state the tool layer is left in. *)
Definition route (w : W) (query : str) : option (str * str) * list Call * W :=
  if negb (is_available w) then (None, [], w)
  else
    match detect_tool query with
    | None => (None, [], w)
    | Some tool_name =>
        let locations := extract_locations query in
        let params := extract_params query tool_name in
        let config := tool_config tool_name in
        let name_truthy :=
          match param_name config with
          | Some name => if str_eqb name [] then None else Some name
          | None => None
          end in
        match locations, name_truthy with
        | first :: _, Some name =>
            if is_comparison_query query then
              let '(results, log, w) :=
                fan_out w tool_name name params locations [] [] in
              match results with
              | [] => (None, log, w)
              | _ =>
                  (Some (tool_name,
                         format_comparison results (cfg_description config)),
                   log, w)
              end
            else single_call w tool_name (<[ name := first ]> params)
        | _, _ => single_call w tool_name params
        end
    end.

(** [route_and_execute]; [tool_executor] may be [None]. *)
Definition route_and_execute (tool_executor : option W) (query : str)
    : option (str * str) * list Call * option W :=
  match tool_executor with
  | None => (None, [], None)
  | Some w => let '(r, log, w) := route w query in (r, log, Some w)
  end.
End QueryRouter.

(* ===================================================================== *)
(** * A reference runtime for running the model *)
(* ===================================================================== *)

(** CPython's character tables for the code points below 256 (Basic Latin
    and Latin-1 Supplement), which is where the repository's keywords,
    stop words and accent replacements live.  [isspace] lists every
    whitespace code point of the Unicode database; the other tables treat
    a code point from 256 on as a caseless symbol outside [\w].  The
    examples below only classify characters of the tabulated range. *)

Definition between (lo hi c : N) : bool := (lo <=? c) && (c <=? hi).

Definition latin1_lower_char (c : N) : N :=
  if between 65 90 c then c + 32
  else if between 192 222 c && negb (c =? 215) then c + 32
  else c.

Definition latin1_cased (c : N) : bool :=
  between 65 90 c || between 97 122 c || (c =? 170) || (c =? 181)
  || (c =? 186) || between 192 214 c || between 216 246 c
  || between 248 255 c.

Definition latin1_title_char (c : N) : str :=
  if between 97 122 c then [c - 32]
  else if between 224 254 c && negb (c =? 247) then [c - 32]
  else if c =? 255 then [376]
  else if c =? 181 then [924]
  else if c =? 223 then [83; 115]
  else [c].

(** [str.title()]: a character is title-cased unless the one before it is
    cased, in which case it is lower-cased. *)
Fixpoint latin1_title_from (previous_is_cased : bool) (s : str) : str :=
  match s with
  | [] => []
  | c :: r =>
      (if previous_is_cased then [latin1_lower_char c]
       else latin1_title_char c)
      ++ latin1_title_from (latin1_cased c) r
  end.

Definition unicode_isspace (c : N) : bool :=
  between 9 13 c || between 28 32 c || (c =? 133) || (c =? 160)
  || (c =? 5760) || between 8192 8202 c || (c =? 8232) || (c =? 8233)
  || (c =? 8239) || (c =? 8287) || (c =? 12288).

Definition latin1_word (c : N) : bool :=
  between 48 57 c || between 65 90 c || (c =? 95) || between 97 122 c
  || (c =? 170) || (c =? 178) || (c =? 179) || (c =? 181) || (c =? 185)
  || (c =? 186) || between 188 190 c || between 192 214 c
  || between 216 246 c || between 248 255 c.

(** [int(s)] for ASCII digits: surrounding whitespace, one optional sign,
    and single underscores between digits are accepted. *)
Fixpoint parse_digits (s : str) (acc : Z) (after_digit : bool) : option Z :=
  match s with
  | [] => if after_digit then Some acc else None
  | c :: r =>
      if between 48 57 c then parse_digits r (acc * 10 + Z.of_N (c - 48))%Z true
      else if (c =? 95) && after_digit then
        match r with [] => None | _ => parse_digits r acc false end
      else None
  end.

Definition ascii_int (s : str) : option Z :=
  let s := rev (dropwhile unicode_isspace (rev (dropwhile unicode_isspace s))) in
  match s with
  | 45 :: r => Z.opp <$> parse_digits r 0%Z false
  | 43 :: r => parse_digits r 0%Z false
  | _ => parse_digits s 0%Z false
  end.

Definition Latin1 : Unicode := {|
  str_lower := map latin1_lower_char;
  str_title := latin1_title_from false;
  isspace := unicode_isspace;
  re_word := latin1_word;
  int_of_str := ascii_int;
|}.

(** [difflib.SequenceMatcher] with [isjunk=None] and [autojunk=True].

    [indexed b c]: [c] is a key of [b2j], that is, an element of [b] that
    was not purged as popular (more than [n // 100 + 1] occurrences in a
    [b] of [n >= 200] elements). *)
Definition occurrences (c : N) (b : str) : nat :=
  length (filter (fun x => x = c) b).

Definition indexed (b : str) (c : N) : bool :=
  let n := length b in
  negb ((200 <=? n)%nat && (n / 100 + 1 <? occurrences c b)%nat).

Definition lookup0 (m : gmap nat nat) (j : nat) : nat :=
  match j with
  | O => O
  | S j' => default O (m !! j')
  end.

(** One row of [find_longest_match]: the positions [j] of [a[i]] in
    [b[blo:bhi]], in increasing order. *)
Fixpoint match_row (i : nat) (js : list nat) (j2len newj2len : gmap nat nat)
    (best : nat * nat * nat) : gmap nat nat * (nat * nat * nat) :=
  match js with
  | [] => (newj2len, best)
  | j :: js' =>
      let k := S (lookup0 j2len j) in
      let newj2len := <[j := k]> newj2len in
      let '(besti, bestj, bestsize) := best in
      if (bestsize <? k)%nat
      then match_row i js' j2len newj2len (S i - k, S j - k, k)%nat
      else match_row i js' j2len newj2len best
  end.

Fixpoint match_rows (a b : str) (blo bhi : nat) (rows : list nat)
    (j2len : gmap nat nat) (best : nat * nat * nat) : nat * nat * nat :=
  match rows with
  | [] => best
  | i :: rows' =>
      let ai := nth i a 0 in
      let js := filter (fun j => nth j b 0 = ai /\ Is_true (indexed b ai))
                       (seq blo (bhi - blo)) in
      let '(newj2len, best) := match_row i js j2len ∅ best in
      match_rows a b blo bhi rows' newj2len best
  end.

Fixpoint extend_left (a b : str) (alo blo : nat) (besti bestj bestsize : nat)
    : nat * nat * nat :=
  match besti, bestj with
  | S i', S j' =>
      if (alo <? besti)%nat && (blo <? bestj)%nat
         && (nth i' a 0 =? nth j' b 0)
      then extend_left a b alo blo i' j' (S bestsize)
      else (besti, bestj, bestsize)
  | _, _ => (besti, bestj, bestsize)
  end.

Fixpoint extend_right (fuel : nat) (a b : str) (ahi bhi : nat)
    (besti bestj bestsize : nat) : nat :=
  match fuel with
  | O => bestsize
  | S fuel' =>
      if (besti + bestsize <? ahi)%nat && (bestj + bestsize <? bhi)%nat
         && (nth (besti + bestsize) a 0 =? nth (bestj + bestsize) b 0)
      then extend_right fuel' a b ahi bhi besti bestj (S bestsize)
      else bestsize
  end.

Definition find_longest_match (a b : str) (alo ahi blo bhi : nat)
    : nat * nat * nat :=
  let '(besti, bestj, bestsize) :=
    match_rows a b blo bhi (seq alo (ahi - alo)) ∅ (alo, blo, O) in
  let '(besti, bestj, bestsize) :=
    extend_left a b alo blo besti bestj bestsize in
  (besti, bestj, extend_right ahi a b ahi bhi besti bestj bestsize).

(** The sizes of the blocks [get_matching_blocks] collects, summed. *)
Fixpoint matching_blocks_size (fuel : nat) (a b : str) (alo ahi blo bhi : nat)
    : nat :=
  match fuel with
  | O => O
  | S fuel' =>
      let '(i, j, k) := find_longest_match a b alo ahi blo bhi in
      match k with
      | O => O
      | _ =>
          (k
           + (if (alo <? i)%nat && (blo <? j)%nat
              then matching_blocks_size fuel' a b alo i blo j else O)
           + (if (i + k <? ahi)%nat && (j + k <? bhi)%nat
              then matching_blocks_size fuel' a b (i + k) ahi (j + k) bhi
              else O))%nat
      end
  end.

Definition difflib_reference : Difflib := {|
  matching_size a b :=
    matching_blocks_size (S (length a)) a b 0 (length a) 0 (length b);
|}.

(* ===================================================================== *)
(** * Example trees *)
(* ===================================================================== *)

Definition example_node (node_id node_title node_action : str)
    (node_children : list str) : str * MenuNode :=
  (node_id,
   {| id := node_id; title := node_title; description := PNone;
      action := node_action; children := node_children; keywords := [];
      db_query := None; tool := None |}).

(** A root whose only child was never defined. *)
Definition dangling_tree : MenuTree :=
  {| nodes := [example_node (u "root") (u "Menú Principal") (u "menu") [u "perdido"]];
     root_node_id := Some (u "root") |}.

(** Two levels: the root offers [economico] and [dolar]; [economico]
    offers [ipc] and [empleo]. *)
Definition two_level_tree : MenuTree :=
  {| nodes :=
       [example_node (u "root") (u "Menú Principal") (u "menu")
          [u "economico"; u "dolar"];
        example_node (u "economico") (u "Datos Económicos") (u "menu")
          [u "ipc"; u "empleo"];
        example_node (u "dolar") (u "Dólar") (u "tool") [];
        example_node (u "ipc") (u "IPC") (u "tool") [];
        example_node (u "empleo") (u "Empleo") (u "tool") []];
     root_node_id := Some (u "root") |}.

(** What the text branch of [detect_intent] answers in the examples,
    none of which reaches it. *)
Definition open_intent (menu_tree : MenuTree) (text : str) : Intent :=
  {| intent_type := u "open"; intent_node_id := None; intent_keywords := [];
     intent_db_query := Some text; confidence := 0.6%float |}.

(** The intent built for a child chosen by number. *)
Definition selection_intent (child_node : MenuNode) : Intent :=
  {| intent_type :=
       if str_eqb (action child_node) (u "menu") then u "menu" else u "query";
     intent_node_id := Some (id child_node);
     intent_keywords := [u "number_selection"];
     intent_db_query := db_query child_node;
     confidence := 1.0%float |}.

(* ===================================================================== *)
(** * Example tool layers *)
(* ===================================================================== *)

(** A regular-expression engine for the example queries, which match none
    of [comparison_patterns]. *)
Definition no_pattern_matches : Regex := {| re_search _ _ := false |}.

(** An interpreter that iterates over [LOCATION_NAMES] in the order of
    the set display. *)
Definition listed_order : HashSeed :=
  {| LOCATION_NAMES_iter := LOCATION_NAMES_listed |}.

(** A stateless tool layer that answers from the arguments alone. *)
Definition answering (answer : gmap (list N) (list N) -> list N) : ToolExecutor unit :=
  {| is_available _ := true;
     execute w tool_name args := (answer args, w) |}.

(** A tool whose answer is worded in lower case. *)
Definition lowercase_error : list N := Eval vm_compute in
  u "error: no se encontraron datos".


Definition plain_answer : list N := Eval vm_compute in
  u "Corrientes: 346334 habitantes".


(** No keyword of a tool other than [tool_name] occurs in [query_lower]. *)
Definition silent_elsewhere (query_lower tool_name : list N) : bool :=
  forallb (fun entry =>
             str_eqb (fst entry) tool_name
             || forallb (fun keyword => negb (contains query_lower keyword))
                        (cfg_keywords (snd entry)))
          TOOL_MAPPINGS.

(* ===================================================================== *)
(** * Support for the proofs about binary64 arithmetic *)
(* ===================================================================== *)

(** Neither NaN nor negative; [-0.0] counts, as [0.0 <= -0.0] holds. *)
Definition sf_nonneg (x : spec_float) : Prop :=
  match x with
  | S754_zero _ => True
  | S754_infinity s => s = false
  | S754_nan => False
  | S754_finite s _ _ => s = false
  end.

(** [1.0] as a specification float. *)
Definition sf_one : spec_float := S754_finite false 4503599627370496 (-52).

Definition float_of_N (n : N) : float :=
  PrimFloat.of_uint63 (Uint63.of_Z (Z.of_N n)).

Definition ratio_N (M T : N) : float :=
  if T =? 0 then 1.0%float
  else (2.0 * float_of_N M / float_of_N T)%float.

(** [f lo], [f (lo + 1)], ..., [f (lo + count - 1)] all hold. *)
Fixpoint all_from (count : nat) (lo : N) (f : N -> bool) : bool :=
  match count with
  | O => true
  | S count' => f lo && all_from count' (N.succ lo) f
  end.

Definition in_unit_b (x : float) : bool :=
  PrimFloat.leb 0%float x && PrimFloat.leb x 1%float.

(** Two texts of at most 500 characters each have a ratio [2.0 * M / T]
    with [T <= 1000] and [2 * M <= T]: halved it lies in the unit
    interval, and a fifth of it is not negative. *)
Definition ratio_cell (T M : N) : bool :=
  in_unit_b (ratio_N M T * 0.5) && PrimFloat.leb 0%float (ratio_N M T * 0.2).

Definition ratio_row (T : N) : bool :=
  all_from (S (N.to_nat (T / 2))) 0 (ratio_cell T).

(** Sets of at most 500 words: the quotient [c / m] of their sizes,
    [c <= m], halved, is not negative. *)
Definition overlap_cell (m c : N) : bool :=
  PrimFloat.leb 0%float (float_of_N c / float_of_N m * 0.5).

Definition overlap_row (m : N) : bool :=
  all_from (S (N.to_nat m)) 0 (overlap_cell m).


(* ===================================================================== *)
(** * learning_memory.py: keys and candidate scoring *)
(* ===================================================================== *)

(** A row of [chatbot_learned_responses] as [find_similar] reads it. *)
Record Entry := {
  entry_id : Z;
  entry_question : str;
  entry_response : str;
  entry_use_count : Z;
}.

Section LearningMemoryKeys.
Context {U : Unicode} {D : Difflib}.

(** [_generate_key]. *)
Definition generate_key (question : str) : str :=
  let normalized := normalize_text question in
  let words := take 5 (filter (fun w => (2 < length w)%nat) (split_ws normalized)) in
  match words with
  | [] => u "unknown"
  | _ => take 100 (join (u "_") words)
  end.

(** One turn of the loop of [find_similar] over the candidates. *)
Definition score_candidate (question : str) (min_similarity : float)
    (acc : option (Z * Entry * float) * float) (candidate : Entry)
    : option (Z * Entry * float) * float :=
  let '(best_match, best_similarity) := acc in
  let similarity := calculate_similarity question (entry_question candidate) in
  if PrimFloat.ltb best_similarity similarity
     && PrimFloat.leb min_similarity similarity
  then (Some (entry_id candidate, candidate, similarity), similarity)
  else (best_match, best_similarity).

(** The loop of [find_similar] (lines 199-212): the best of the candidates
    the database returned, if any reaches [min_similarity]. *)
Definition best_candidate (question : str) (min_similarity : float)
    (candidates : list Entry) : option (Z * Entry * float) :=
  fst (fold_left (score_candidate question min_similarity) candidates
                 (None, 0.0%float)).
End LearningMemoryKeys.

(** Strictly positive and not NaN. *)
Definition sf_positive (x : spec_float) : Prop :=
  match x with
  | S754_infinity s => s = false
  | S754_finite s _ _ => s = false
  | _ => False
  end.

(** What the scoring loop keeps true of its two variables. *)
Definition scoring_invariant (acc : option (Z * Entry * float) * float) : Prop :=
  (fst acc = None -> snd acc = 0%float)
  /\ (forall i e s, fst acc = Some (i, e, s) ->
        snd acc = s /\ PrimFloat.ltb 0%float s = true).


(** The seven replacements of [_normalize_text] applied to one character,
    in order. *)
Definition fold_accent (c : N) : N :=
  fold_left (fun c '(old, new) => if c =? old then new else c) replacements c.

(** An interpreter that iterates over [LOCATION_NAMES] in the opposite
    order. *)
Definition reversed_order : HashSeed :=
  {| LOCATION_NAMES_iter := rev LOCATION_NAMES_listed |}.

(** [LOCATION_CANONICAL.get(location, location)]. *)
Definition canonical_name (location : str) : str :=
  default location (dict_get LOCATION_CANONICAL location).

(* ===================================================================== *)
(** * menu_tree.py: the path to a node *)
(* ===================================================================== *)

(** What one call of [dfs] leaves behind: its result and the set
    [visited], which all the calls share and update in place.  The outer
    [None] is the model running out of fuel. *)
Definition visit : Type :=
  str -> list str -> gset str -> option (option (list str) * gset str).

(** [for child_id in node.children] inside [dfs]; [path] is already
    [path + [current_id]]. *)
Fixpoint dfs_children (dfs : visit) (path : list str) (cs : list str)
    (visited : gset str) : option (option (list str) * gset str) :=
  match cs with
  | [] => Some (None, visited)
  | child_id :: rest =>
      if bool_decide (child_id ∈ visited) then dfs_children dfs path rest visited
      else
        match dfs child_id path visited with
        | None => None
        | Some (Some (x :: result), visited) => Some (Some (x :: result), visited)
        | Some (_, visited) => dfs_children dfs path rest visited
        end
  end.

Fixpoint dfs (t : MenuTree) (target_node_id : str) (fuel : nat) : visit :=
  match fuel with
  | O => fun _ _ _ => None
  | S fuel => fun current_id path visited =>
      if str_eqb current_id target_node_id
      then Some (Some (path ++ [current_id]), visited)
      else
        match get_node t current_id with
        | None => Some (None, visited)
        | Some node =>
            dfs_children (dfs t target_node_id fuel) (path ++ [current_id])
                         (children node) ({[ current_id ]} ∪ visited)
        end
  end.









(* ===================================================================== *)
(** * menu_tree.py: the node a text points at *)
(* ===================================================================== *)

Definition action_words : list str := Eval vm_compute in map u [
  "comparar"; "comparacion"; "comparación"; "dame"; "muéstrame"; "muestrame";
  "cual es"; "cuál es"; "cuanto"; "cuánto"; "cuantos"; "cuántos";
  "diferencia"; "variacion"; "variación"; "crecimiento"; "evolucion";
  "evolución"
]%string.

Section FindNode.
Context {U : Unicode}.

(** The three-way comparison of a cleaned title or description with the
    cleaned text: equal, one inside the other, or a long enough word of
    it inside the text. *)
Definition text_points (clean text_clean : str) (equal inside word : Z)
    (min_len : nat) : Z :=
  if str_eqb clean text_clean then equal
  else if contains text_clean clean || contains clean text_clean then inside
  else if existsb (fun word => contains text_clean word)
            (filter (fun word => (min_len < length word)%nat) (split_ws clean))
  then word
  else 0%Z.

Definition title_points (node : MenuNode) (text_clean : str) : Z :=
  match title node with
  | [] => 0%Z
  | _ => text_points (remove_punctuation (str_lower (title node))) text_clean
                     20 15 10 3
  end.

Definition keyword_points (text_lower keyword : str) : Z :=
  let keyword_lower := str_lower keyword in
  if contains text_lower keyword_lower then
    if str_eqb keyword_lower text_lower then 10%Z
    else if startswith text_lower keyword_lower
            || endswith text_lower keyword_lower then 5%Z
    else 1%Z
  else 0%Z.

(** A truthy description that is not a string has no [.lower()]. *)
Definition description_points (d : pyval) (text_clean : str) : exn + Z :=
  match d with
  | PStr s =>
      if pyval_truthy d
      then inr (text_points (remove_punctuation (str_lower s)) text_clean
                            15 10 3 4)
      else inr 0%Z
  | PNone => inr 0%Z
  | PInt z => if pyval_truthy d then inl AttributeError else inr 0%Z
  end.

Definition id_points (node : MenuNode) (text_lower : str) : Z :=
  let node_id_lower := str_lower (id node) in
  if contains text_lower node_id_lower || contains node_id_lower text_lower
  then 3%Z else 0%Z.

(** The score of one node, as the body of [for node in
    self.nodes.values()] computes it. *)
Definition node_score (text_lower text_clean : str) (is_action_query : bool)
    (node : MenuNode) : exn + Z :=
  let score := title_points node text_clean in
  let score :=
    fold_left (fun score keyword => (score + keyword_points text_lower keyword)%Z)
              (keywords node) score in
  match description_points (description node) text_clean with
  | inl e => inl e
  | inr points =>
      let score := (score + points)%Z in
      let score := (score + id_points node text_lower)%Z in
      if is_action_query && (0 <? score)%Z then
        if str_eqb (action node) (u "tool") then inr (score + 10)%Z
        else if str_eqb (action node) (u "menu")
                && negb (bool_decide (children node = []))
        then inr (score - 3)%Z
        else inr score
      else inr score
  end.

(** The update of [best_match] and [best_score] by one node. *)
Definition better_match (node : MenuNode) (score : Z)
    (best : option MenuNode * Z) : option MenuNode * Z :=
  let '(best_match, best_score) := best in
  if (best_score <? score)%Z then (Some node, score)
  else if (score =? best_score)%Z && (0 <? score)%Z then
    if str_eqb (action node) (u "tool")
       && match best_match with
          | None => true
          | Some b => str_eqb (action b) (u "menu")
          end
    then (Some node, best_score)
    else best
  else best.

Fixpoint best_node_from (text_lower text_clean : str) (is_action_query : bool)
    (values : list MenuNode) (best : option MenuNode * Z)
    : exn + (option MenuNode * Z) :=
  match values with
  | [] => inr best
  | node :: rest =>
      match node_score text_lower text_clean is_action_query node with
      | inl e => inl e
      | inr score =>
          best_node_from text_lower text_clean is_action_query rest
                         (better_match node score best)
      end
  end.

(** The [try] block at the head of [find_node_by_keyword]: [None] when
    control leaves it without returning. *)
Definition numbered_child (t : MenuTree) (text_lower : str)
    : option (option MenuNode) :=
  match int_of_str text_lower with
  | None => None
  | Some option_number =>
      match get_root t with
      | None => None
      | Some root =>
          match children root with
          | [] => None
          | _ =>
              if ((1 <=? option_number)
                  && (option_number <=? Z.of_nat (length (children root))))%Z
              then
                match children root !! Z.to_nat (option_number - 1) with
                | None => None
                | Some child_id => Some (get_node t child_id)
                end
              else None
          end
      end
  end.

Definition find_node_by_keyword (t : MenuTree) (text : str)
    : exn + option MenuNode :=
  let text_lower := strip (str_lower text) in
  match numbered_child t text_lower with
  | Some found => inr found
  | None =>
      let text_clean := remove_punctuation text_lower in
      let is_action_query :=
        existsb (fun word => contains text_lower word) action_words in
      match best_node_from text_lower text_clean is_action_query
                           (map snd (nodes t)) (None, 0%Z) with
      | inl e => inl e
      | inr (best_match, best_score) =>
          if (5 <=? best_score)%Z then inr best_match else inr None
      end
  end.
End FindNode.

(** What the scoring loop of [find_node_by_keyword] maintains: the best
    score is the highest seen so far and never negative, and the best
    match, if any, is a node seen so far with that score. *)
Definition best_so_far {U : Unicode} (text_lower text_clean : str)
    (is_action_query : bool) (seen : list MenuNode)
    (best : option MenuNode * Z) : Prop :=
  (0 <= snd best)%Z
  /\ (forall node, node ∈ seen ->
        exists score,
          node_score text_lower text_clean is_action_query node = inr score
          /\ (score <= snd best)%Z)
  /\ (forall b, fst best = Some b ->
        b ∈ seen
        /\ node_score text_lower text_clean is_action_query b = inr (snd best)).

(* ===================================================================== *)
(** * keyword_detector.py: the text branch of [detect_intent] *)
(* ===================================================================== *)

(** [KeywordDetector]: [db_keywords] is the list built once from the
    database structure, in the order of a set. *)
Record KeywordDetector := {
  menu_tree : MenuTree;
  db_keywords : list str;
}.

(** [self.common_keywords], in the order of the dictionary display. *)
Definition common_keywords : list (str * list str) := Eval vm_compute in
  map (fun entry => (u (fst entry), map u (snd entry))) [
    ("menu", ["menú"; "menu"; "inicio"; "principal"; "volver"]);
    ("back", ["atrás"; "back"; "volver"; "anterior"; "regresar"]);
    ("help", ["ayuda"; "help"; "como usar"; "instrucciones"; "información"]);
    ("ultimo", ["último"; "ultimo"; "última"; "ultima"; "reciente";
                "más reciente"; "last"]);
    ("primero", ["primero"; "primera"; "inicial"; "first"]);
    ("promedio", ["promedio"; "media"; "average"; "mean"]);
    ("suma", ["suma"; "total"; "sum"; "total"]);
    ("maximo", ["máximo"; "maximo"; "mayor"; "highest"; "max"]);
    ("minimo", ["mínimo"; "minimo"; "menor"; "lowest"; "min"]);
    ("economico", ["económico"; "economico"; "economía"; "economia";
                   "finanzas"; "dinero"; "presupuesto"; "ingresos"; "gastos";
                   "inflación"; "inflacion"]);
    ("socio", ["social"; "sociedad"; "demografía"; "demografia"; "población";
               "poblacion"; "ciudadanos"; "habitantes"; "personas"; "gente"]);
    ("datalake", ["datalake"; "raw"; "bruto"; "crudo"; "sin procesar"]);
    ("dwh", ["dwh"; "warehouse"; "almacén"; "almacen"; "procesado";
             "transformado"]);
    ("buscar", ["buscar"; "busca"; "encontrar"; "muestra"; "muéstrame"; "dame";
                "dame"; "quiero ver"; "necesito"; "información sobre";
                "datos de"]);
    ("estructura", ["estructura"; "tablas"; "columnas"; "schema"; "esquema";
                    "base de datos"; "qué hay"; "que hay"; "qué información";
                    "que información"])
  ]%string.

(** [self.query_patterns]. *)
Definition query_patterns : list (str * str) := Eval vm_compute in
  map (fun entry => (u (fst entry), u (snd entry))) [
    ("(último|ultimo|última|ultima|más reciente|mas reciente)\s+(valor|dato|registro|resultado)",
     "ultimo");
    ("(primer|primera|inicial)\s+(valor|dato|registro|resultado)", "primero");
    ("(promedio|media)\s+(de|del|de la)", "promedio");
    ("(suma|total)\s+(de|del|de la)", "suma");
    ("(máximo|maximo|mayor)\s+(valor|dato)", "maximo");
    ("(mínimo|minimo|menor)\s+(valor|dato)", "minimo");
    ("(año|ano|años|anos)\s+(\d{4})", "year");
    ("(\d{4})", "year");
    ("(mes|meses)\s+(de|del)", "month");
    ("(día|dia|días|dias)\s+(de|del)", "day")
  ]%string.

(** [menu_term_mapping]. *)
Definition menu_term_mapping : list (str * str) := Eval vm_compute in
  map (fun entry => (u (fst entry), u (snd entry))) [
    ("datos económicos", "economico");
    ("datos economicos", "economico");
    ("datos sociales", "socio");
    ("datalake económico", "economico");
    ("datalake economico", "economico");
    ("datalake social", "socio");
    ("datalake socio", "socio");
    ("dwh económico", "economico");
    ("dwh economico", "economico");
    ("dwh social", "socio");
    ("dwh socio", "socio");
    ("información general", "general");
    ("informacion general", "general")
  ]%string.

(** The dictionary [detect_intent] returns.  The keys every branch sets
    are those of [Intent]; [query_type] and [db_matches] are set by some
    branches only, and a key that is absent reads as [None] or as the
    empty list, which is how the callers read it ([intent.get]). *)
Record TextIntent := {
  intent : Intent;
  query_type : option str;
  db_matches : list str;
}.

(** [self.common_keywords[category]]. *)
Definition common (category : str) : list str :=
  default [] (dict_get common_keywords category).

(** [any(keyword in text_lower for keyword in words)]. *)
Definition any_in (text_lower : str) (words : list str) : bool :=
  existsb (fun keyword => contains text_lower keyword) words.

Section TextBranch.
Context {U : Unicode} {R : Regex}.

(** The first pattern of [query_patterns] found in the text. *)
Definition detect_query_type (text_lower : str) : option str :=
  snd <$> List.find (fun entry => re_search (fst entry) text_lower)
                    query_patterns.

(** The categories of [common_keywords] with a keyword in the text. *)
Definition detect_keywords (text_lower : str) : list str :=
  map fst (filter (fun entry => Is_true (any_in text_lower (snd entry)))
                  common_keywords).

Definition detect_db_matches (kd : KeywordDetector) (text_lower : str)
    : list str :=
  filter (fun db_keyword =>
            Is_true (contains text_lower db_keyword
                     || contains db_keyword text_lower))
         (db_keywords kd).

(** [for parent_node in self.menu_tree.nodes.values()]: the first node
    that lists [node_id] among its children and is a menu. *)
Definition menu_parent (t : MenuTree) (node_id : str) : option str :=
  id <$> List.find (fun parent_node =>
                      negb (bool_decide (children parent_node = []))
                      && bool_decide (node_id ∈ children parent_node)
                      && str_eqb (action parent_node) (u "menu"))
                   (map snd (nodes t)).

(** [matched_node_id] after both searches; [None] is also what is left
    when no search was successful. *)
Definition matched_node (kd : KeywordDetector) (text text_lower : str)
    : exn + option str :=
  match List.find (fun entry => contains text_lower (fst entry))
                  menu_term_mapping with
  | Some (_, node_id) => inr (Some node_id)
  | None =>
      match find_node_by_keyword (menu_tree kd) text with
      | inl e => inl e
      | inr None => inr None
      | inr (Some menu_node) =>
          if str_eqb (action menu_node) (u "menu")
          then inr (Some (id menu_node))
          else inr (menu_parent (menu_tree kd) (id menu_node))
      end
  end.

(** Lines 109-238 of [detect_intent]: what is done with a text that was
    not answered as a menu number. *)
Definition detect_text_intent (kd : KeywordDetector) (text : str)
    : exn + TextIntent :=
  let text_lower := strip (str_lower text) in
  if any_in text_lower (common (u "menu")) then
    inr {| intent := {| intent_type := u "menu";
                        intent_node_id := Some (u "root");
                        intent_keywords := [u "menu"];
                        intent_db_query := None;
                        confidence := 1.0%float |};
           query_type := None; db_matches := [] |}
  else if any_in text_lower (common (u "back")) then
    inr {| intent := {| intent_type := u "back";
                        intent_node_id := None;
                        intent_keywords := [u "back"];
                        intent_db_query := None;
                        confidence := 1.0%float |};
           query_type := None; db_matches := [] |}
  else if any_in text_lower (common (u "help")) then
    inr {| intent := {| intent_type := u "menu";
                        intent_node_id := Some (u "ayuda");
                        intent_keywords := [u "help"];
                        intent_db_query := None;
                        confidence := 1.0%float |};
           query_type := None; db_matches := [] |}
  else
    let qtype := detect_query_type text_lower in
    let matches := detect_db_matches kd text_lower in
    let found_keywords :=
      detect_keywords text_lower
      ++ match matches with [] => [] | _ => [u "database_match"] end in
    match matched_node kd text text_lower with
    | inl e => inl e
    | inr matched_node_id =>
        let menu_node :=
          match matched_node_id with
          | Some node_id =>
              if str_eqb node_id [] then None
              else match get_node (menu_tree kd) node_id with
                   | Some menu_node =>
                       if str_eqb (action menu_node) (u "menu")
                       then Some (node_id, menu_node) else None
                   | None => None
                   end
          | None => None
          end in
        match menu_node with
        | Some (node_id, menu_node) =>
            inr {| intent := {| intent_type := u "menu";
                                intent_node_id := Some node_id;
                                intent_keywords := keywords menu_node;
                                intent_db_query := None;
                                confidence := 0.95%float |};
                   query_type := None; db_matches := [] |}
        | None =>
            if bool_decide (u "estructura" ∈ found_keywords) then
              inr {| intent := {| intent_type := u "query";
                                  intent_node_id := Some (u "estructura");
                                  intent_keywords := found_keywords;
                                  intent_db_query := Some (u "structure");
                                  confidence := 0.9%float |};
                     query_type := qtype; db_matches := [] |}
            else
              inr {| intent := {| intent_type := u "open";
                                  intent_node_id := None;
                                  intent_keywords := found_keywords;
                                  intent_db_query := Some text;
                                  confidence :=
                                    match matches with
                                    | [] => 0.6%float
                                    | _ => 0.8%float
                                    end |};
                     query_type := qtype; db_matches := take 10 matches |}
        end
    end.

(** [detect_intent] as a whole. *)
Definition detect_intent_full (kd : KeywordDetector) (text : str)
    : exn + TextIntent :=
  match number_selection (menu_tree kd) (strip (str_lower text)) with
  | Some selected =>
      inr {| intent := selected; query_type := None; db_matches := [] |}
  | None => detect_text_intent kd text
  end.
End TextBranch.

(** Every node is stored under its own id, as [load_menu] and
    [_create_default_menu] store it ([self.nodes[node.id] = node]). *)
Definition stored_by_id (t : MenuTree) : Prop :=
  forall node_id node, (node_id, node) ∈ nodes t -> id node = node_id.

(** The words of [common_keywords["back"]] that are not also in
    [common_keywords["menu"]]. *)
Definition back_only_words : list str := Eval vm_compute in
  map u ["atrás"; "back"; "anterior"; "regresar"]%string.

(** A detector over the two-level tree, with two database keywords. *)
Definition example_detector : KeywordDetector :=
  {| menu_tree := two_level_tree;
     db_keywords := [u "ipc_valores"; u "empleo"] |}.

(* ===================================================================== *)
(** * keyword_detector.py: the query sent to the database *)
(* ===================================================================== *)

(** [s.replace(old, "")] for a non-empty [old]: the occurrences of [old]
    are removed from left to right, without overlap; [skip] counts the
    characters of the occurrence being removed that are still ahead. *)
Fixpoint remove_from (old : str) (skip : nat) (s : str) : str :=
  match s with
  | [] => []
  | c :: r =>
      match skip with
      | S k => remove_from old k r
      | O =>
          if startswith s old then remove_from old (length old - 1) r
          else c :: remove_from old 0 r
      end
  end.

Definition remove_all (old s : str) : str := remove_from old 0 s.

(** The words [build_database_query] drops from a query for the latest
    value. *)
Definition latest_words : list str := Eval vm_compute in map u [
  "último"; "ultimo"; "última"; "ultima"; "más"; "reciente"; "mas"; "valor";
  "dato"
]%string.

Section BuildQuery.
Context {U : Unicode}.

(** [relevant_words] of the branch for ["ultimo"]. *)
Definition relevant_words (original_text : str) : list str :=
  filter (fun w => w ∉ latest_words) (split_ws (str_lower original_text)).

(** [build_database_query]; of the intent only [query_type] is read. *)
Definition build_database_query (detected : TextIntent) (original_text : str)
    : str :=
  let qtype := default [] (query_type detected) in
  let query :=
    if str_eqb qtype (u "ultimo") then
      match relevant_words original_text with
      | [] => original_text
      | words => join [SP] words
      end
    else if str_eqb qtype (u "promedio") then
      strip (remove_all (u "media") (remove_all (u "promedio") original_text))
    else if str_eqb qtype (u "suma") then
      strip (remove_all (u "total") (remove_all (u "suma") original_text))
    else original_text in
  if str_eqb (strip query) [] then original_text else strip query.
End BuildQuery.

(* ===================================================================== *)
(** * tool_executor.py *)
(* ===================================================================== *)

(** The names [self._tool_handlers] is keyed by. *)
Definition TOOL_HANDLERS : list str := Eval vm_compute in map u [
  "get_ipc"; "get_dolar"; "get_empleo"; "get_semaforo"; "get_censo";
  "get_censo_departamentos"; "get_combustible"; "get_canasta_basica";
  "get_ecv"; "get_patentamientos"; "get_aeropuertos"; "get_oede";
  "get_pobreza"; "search_database"; "get_emae"; "get_pbg"; "get_salarios";
  "get_supermercados"; "get_construccion"; "get_ipc_corrientes"
]%string.

Definition NO_TOOLS : str := Eval vm_compute in
  u "Error: Herramientas de base de datos no disponibles".

Definition APOLOGY : str := Eval vm_compute in
  u "Lo siento, hubo un error al obtener los datos. Por favor intenta de nuevo.".

Definition unknown_tool (tool_name : str) : str :=
  u "Herramienta " ++ tool_name ++ u " no disponible".

(** [DatabaseTools]: what the method named like the tool does with
    keyword arguments; [None] is an exception raised, [D] the state of
    the object and of the databases behind it. *)
Class DatabaseTools (D : Type) := {
  call : D -> str -> gmap str str -> option str * D;
}.

(** The handlers of [get_canasta_basica] and [get_ipc_corrientes] call
    their method without arguments; the others pass [**args]. *)
Definition handler_args (tool_name : str) (tool_args : gmap str str)
    : gmap str str :=
  if str_eqb tool_name (u "get_canasta_basica")
     || str_eqb tool_name (u "get_ipc_corrientes")
  then ∅ else tool_args.

(** [ToolExecutor.execute]; the executor is its field [db_tools]. *)
Definition executor_execute {D : Type} {DT : DatabaseTools D}
    (db_tools : option D) (tool_name : str) (tool_args : gmap str str)
    : str * option D :=
  match db_tools with
  | None => (NO_TOOLS, None)
  | Some d =>
      if bool_decide (tool_name ∈ TOOL_HANDLERS) then
        match call d tool_name (handler_args tool_name tool_args) with
        | (Some result, d) => (result, Some d)
        | (None, d) => (APOLOGY, Some d)
        end
      else (unknown_tool tool_name, Some d)
  end.

(** [ToolExecutor.is_available]. *)
Definition executor_is_available {D : Type} (db_tools : option D) : bool :=
  bool_decide (is_Some db_tools).

(** The executor as the router sees it. *)
Definition tool_executor {D : Type} {DT : DatabaseTools D}
    : ToolExecutor (option D) :=
  {| is_available := executor_is_available;
     execute := executor_execute |}.

(** A data layer in which every method raises. *)
Definition failing_tools : DatabaseTools unit :=
  {| call d _ _ := (None, d) |}.

(* ===================================================================== *)
(** * related_options_finder.py *)
(* ===================================================================== *)

Definition common_words : gset str :=
  list_to_set (map u
    ["el"; "la"; "los"; "las"; "de"; "del"; "en"; "un"; "una"; "y"; "o";
     "que"; "para"; "por"; "con"; "sin"; "sobre"; "acceso"; "a"]%string).

(** [related_nodes[:max_options]]: a negative bound counts from the
    end. *)
Definition slice_to {A : Type} (l : list A) (stop : Z) : list A :=
  if (0 <=? stop)%Z then take (Z.to_nat stop) l
  else take (length l - Z.to_nat (- stop)) l.

(** [related_nodes.sort(key=lambda x: x[1], reverse=True)]: by score,
    highest first; entries of equal score keep their order. *)
Fixpoint insert_by_score {A : Type} (x : A * nat) (sorted : list (A * nat))
    : list (A * nat) :=
  match sorted with
  | [] => [x]
  | y :: rest =>
      if (snd y <=? snd x)%nat then x :: y :: rest
      else y :: insert_by_score x rest
  end.

Definition sort_by_score {A : Type} (l : list (A * nat)) : list (A * nat) :=
  foldr insert_by_score [] l.

(** [a] may stand before [b] in a list ordered by score. *)
Definition by_score {A : Type} (a b : A * nat) : Prop := (snd b <= snd a)%nat.

Section RelatedOptions.
Context {U : Unicode}.

(** [set(re.sub(r'[^\w\s]', '', s).split())]. *)
Definition words_of (normalized : str) : gset str :=
  list_to_set (split_ws normalized).

Definition related_title_score (node : MenuNode) (query_normalized : str)
    (query_words : gset str) : nat :=
  match title node with
  | [] => 0%nat
  | _ =>
      let title_normalized :=
        remove_punctuation (str_lower (strip (title node))) in
      let title_words := words_of title_normalized in
      if str_eqb query_normalized title_normalized then 100%nat
      else if contains title_normalized query_normalized
              || contains query_normalized title_normalized then 50%nat
      else (size (query_words ∩ title_words) * 15)%nat
  end.

Definition related_keyword_points (query_normalized : str)
    (query_words : gset str) (keyword : str) : nat :=
  let keyword_normalized := strip (str_lower keyword) in
  if contains query_normalized keyword_normalized
     || contains keyword_normalized query_normalized then 30%nat
  else if bool_decide (keyword_normalized ∈ query_words) then 15%nat
  else 0%nat.

(** A truthy description that is not a string has no [.strip()]. *)
Definition related_description_points (d : pyval) (query_words : gset str)
    : exn + nat :=
  match d with
  | PStr s =>
      if pyval_truthy d then
        let desc_words := words_of (remove_punctuation (str_lower (strip s))) in
        inr (size (query_words ∩ desc_words) * 5)%nat
      else inr 0%nat
  | PNone => inr 0%nat
  | PInt z => if pyval_truthy d then inl AttributeError else inr 0%nat
  end.

Definition related_score (query_normalized : str) (query_words : gset str)
    (node : MenuNode) : exn + nat :=
  let score := related_title_score node query_normalized query_words in
  let score :=
    fold_left (fun score keyword =>
                 (score + related_keyword_points query_normalized query_words
                                                 keyword)%nat)
              (keywords node) score in
  match related_description_points (description node) query_words with
  | inl e => inl e
  | inr points => inr (score + points)%nat
  end.

(** [for node_id, node in self.menu_tree.nodes.items()]. *)
Fixpoint related_from (query_normalized : str) (query_words : gset str)
    (values : list MenuNode) (related_nodes : list (MenuNode * nat))
    : exn + list (MenuNode * nat) :=
  match values with
  | [] => inr related_nodes
  | node :: rest =>
      match related_score query_normalized query_words node with
      | inl e => inl e
      | inr score =>
          related_from query_normalized query_words rest
            (if (15 <=? score)%nat then related_nodes ++ [(node, score)]
             else related_nodes)
      end
  end.

Definition find_related_options (t : MenuTree) (query : str) (max_options : Z)
    : exn + list (MenuNode * nat) :=
  if str_eqb query [] || str_eqb (strip query) [] then inr []
  else
    let query_normalized := remove_punctuation (str_lower (strip query)) in
    let query_words :=
      filter (fun w => (w ∉ common_words) /\ (2 < length w)%nat)
             (words_of query_normalized) in
    if bool_decide (query_words = ∅) then inr []
    else
      match related_from query_normalized query_words (map snd (nodes t)) [] with
      | inl e => inl e
      | inr related_nodes =>
          inr (slice_to (sort_by_score related_nodes) max_options)
      end.
End RelatedOptions.
(* ===================================================================== *)
(** * Facts about binary64 arithmetic *)
(* ===================================================================== *)

Lemma SFleb_zero_nonneg x :
  SFleb (S754_zero false) x = true <-> sf_nonneg x.
Proof.
  destruct x as [s|s| |s m e]; unfold SFleb; simpl; try destruct s; simpl.
  all: try (split; [auto; discriminate | auto]).
Qed.

Lemma leb_zero_nonneg (x : float) :
  PrimFloat.leb 0%float x = true <-> sf_nonneg (Prim2SF x).
Proof. rewrite FloatAxioms.leb_spec. exact (SFleb_zero_nonneg (Prim2SF x)). Qed.

Lemma iter_pos_invariant {A} (P : A -> Prop) (f : A -> A) :
  (forall x, P x -> P (f x)) -> forall p x, P x -> P (SpecFloat.iter_pos f p x).
Proof.
  intros Hf p. induction p as [p IH|p IH|]; intros x Hx; simpl; auto.
Qed.

Lemma shr_1_nonneg mrs : (0 <= shr_m mrs)%Z -> (0 <= shr_m (shr_1 mrs))%Z.
Proof.
  destruct mrs as [m r s]. simpl.
  destruct m as [|[p|p|]|[p|p|]]; simpl; lia.
Qed.

Lemma shr_nonneg mrs e n :
  (0 <= shr_m mrs)%Z -> (0 <= shr_m (fst (shr mrs e n)))%Z.
Proof.
  intros H. destruct n as [|p|p]; simpl; auto.
  apply (iter_pos_invariant (fun x => (0 <= shr_m x)%Z)); auto using shr_1_nonneg.
Qed.

Lemma shr_fexp_nonneg prec emax m e l :
  (0 <= m)%Z -> (0 <= shr_m (fst (shr_fexp prec emax m e l)))%Z.
Proof.
  intros H. unfold shr_fexp. apply shr_nonneg.
  destruct l as [|[]]; simpl; exact H.
Qed.

Lemma round_nearest_even_nonneg m l :
  (0 <= m)%Z -> (0 <= round_nearest_even m l)%Z.
Proof.
  intros H. destruct l as [|[]]; simpl; try lia.
  destruct (Z.even m); lia.
Qed.

Lemma binary_round_aux_nonneg prec emax mx ex lx :
  (0 <= mx)%Z -> sf_nonneg (binary_round_aux prec emax false mx ex lx).
Proof.
  intros H. unfold binary_round_aux.
  pose proof (shr_fexp_nonneg prec emax mx ex lx H) as H1.
  destruct (shr_fexp prec emax mx ex lx) as [mrs' e']. simpl in H1.
  pose proof (shr_fexp_nonneg prec emax
                (round_nearest_even (shr_m mrs') (loc_of_shr_record mrs'))
                e' loc_Exact (round_nearest_even_nonneg _ _ H1)) as H2.
  destruct (shr_fexp prec emax _ e' loc_Exact) as [mrs'' e'']. simpl in H2.
  destruct (shr_m mrs'') as [|m|m]; simpl.
  - exact I.
  - destruct (Z.leb e'' (emax - prec)); reflexivity.
  - lia.
Qed.

Lemma SFadd_nonneg prec emax x y :
  sf_nonneg x -> sf_nonneg y -> sf_nonneg (SFadd prec emax x y).
Proof.
  destruct x as [sx|sx| |sx mx ex], y as [sy|sy| |sy my ey].
  all: unfold SFadd, sf_nonneg; try tauto; try congruence.
  - destruct sx, sy; simpl; auto.
  - intros -> ->. reflexivity.
  - intros -> ->. unfold binary_normalize, binary_round, cond_Zopp.
    destruct (shl_align mx ex (Z.min ex ey)) as [m1 e1].
    destruct (shl_align my ey (Z.min ex ey)) as [m2 e2].
    cbn [fst].
    change (IntDef.Z.add (Zpos m1) (Zpos m2)) with (Zpos (Pos.add m1 m2)).
    cbv iota.
    destruct (shl_align _ _ _) as [mz ez].
    apply binary_round_aux_nonneg. lia.
Qed.

Lemma add_nonneg (x y : float) :
  PrimFloat.leb 0%float x = true -> PrimFloat.leb 0%float y = true ->
  PrimFloat.leb 0%float (x + y)%float = true.
Proof.
  rewrite !leb_zero_nonneg, FloatAxioms.add_spec. apply SFadd_nonneg.
Qed.

Lemma SFleb_one_of_not_ltb x :
  sf_nonneg x -> SFltb sf_one x = false -> SFleb x sf_one = true.
Proof.
  unfold sf_one, sf_nonneg, SFltb, SFleb, SFcompare.
  destruct x as [s|s| |s m e]; try tauto; try reflexivity.
  - intros ->. discriminate.
  - intros ->.
    rewrite (Z.compare_antisym (-52) e).
    destruct (Z.compare (-52) e); cbn [CompOpp]; try congruence.
    rewrite !Pos.compare_cont_spec.
    rewrite (Pos.compare_antisym 4503599627370496 m).
    destruct (Pos.compare 4503599627370496 m); cbn; congruence.
Qed.

Lemma py_min_unit (y : float) :
  PrimFloat.leb 0%float y = true -> in_unit_interval (py_min y 1%float).
Proof.
  intros Hy. unfold py_min, in_unit_interval.
  destruct (PrimFloat.ltb 1%float y) eqn:Hlt.
  - split; reflexivity.
  - split; [exact Hy|].
    rewrite FloatAxioms.leb_spec.
    change (Prim2SF 1%float) with sf_one.
    apply SFleb_one_of_not_ltb.
    + apply leb_zero_nonneg, Hy.
    + rewrite FloatAxioms.ltb_spec in Hlt. exact Hlt.
Qed.

(** ** Exhaustive checks over the finitely many lengths that occur

    The tables below are indexed by binary numbers, which convert to
    floats in a few steps. *)

Lemma float_of_nat_N n : float_of_nat n = float_of_N (N.of_nat n).
Proof. unfold float_of_nat, float_of_N. rewrite nat_N_Z. reflexivity. Qed.

Lemma calculate_ratio_N M T :
  calculate_ratio M T = ratio_N (N.of_nat M) (N.of_nat T).
Proof.
  unfold calculate_ratio, ratio_N. destruct T as [|T']; [reflexivity|].
  rewrite !float_of_nat_N.
  destruct (N.eqb_spec (N.of_nat (S T')) 0) as [E|_]; [lia|reflexivity].
Qed.

Lemma all_from_spec count f : forall lo k,
  all_from count lo f = true -> lo <= k -> k < lo + N.of_nat count ->
  f k = true.
Proof.
  induction count as [|count IH]; intros lo k H Hlo Hhi; [lia|].
  cbn [all_from] in H. apply andb_prop in H. destruct H as [H0 H1].
  destruct (N.eq_dec k lo) as [->|Hne]; [exact H0|].
  apply (IH (N.succ lo)); [exact H1|lia|lia].
Qed.

Lemma in_unit_b_spec x : in_unit_b x = true -> in_unit_interval x.
Proof.
  unfold in_unit_b, in_unit_interval. intros H.
  apply andb_prop in H. exact H.
Qed.

Lemma ratio_table_checked : all_from 1001 0 ratio_row = true.
Proof. vm_compute. reflexivity. Qed.

Lemma ratio_cases (M T : nat) :
  (T <= 1000)%nat -> (2 * M <= T)%nat ->
  in_unit_interval (calculate_ratio M T * 0.5)
  /\ PrimFloat.leb 0%float (calculate_ratio M T * 0.2) = true.
Proof.
  intros HT HM. rewrite calculate_ratio_N.
  assert (Hrow : ratio_row (N.of_nat T) = true).
  { apply (all_from_spec 1001 ratio_row 0); [exact ratio_table_checked|lia|lia]. }
  assert (Hcell : ratio_cell (N.of_nat T) (N.of_nat M) = true).
  { apply (all_from_spec _ _ 0 _ Hrow); [lia|].
    assert (N.of_nat M <= N.of_nat T / 2) by (apply N.div_le_lower_bound; lia).
    lia. }
  unfold ratio_cell in Hcell. apply andb_prop in Hcell.
  destruct Hcell as [H1 H2].
  split; [apply in_unit_b_spec, H1|exact H2].
Qed.

Lemma overlap_table_checked : all_from 500 1 overlap_row = true.
Proof. vm_compute. reflexivity. Qed.

Lemma overlap_cases (c m : nat) :
  (1 <= m <= 500)%nat -> (c <= m)%nat ->
  PrimFloat.leb 0%float (float_of_nat c / float_of_nat m * 0.5) = true.
Proof.
  intros Hm Hc. rewrite !float_of_nat_N.
  assert (Hrow : overlap_row (N.of_nat m) = true).
  { apply (all_from_spec 500 overlap_row 1); [exact overlap_table_checked|lia|lia]. }
  apply (all_from_spec _ (overlap_cell (N.of_nat m)) 0 _ Hrow); lia.
Qed.

(* ===================================================================== *)
(** * learning_memory.py: normalization and similarity *)
(* ===================================================================== *)

(** Closes a decidable goal by evaluation. *)
Ltac by_evaluation :=
  match goal with
  | |- ?P =>
      let dec := constr:(_ : Decision P) in
      refine (@bool_decide_unpack P dec _); vm_compute; exact I
  end.

Section LearningMemoryFacts.
Context {U : Unicode} {D : Difflib}.

Lemma normalize_text_length text : (length (normalize_text text) <= 500)%nat.
Proof. unfold normalize_text. rewrite length_take. lia. Qed.

Lemma split_ws_from_length cur s :
  (length (split_ws_from cur s)
   <= length s + match cur with [] => 0 | _ => 1 end)%nat.
Proof.
  revert cur. induction s as [|c r IH]; intros cur; cbn [split_ws_from].
  - destruct cur; simpl; lia.
  - destruct (isspace c).
    + destruct cur; [specialize (IH []); simpl in *; lia|].
      specialize (IH []). simpl in *. lia.
    + specialize (IH (c :: cur)). simpl in *. destruct cur; lia.
Qed.

Lemma split_ws_length s : (length (split_ws s) <= length s)%nat.
Proof. pose proof (split_ws_from_length [] s). simpl in *. unfold split_ws. lia. Qed.

Lemma size_list_to_set_le (l : list (list N)) :
  (size (list_to_set (C := gset (list N)) l) <= length l)%nat.
Proof.
  induction l as [|x l IH]; [rewrite list_to_set_nil, size_empty; lia|].
  rewrite list_to_set_cons. cbn [length].
  destruct (decide (x ∈ (list_to_set l : gset (list N)))) as [Hin|Hnin].
  - rewrite (subseteq_union_1_L {[x]} (list_to_set l))
      by (apply singleton_subseteq_l, Hin). lia.
  - rewrite size_union by (apply disjoint_singleton_l, Hnin).
    rewrite size_singleton. lia.
Qed.

Lemma tokens_size text : (size (tokens text) <= 500)%nat.
Proof.
  unfold tokens.
  pose proof (size_list_to_set_le (split_ws (normalize_text text))).
  pose proof (split_ws_length (normalize_text text)).
  pose proof (normalize_text_length text). lia.
Qed.

Lemma content_words_size text : (size (content_words_of text) <= 500)%nat.
Proof.
  pose proof (tokens_size text).
  assert (size (content_words_of text) <= size (tokens text))%nat; [|lia].
  apply subseteq_size. unfold content_words_of.
  apply subseteq_difference_l. reflexivity.
Qed.

Lemma truthy_spec (X : gset (list N)) : truthy X = true <-> X ≠ ∅.
Proof. unfold truthy. rewrite bool_decide_eq_true. reflexivity. Qed.

Lemma truthy_false (X : gset (list N)) : truthy X = false <-> X = ∅.
Proof.
  unfold truthy. rewrite bool_decide_eq_false.
  split; [apply dec_stable|auto].
Qed.

(** [calculate_similarity] in terms of the quantities above. *)
Lemma calculate_similarity_unfold text1 text2 :
  calculate_similarity text1 text2 =
  let k1 := key_terms_of text1 in
  let k2 := key_terms_of text2 in
  let c1 := content_words_of text1 in
  let c2 := content_words_of text2 in
  let ratio := SequenceMatcher_ratio (normalize_text text1) (normalize_text text2) in
  if truthy k1 && truthy k2 && bool_decide (k1 ≠ k2) then 0.0%float
  else if (truthy k1 || truthy k2) && bool_decide (k1 ≠ k2) then 0.3%float
  else if negb (truthy c1) || negb (truthy c2) then (ratio * 0.5)%float
  else combined_score (word_overlap c1 c2) ratio
                      (truthy k1 && bool_decide (k1 = k2)).
Proof. reflexivity. Qed.

Lemma word_overlap_nonneg text1 text2 :
  content_words_of text1 ≠ ∅ -> content_words_of text2 ≠ ∅ ->
  PrimFloat.leb 0%float
    (word_overlap (content_words_of text1) (content_words_of text2) * 0.5)
  = true.
Proof.
  intros H1 H2. unfold word_overlap.
  pose proof (content_words_size text1).
  pose proof (content_words_size text2).
  set (A := content_words_of text1) in *.
  set (B := content_words_of text2) in *.
  clearbody A B.
  assert (size A ≠ 0)%nat
    by (intros E; apply size_empty_inv in E; apply H1, leibniz_equiv, E).
  apply overlap_cases; [lia|].
  assert (size (A ∩ B) <= size A)%nat
    by apply subseteq_size, intersection_subseteq_l.
  lia.
Qed.
End LearningMemoryFacts.

(** C1.  Key-term veto: whenever the key terms of both texts (the tokens of
    the normalized text that belong to [KEY_TERMS]) are non-empty and
    differ, [_calculate_similarity] returns exactly [0.0]; in particular
    the similarity of "qué es el IPC" and "qué es el EPH" is [0.0]. *)
Theorem key_term_veto :
  (forall (U : Unicode) (D : Difflib) (text1 text2 : str),
      key_terms_of text1 ≠ ∅ ->
      key_terms_of text2 ≠ ∅ ->
      key_terms_of text1 ≠ key_terms_of text2 ->
      calculate_similarity text1 text2 = 0%float)
  /\ (forall D : Difflib,
        calculate_similarity (U := Latin1)
          (u "qué es el IPC") (u "qué es el EPH") = 0%float).
Proof.
  assert (veto : forall (U : Unicode) (D : Difflib) (text1 text2 : str),
             key_terms_of text1 ≠ ∅ -> key_terms_of text2 ≠ ∅ ->
             key_terms_of text1 ≠ key_terms_of text2 ->
             calculate_similarity text1 text2 = 0%float).
  { intros U D text1 text2 H1 H2 Hne.
    rewrite calculate_similarity_unfold. cbv zeta.
    apply truthy_spec in H1. apply truthy_spec in H2.
    rewrite H1, H2, (bool_decide_eq_true_2 _ Hne). reflexivity. }
  split; [exact veto|].
  intros D. apply veto; by_evaluation.
Qed.

Lemma key_term_veto_witness :
  (key_terms_of (U := Latin1) (u "que es el ECV") ≠ ∅
   /\ key_terms_of (U := Latin1) (u "que es el EPH") ≠ ∅
   /\ key_terms_of (U := Latin1) (u "que es el ECV")
      ≠ key_terms_of (U := Latin1) (u "que es el EPH"))
  /\ calculate_similarity (U := Latin1) (D := difflib_reference)
       (u "que es el ECV") (u "que es el EPH") = 0%float.
Proof.
  split; [split; [|split]; by_evaluation|].
  apply (proj1 key_term_veto Latin1 difflib_reference); by_evaluation.
Defined.

(** C2, as the code has it.  When the key terms of the two texts are
    equal and both texts have content words, [_calculate_similarity] is
    the weighted sum, clipped at [1.0], of the content-word overlap
    [len(A & B) / max(len(A), len(B))] (weight 0.5), the sequence ratio
    (weight 0.2) and a bonus of 0.3 when the common key-term set is not
    empty. *)
Theorem similarity_combination {U : Unicode} {D : Difflib} (text1 text2 : str) :
  key_terms_of text1 = key_terms_of text2 ->
  content_words_of text1 ≠ ∅ ->
  content_words_of text2 ≠ ∅ ->
  calculate_similarity text1 text2
  = combined_score
      (word_overlap (content_words_of text1) (content_words_of text2))
      (SequenceMatcher_ratio (normalize_text text1) (normalize_text text2))
      (bool_decide (key_terms_of text1 ≠ ∅)).
Proof.
  intros Hk H1 H2. rewrite calculate_similarity_unfold. cbv zeta.
  apply truthy_spec in H1. apply truthy_spec in H2.
  rewrite H1, H2, <- Hk.
  rewrite (bool_decide_eq_false_2 (key_terms_of text1 ≠ key_terms_of text1))
    by (intros H; apply H; reflexivity).
  rewrite (bool_decide_eq_true_2 (key_terms_of text1 = key_terms_of text1))
    by reflexivity.
  rewrite !andb_false_r, andb_true_r. reflexivity.
Qed.

Lemma similarity_combination_witness :
  (key_terms_of (U := Latin1) (u "que es el IPC")
   = key_terms_of (U := Latin1) (u "explicame el IPC")
   /\ content_words_of (U := Latin1) (u "que es el IPC") ≠ ∅
   /\ content_words_of (U := Latin1) (u "explicame el IPC") ≠ ∅)
  /\ calculate_similarity (U := Latin1) (D := difflib_reference)
       (u "que es el IPC") (u "explicame el IPC")
     = 0.67413793103448283%float.
Proof.
  split; [split; [|split]; by_evaluation|].
  rewrite (similarity_combination (u "que es el IPC") (u "explicame el IPC"))
    by by_evaluation.
  vm_compute. reflexivity.
Defined.

(** C2, as the specification words it, fails: with the Jaccard index
    [len(A & B) / len(A | B)] in place of the overlap quotient, the
    formula gives 0.3 for "consumo nafta" and "consumo gasoil" (one common
    content word out of three), where the code returns 0.3833. *)
Lemma similarity_is_not_jaccard :
  (key_terms_of (U := Latin1) (u "consumo nafta")
   = key_terms_of (U := Latin1) (u "consumo gasoil")
   /\ content_words_of (U := Latin1) (u "consumo nafta") ≠ ∅
   /\ content_words_of (U := Latin1) (u "consumo gasoil") ≠ ∅)
  /\ calculate_similarity (U := Latin1) (D := difflib_reference)
       (u "consumo nafta") (u "consumo gasoil")
     = 0.3833333333333333%float
  /\ combined_score
       (jaccard (content_words_of (U := Latin1) (u "consumo nafta"))
                (content_words_of (U := Latin1) (u "consumo gasoil")))
       (SequenceMatcher_ratio (D := difflib_reference)
          (normalize_text (U := Latin1) (u "consumo nafta"))
          (normalize_text (U := Latin1) (u "consumo gasoil")))
       (bool_decide (key_terms_of (U := Latin1) (u "consumo nafta") ≠ ∅))
     = 0.29999999999999999%float
  /\ PrimFloat.eqb 0.3833333333333333%float 0.29999999999999999%float = false.
Proof.
  split; [split; [|split]; by_evaluation|].
  split; [|split]; vm_compute; reflexivity.
Qed.

(** C3 fails on the code.  [_normalize_text] strips the ends before it
    removes punctuation, so a space that precedes a trailing punctuation
    mark survives: "hola !" becomes "hola " (with the space), and
    normalizing that once more gives "hola".  The example of the claim
    itself holds: "¿Qué es el IPC?" and "que es el ipc" both normalize to
    "que es el ipc". *)
Theorem normalize_text_not_idempotent :
  normalize_text (U := Latin1) (u "hola !") = u "hola "
  /\ normalize_text (U := Latin1)
       (normalize_text (U := Latin1) (u "hola !")) = u "hola"
  /\ normalize_text (U := Latin1) (u "¿Qué es el IPC?") = u "que es el ipc"
  /\ normalize_text (U := Latin1) (u "que es el ipc") = u "que es el ipc".
Proof. split; [|split; [|split]]; vm_compute; reflexivity. Qed.

(** C10.  [_calculate_similarity] returns a value of the closed interval
    [0, 1], for any two texts on which [SequenceMatcher] reports no more
    matched characters than the two normalized texts hold together
    ([2 * M <= T], as its non-overlapping matching blocks ensure). *)
Theorem similarity_bounded {U : Unicode} {D : Difflib} (text1 text2 : str) :
  (2 * matching_size (normalize_text text1) (normalize_text text2)
   <= length (normalize_text text1) + length (normalize_text text2))%nat ->
  in_unit_interval (calculate_similarity text1 text2).
Proof.
  intros HM. rewrite calculate_similarity_unfold. cbv zeta.
  pose proof (normalize_text_length text1) as L1.
  pose proof (normalize_text_length text2) as L2.
  assert (HT : (length (normalize_text text1) + length (normalize_text text2)
                <= 1000)%nat) by lia.
  destruct (ratio_cases _ _ HT HM) as [Hhalf Hfifth].
  fold (SequenceMatcher_ratio (normalize_text text1) (normalize_text text2))
    in Hhalf, Hfifth.
  destruct (truthy (key_terms_of text1) && truthy (key_terms_of text2)
            && bool_decide (key_terms_of text1 ≠ key_terms_of text2)).
  { split; reflexivity. }
  destruct ((truthy (key_terms_of text1) || truthy (key_terms_of text2))
            && bool_decide (key_terms_of text1 ≠ key_terms_of text2)).
  { split; reflexivity. }
  destruct (truthy (content_words_of text1)) eqn:C1;
    [|exact Hhalf].
  destruct (truthy (content_words_of text2)) eqn:C2;
    [|exact Hhalf].
  cbn [negb orb]. unfold combined_score. apply py_min_unit.
  apply add_nonneg; [apply add_nonneg|].
  - apply word_overlap_nonneg; apply truthy_spec; assumption.
  - exact Hfifth.
  - destruct (truthy (key_terms_of text1)
              && bool_decide (key_terms_of text1 = key_terms_of text2));
      reflexivity.
Qed.

Lemma similarity_bounded_witness :
  (2 * matching_size (Difflib := difflib_reference)
         (normalize_text (U := Latin1) (u "que es el IPC"))
         (normalize_text (U := Latin1) (u "explicame el IPC"))
   <= length (normalize_text (U := Latin1) (u "que es el IPC"))
      + length (normalize_text (U := Latin1) (u "explicame el IPC")))%nat
  /\ in_unit_interval
       (calculate_similarity (U := Latin1) (D := difflib_reference)
          (u "que es el IPC") (u "explicame el IPC")).
Proof.
  assert (H : (2 * matching_size (Difflib := difflib_reference)
         (normalize_text (U := Latin1) (u "que es el IPC"))
         (normalize_text (U := Latin1) (u "explicame el IPC"))
   <= length (normalize_text (U := Latin1) (u "que es el IPC"))
      + length (normalize_text (U := Latin1) (u "explicame el IPC")))%nat)
    by by_evaluation.
  split; [exact H|].
  exact (similarity_bounded (u "que es el IPC") (u "explicame el IPC") H).
Defined.

(* ===================================================================== *)
(** * menu_tree.py: rendering and numeric selection *)
(* ===================================================================== *)

Lemma DEFAULT_MENU_nonempty : DEFAULT_MENU ≠ [].
Proof. discriminate. Qed.

Lemma NO_OPTIONS_nonempty : NO_OPTIONS ≠ [].
Proof. discriminate. Qed.

Lemma str_eqb_true a b : str_eqb a b = true <-> a = b.
Proof. unfold str_eqb. apply bool_decide_eq_true. Qed.

Lemma str_eqb_false a b : str_eqb a b = false <-> a ≠ b.
Proof. unfold str_eqb. apply bool_decide_eq_false. Qed.

Lemma unique_from_subset seen cs x : x ∈ unique_from seen cs -> x ∈ cs.
Proof.
  revert seen. induction cs as [|c cs IH]; intros seen; cbn [unique_from].
  - intros H. exact H.
  - destruct (bool_decide (c ∈ seen)).
    + intros H. right. exact (IH _ H).
    + intros H. apply elem_of_cons in H. destruct H as [->|H].
      * left.
      * right. exact (IH _ H).
Qed.

Lemma valid_children_none (t : MenuTree) (l : list (list N)) :
  (forall c, c ∈ l -> get_node t c = None) -> valid_children_of t l = [].
Proof.
  unfold valid_children_of. induction l as [|c l IH]; intros Hnone.
  - reflexivity.
  - rewrite filter_cons. destruct (decide (is_Some (get_node t c))) as [Hs|_].
    + rewrite (Hnone c) in Hs by left. destruct Hs as [? Hs]. discriminate Hs.
    + apply IH. intros c' Hc'. apply Hnone. right. exact Hc'.
Qed.

Section MenuTreeFacts.
Context {U : Unicode}.

Lemma format_menu_body_nonempty (t : MenuTree) (node_id : option (list N)) text :
  format_menu_body t node_id = inr text -> text ≠ [].
Proof.
  unfold format_menu_body.
  set (asked := match node_id with Some n => Some n | None => root_node_id t end).
  set (nid := match asked with
              | Some n => if str_eqb n [] then u "root" else n
              | None => u "root"
              end).
  assert (Hfinal : forall menu_text,
             (if str_eqb (strip menu_text) []
              then inr DEFAULT_MENU else inr (strip menu_text))
             = (inr text : exn + list N) -> text ≠ []).
  { intros menu_text. destruct (str_eqb (strip menu_text) []) eqn:E; intros [= <-].
    - exact DEFAULT_MENU_nonempty.
    - apply str_eqb_false, E. }
  assert (Hnode : forall node : MenuNode,
    match
      match children node with
      | _ :: _ =>
          match valid_children_of t (unique_from [] (children node)) with
          | [] => inl (inr NO_OPTIONS)
          | _ =>
              match menu_entries t 1
                      (valid_children_of t (unique_from [] (children node))) [] with
              | inl e => inl (inl e)
              | inr menu_text => inr menu_text
              end
          end
      | [] =>
          if str_eqb (action node) (u "info") then inr (get_info_content nid)
          else if str_eqb (action node) (u "query")
               then inr (u "🔍 Buscando información sobre: " ++ title node)
               else inr []
      end
    with
    | inl (inl e) => inl e
    | inl (inr early) => inr early
    | inr menu_text =>
        if str_eqb (strip menu_text) []
        then inr DEFAULT_MENU else inr (strip menu_text)
    end = (inr text : exn + list N) -> text ≠ []).
  { intros node. destruct (children node) as [|c cs].
    - destruct (str_eqb (action node) (u "info")); [apply Hfinal|].
      destruct (str_eqb (action node) (u "query")); apply Hfinal.
    - destruct (valid_children_of t (unique_from [] (c :: cs))) as [|v vs].
      + intros [= <-]. exact NO_OPTIONS_nonempty.
      + destruct (menu_entries t 1 (v :: vs) []) as [e|menu_text];
          [discriminate|apply Hfinal]. }
  destruct (get_node t nid) as [node|].
  - apply Hnode.
  - destruct (nodes t) as [|[first_node_id first_node] rest].
    + intros [= <-]. exact DEFAULT_MENU_nonempty.
    + destruct (get_node t first_node_id) as [node|].
      * apply Hnode.
      * intros [= <-]. exact DEFAULT_MENU_nonempty.
Qed.

(** C4.  For every tree and every [node_id] argument, [format_menu]
    returns a non-empty string: an exception raised while rendering is
    answered with the default menu, so is an empty node map, and a node
    whose children all dangle is answered with the no-options notice. *)
Theorem format_menu_never_empty (t : MenuTree) (node_id : option (list N)) :
  format_menu t node_id ≠ []
  /\ (forall e, format_menu_body t node_id = inl e ->
                format_menu t node_id = DEFAULT_MENU)
  /\ (nodes t = [] -> format_menu t node_id = DEFAULT_MENU)
  /\ (forall nid node,
        node_id = Some nid -> nid ≠ [] -> get_node t nid = Some node ->
        children node ≠ [] ->
        (forall c, c ∈ children node -> get_node t c = None) ->
        format_menu t node_id = NO_OPTIONS).
Proof.
  split; [|split; [|split]].
  - unfold format_menu.
    destruct (format_menu_body t node_id) as [e|text] eqn:E.
    + exact DEFAULT_MENU_nonempty.
    + exact (format_menu_body_nonempty t node_id text E).
  - intros e E. unfold format_menu. rewrite E. reflexivity.
  - intros Hempty. unfold format_menu, format_menu_body, get_node.
    rewrite Hempty. reflexivity.
  - intros nid node -> Hnid Hnode Hchildren Hdangling.
    unfold format_menu, format_menu_body.
    apply str_eqb_false in Hnid. rewrite Hnid, Hnode.
    destruct (children node) as [|c cs] eqn:E; [congruence|].
    rewrite valid_children_none; [reflexivity|].
    intros c' Hc'. apply Hdangling. exact (unique_from_subset _ _ _ Hc').
Qed.
End MenuTreeFacts.

(** C5, as the code has it.  [get_child_by_number(node_id, n)] returns a
    node exactly when the parent exists, [1 <= n <= len(children)] and the
    id at position [n - 1] of [children] resolves; the node returned is
    the one that id names.  It is [None] for a missing parent and for [n]
    out of range. *)
Theorem get_child_by_number_spec (t : MenuTree) (node_id : list N) (number : Z) :
  (forall child,
      get_child_by_number t node_id number = Some child <->
      exists node child_id,
        get_node t node_id = Some node
        /\ (1 <= number <= Z.of_nat (length (children node)))%Z
        /\ children node !! Z.to_nat (number - 1) = Some child_id
        /\ get_node t child_id = Some child)
  /\ (get_node t node_id = None -> get_child_by_number t node_id number = None)
  /\ (forall node,
        get_node t node_id = Some node ->
        ~ (1 <= number <= Z.of_nat (length (children node)))%Z ->
        get_child_by_number t node_id number = None).
Proof.
  unfold get_child_by_number. split; [|split].
  - intros child. destruct (get_node t node_id) as [node|].
    + destruct (children node) as [|c cs] eqn:E.
      * split; [discriminate|].
        intros (node' & child_id & [= <-] & Hrange & Hlook & _).
        rewrite E in Hlook. rewrite lookup_nil in Hlook. discriminate.
      * rewrite <- E.
        destruct ((1 <=? number)%Z && (number <=? Z.of_nat (length (children node)))%Z)
          eqn:Hb.
        -- apply andb_prop in Hb. destruct Hb as [H1 H2].
           apply Z.leb_le in H1, H2.
           destruct (children node !! Z.to_nat (number - 1)) as [child_id|] eqn:Hl;
             cbn [mbind option_bind]; split.
           ++ intros Hc. exists node, child_id. auto.
           ++ intros (node' & child_id' & [= <-] & _ & Hlook & Hc).
              rewrite Hl in Hlook. injection Hlook as <-. exact Hc.
           ++ discriminate.
           ++ intros (node' & child_id' & [= <-] & _ & Hlook & _).
              rewrite Hl in Hlook. discriminate.
        -- split; [discriminate|].
           intros (node' & child_id & [= <-] & [H1 H2] & _).
           apply Z.leb_le in H1, H2. rewrite H1, H2 in Hb. discriminate.
    + split; [discriminate|]. intros (node & child_id & Hn & _). discriminate.
  - intros ->. reflexivity.
  - intros node -> Hout. destruct (children node) as [|c cs]; [reflexivity|].
    destruct (Z.leb_spec 1 number), (Z.leb_spec number (Z.of_nat (length (c :: cs))));
      cbn [andb]; try reflexivity.
    exfalso. apply Hout. split; assumption.
Qed.

(** C5, as the specification words it, fails: the root of [dangling_tree]
    has one child and [n = 1] is in range, yet the result is [None],
    because the child id names no node. *)
Lemma in_range_number_without_node :
  (exists node,
      get_node dangling_tree (u "root") = Some node
      /\ length (children node) = 1%nat)
  /\ get_child_by_number dangling_tree (u "root") 1 = None.
Proof.
  split; [|reflexivity].
  eexists. split; reflexivity.
Qed.

(** An exception inside the rendering is reachable: a child whose stored
    description is a number makes [.lower()] fail, and the caller still
    receives the default menu. *)
Example format_menu_catches :
  let broken :=
    {| nodes :=
         [example_node (u "root") (u "Menú Principal") (u "menu") [u "a"];
          (u "a", {| id := u "a"; title := u "A"; description := PInt 7;
                     action := u "tool"; children := []; keywords := [];
                     db_query := None; tool := None |})];
       root_node_id := Some (u "root") |} in
  format_menu_body (U := Latin1) broken None = inl AttributeError
  /\ format_menu (U := Latin1) broken None = DEFAULT_MENU.
Proof. split; vm_compute; reflexivity. Qed.

(* ===================================================================== *)
(** * keyword_detector.py: numeric selection *)
(* ===================================================================== *)

(** C9, as the code has it.  [detect_intent] takes no current node: a text
    that [int()] reads as [n] is resolved against the children of the
    ROOT node (1-indexed), and when [n] is in range and the id found
    there names a node, the intent returned has type "menu" or "query"
    according to that node's action, the node's id, and confidence 1.0. *)
Theorem number_selection_against_root {U : Unicode}
    (detect_text_intent : MenuTree -> list N -> Intent)
    (menu_tree : MenuTree) (text : list N) (n : Z)
    (root child_node : MenuNode) (child_id : list N) :
  int_of_str (strip (str_lower text)) = Some n ->
  get_root menu_tree = Some root ->
  (1 <= n <= Z.of_nat (length (children root)))%Z ->
  children root !! Z.to_nat (n - 1) = Some child_id ->
  get_node menu_tree child_id = Some child_node ->
  detect_intent detect_text_intent menu_tree text = selection_intent child_node
  /\ confidence (detect_intent detect_text_intent menu_tree text) = 1.0%float
  /\ (intent_type (detect_intent detect_text_intent menu_tree text) = u "menu"
      <-> action child_node = u "menu")
  /\ (intent_type (detect_intent detect_text_intent menu_tree text) = u "query"
      <-> action child_node ≠ u "menu").
Proof.
  intros Hint Hroot [H1 H2] Hlook Hchild.
  assert (E : detect_intent detect_text_intent menu_tree text
              = selection_intent child_node).
  { unfold detect_intent, number_selection. rewrite Hint, Hroot.
    destruct (children root) as [|c cs] eqn:Ec.
    { rewrite lookup_nil in Hlook. discriminate. }
    apply Z.leb_le in H1, H2. rewrite H1, H2. cbn [andb].
    rewrite Hlook, Hchild. reflexivity. }
  rewrite E. unfold selection_intent. cbn [confidence intent_type].
  split; [reflexivity|split; [reflexivity|]].
  destruct (str_eqb (action child_node) (u "menu")) eqn:Ea.
  - apply str_eqb_true in Ea. split; split; intros H; try reflexivity;
      try exact Ea; try (exfalso; apply H; exact Ea).
    discriminate H.
  - apply str_eqb_false in Ea. split; split; intros H; try reflexivity;
      try exact Ea; try (exfalso; apply Ea; exact H).
    discriminate H.
Qed.

Lemma number_selection_against_root_witness :
  detect_intent (U := Latin1) open_intent two_level_tree (u "2")
  = {| intent_type := u "query"; intent_node_id := Some (u "dolar");
       intent_keywords := [u "number_selection"]; intent_db_query := None;
       confidence := 1.0%float |}.
Proof.
  refine (proj1 (number_selection_against_root (U := Latin1) open_intent
                   two_level_tree (u "2") 2
                   (snd (example_node (u "root") (u "Menú Principal") (u "menu")
                                      [u "economico"; u "dolar"]))
                   (snd (example_node (u "dolar") (u "Dólar") (u "tool") []))
                   (u "dolar") _ _ _ _ _)).
  - vm_compute. reflexivity.
  - vm_compute. reflexivity.
  - vm_compute. split; discriminate.
  - vm_compute. reflexivity.
  - vm_compute. reflexivity.
Defined.

(** C9, as the specification words it, fails.  With [economico] as the
    current node, "2" would have to select its second child [empleo];
    [detect_intent] cannot be told the current node and selects the second
    child of the root, [dolar], whatever the text branch would do. *)
Lemma number_selection_ignores_current_node :
  (exists current,
      get_node two_level_tree (u "economico") = Some current
      /\ children current !! 1%nat = Some (u "empleo"))
  /\ int_of_str (Unicode := Latin1) (strip (U := Latin1) (str_lower (Unicode := Latin1) (u "2")))
     = Some 2%Z
  /\ (forall detect_text_intent,
        intent_node_id (detect_intent (U := Latin1) detect_text_intent
                                      two_level_tree (u "2"))
        = Some (u "dolar"))
  /\ u "dolar" ≠ u "empleo".
Proof.
  split; [eexists; split; reflexivity|].
  split; [vm_compute; reflexivity|].
  split; [intros rest; vm_compute; reflexivity|].
  vm_compute. discriminate.
Qed.

(* ===================================================================== *)
(** * query_router.py: tool detection *)
(* ===================================================================== *)

Lemma TOOL_MAPPINGS_names_unique : NoDup (map fst TOOL_MAPPINGS).
Proof. by_evaluation. Qed.

Lemma elem_of_map_fst {A B} (l : list (A * B)) a b :
  (a, b) ∈ l -> a ∈ map fst l.
Proof.
  induction l as [|[a' b'] l IH]; intros H.
  - inversion H.
  - apply elem_of_cons in H. destruct H as [[= -> ->]|H].
    + left.
    + right. exact (IH H).
Qed.

Section DetectToolFacts.
Context {U : Unicode}.

Lemma word_search_from_contains before s kw :
  word_search_from before s kw = true -> contains s kw = true.
Proof.
  revert before. induction s as [|c r IH]; intros before;
    cbn [word_search_from contains]; unfold word_match_here.
  - destruct (startswith [] kw); [reflexivity|]. cbn. discriminate.
  - destruct (startswith (c :: r) kw); [reflexivity|]. cbn [andb orb].
    intros H. exact (IH _ H).
Qed.

Lemma keyword_score_zero query_lower keyword :
  contains query_lower keyword = false -> keyword_score query_lower keyword = 0%nat.
Proof. unfold keyword_score. intros ->. reflexivity. Qed.

Lemma keyword_score_whole_word query_lower keyword :
  word_search query_lower keyword = true ->
  keyword_score query_lower keyword = 10%nat.
Proof.
  intros H. unfold keyword_score.
  rewrite (word_search_from_contains None query_lower keyword H).
  unfold word_search in H. unfold word_search. rewrite H. reflexivity.
Qed.

Lemma fold_score_from query_lower keywords start :
  fold_left (fun score keyword => (score + keyword_score query_lower keyword)%nat)
            keywords start
  = (start + fold_left (fun score keyword =>
                          (score + keyword_score query_lower keyword)%nat)
                       keywords 0)%nat.
Proof.
  revert start. induction keywords as [|k ks IH]; intros start; cbn [fold_left].
  - lia.
  - rewrite (IH (start + _)%nat), (IH (0 + _)%nat). lia.
Qed.

Lemma tool_score_zero query_lower config :
  (forall keyword, keyword ∈ cfg_keywords config ->
                   contains query_lower keyword = false) ->
  tool_score query_lower config = 0%nat.
Proof.
  unfold tool_score. induction (cfg_keywords config) as [|k ks IH]; intros H.
  - reflexivity.
  - cbn [fold_left]. rewrite fold_score_from, IH.
    + rewrite keyword_score_zero; [reflexivity|]. apply H. left.
    + intros k' Hk'. apply H. right. exact Hk'.
Qed.

Lemma tool_score_whole_word query_lower config keyword :
  keyword ∈ cfg_keywords config ->
  word_search query_lower keyword = true ->
  (10 <= tool_score query_lower config)%nat.
Proof.
  unfold tool_score. induction (cfg_keywords config) as [|k ks IH]; intros Hin Hw.
  - inversion Hin.
  - cbn [fold_left]. rewrite fold_score_from.
    apply elem_of_cons in Hin. destruct Hin as [<-|Hin].
    + rewrite (keyword_score_whole_word _ _ Hw). lia.
    + specialize (IH Hin Hw). lia.
Qed.

(** Tools that score nothing leave the best candidate as it is. *)
Lemma best_tool_from_silent query_lower tools best_tool best_score :
  (forall tool_name config, (tool_name, config) ∈ tools ->
                            tool_score query_lower config = 0%nat) ->
  best_tool_from query_lower tools best_tool best_score = (best_tool, best_score).
Proof.
  revert best_tool best_score.
  induction tools as [|[tool_name config] rest IH]; intros best_tool best_score H;
    cbn [best_tool_from].
  - reflexivity.
  - rewrite (H tool_name config) by left.
    destruct (Nat.ltb_spec best_score 0); [lia|].
    apply IH. intros n c Hin. apply (H n c). right. exact Hin.
Qed.

(** A single scoring tool wins, wherever it stands in the table. *)
Lemma best_tool_from_single query_lower tools tool_name config best_tool :
  NoDup (map fst tools) ->
  (tool_name, config) ∈ tools ->
  (0 < tool_score query_lower config)%nat ->
  (forall other config', (other, config') ∈ tools -> other ≠ tool_name ->
                         tool_score query_lower config' = 0%nat) ->
  best_tool_from query_lower tools best_tool 0
  = (Some tool_name, tool_score query_lower config).
Proof.
  revert best_tool.
  induction tools as [|[name c] rest IH]; intros best_tool Hnodup Hin Hpos Hothers.
  - inversion Hin.
  - cbn [best_tool_from]. cbn [map fst] in Hnodup.
    apply NoDup_cons in Hnodup. destruct Hnodup as [Hfresh Hnodup].
    apply elem_of_cons in Hin. destruct Hin as [[= <- <-]|Hin].
    + destruct (Nat.ltb_spec 0 (tool_score query_lower config)); [|lia].
      apply best_tool_from_silent. intros n c' Hn.
      apply (Hothers n c'); [right; exact Hn|].
      intros ->. apply Hfresh. exact (elem_of_map_fst _ _ _ Hn).
    + assert (Hne : name ≠ tool_name).
      { intros ->. apply Hfresh. exact (elem_of_map_fst _ _ _ Hin). }
      rewrite (Hothers name c) by (left || exact Hne).
      destruct (Nat.ltb_spec 0 0); [lia|].
      apply IH; try assumption.
      intros n c' Hn. apply Hothers. right. exact Hn.
Qed.

(** C8.  A query whose lower-cased text contains no keyword of any tool
    is answered [None]; a query with a whole-word occurrence of a
    keyword of one tool, and no keyword of any other tool, is answered
    with that tool's name. *)
Theorem detect_tool_threshold (query : list N) :
  ((forall tool_name config keyword,
       (tool_name, config) ∈ TOOL_MAPPINGS ->
       keyword ∈ cfg_keywords config ->
       contains (str_lower query) keyword = false) ->
   detect_tool query = None)
  /\ (forall tool_name config keyword,
        (tool_name, config) ∈ TOOL_MAPPINGS ->
        keyword ∈ cfg_keywords config ->
        word_search (str_lower query) keyword = true ->
        (forall other config' keyword',
            (other, config') ∈ TOOL_MAPPINGS -> other ≠ tool_name ->
            keyword' ∈ cfg_keywords config' ->
            contains (str_lower query) keyword' = false) ->
        detect_tool query = Some tool_name).
Proof.
  split.
  - intros Hnone. unfold detect_tool.
    rewrite best_tool_from_silent; [reflexivity|].
    intros n c Hin. apply tool_score_zero. intros k Hk. exact (Hnone n c k Hin Hk).
  - intros tool_name config keyword Hin Hk Hword Hothers. unfold detect_tool.
    pose proof (tool_score_whole_word _ _ _ Hk Hword) as Hscore.
    rewrite (best_tool_from_single _ _ tool_name config None
               TOOL_MAPPINGS_names_unique Hin); [|lia|].
    + destruct (Nat.leb_spec 5 (tool_score (str_lower query) config));
        [reflexivity|lia].
    + intros other c' Hin' Hne. apply tool_score_zero.
      intros k' Hk'. exact (Hothers other c' k' Hin' Hne Hk').
Qed.
End DetectToolFacts.

Lemma silent_elsewhere_spec query_lower tool_name :
  silent_elsewhere query_lower tool_name = true ->
  forall other config keyword,
    (other, config) ∈ TOOL_MAPPINGS -> other ≠ tool_name ->
    keyword ∈ cfg_keywords config ->
    contains query_lower keyword = false.
Proof.
  unfold silent_elsewhere. rewrite forallb_forall.
  intros H other config keyword Hin Hne Hk.
  apply list_elem_of_In in Hin. specialize (H _ Hin). cbn [fst snd] in H.
  apply orb_prop in H. destruct H as [H|H].
  - apply str_eqb_true in H. contradiction.
  - rewrite forallb_forall in H. apply list_elem_of_In in Hk.
    specialize (H _ Hk). apply negb_true_iff in H. exact H.
Qed.

Lemma detect_tool_threshold_witness :
  detect_tool (U := Latin1) (u "que hora es") = None
  /\ detect_tool (U := Latin1) (u "IPC de octubre") = Some (u "get_ipc").
Proof.
  split.
  - apply (proj1 (detect_tool_threshold (U := Latin1) (u "que hora es"))).
    intros tool_name config keyword Hin Hk.
    destruct (decide (tool_name = [])) as [->|Hne].
    + apply elem_of_map_fst in Hin. exfalso. revert Hin. by_evaluation.
    + assert (Hs : silent_elsewhere
                     (str_lower (Unicode := Latin1) (u "que hora es")) [] = true)
        by (vm_compute; reflexivity).
      exact (silent_elsewhere_spec _ [] Hs tool_name config keyword Hin Hne Hk).
  - apply (proj2 (detect_tool_threshold (U := Latin1) (u "IPC de octubre"))
             (u "get_ipc") (tool_config (u "get_ipc")) (u "ipc")).
    + apply (list_elem_of_lookup_2 _ 2%nat). vm_compute. reflexivity.
    + by_evaluation.
    + vm_compute. reflexivity.
    + apply silent_elsewhere_spec. vm_compute. reflexivity.
Defined.

(* ===================================================================== *)
(** * query_router.py: routing *)
(* ===================================================================== *)



Section RoutingFacts.
Context {U : Unicode} {R : Regex} {HS : HashSeed}.
Context {W : Type} {TE : ToolExecutor W}.

(** ** [extract_locations] never repeats a place *)

Lemma found_from_NoDup query_lower names found :
  NoDup found -> NoDup (found_from query_lower names found).
Proof.
  revert found. induction names as [|location rest IH]; intros found Hnd;
    cbn [found_from]; [exact Hnd|].
  destruct (contains query_lower location); [|apply IH, Hnd].
  destruct (bool_decide (_ ∈ found)) eqn:E; [apply IH, Hnd|].
  apply IH. apply bool_decide_eq_false in E.
  apply NoDup_app. split; [exact Hnd|]. split.
  - intros x Hx Hx'. apply list_elem_of_singleton in Hx'. subst x. exact (E Hx).
  - apply NoDup_singleton.
Qed.

Lemma extract_locations_NoDup query : NoDup (extract_locations query).
Proof. apply found_from_NoDup, NoDup_nil_2. Qed.

(** ** [_format_comparison] frames what it merges *)







(** ** The calls of the comparison loop *)

Lemma fan_out_log w tool_name name params locations results log :
  let '(results', log', w') :=
    fan_out w tool_name name params locations results log in
  exists calls,
    log' = log ++ calls
    /\ results' = results ++ filter (fun r => Is_true (survives r))
                                    (map call_result calls)
    /\ map call_tool calls = map (fun _ => tool_name) locations
    /\ map call_args calls
       = map (fun location => params ∪ {[ name := location ]}) locations.
Proof.
  revert w results log.
  induction locations as [|location rest IH]; intros w results log;
    cbn [fan_out].
  - exists []. cbn. rewrite !app_nil_r. auto.
  - destruct (execute w tool_name (params ∪ {[name := location]}))
      as [result w1] eqn:Ex.
    specialize (IH w1 (if survives result then results ++ [result] else results)
                   (log ++ [{| call_tool := tool_name;
                               call_args := params ∪ {[name := location]};
                               call_result := result |}])).
    destruct (fan_out w1 tool_name name params rest _ _) as [[results' log'] w'].
    destruct IH as (calls & -> & -> & Ht & Ha).
    exists ({| call_tool := tool_name;
               call_args := params ∪ {[name := location]};
               call_result := result |} :: calls).
    rewrite <- app_assoc. split; [reflexivity|].
    cbn [map call_result call_tool call_args]. rewrite Ht, Ha.
    split; [|auto].
    rewrite filter_cons. destruct (survives result) eqn:Es.
    + rewrite decide_True by exact I. rewrite <- app_assoc. reflexivity.
    + rewrite decide_False by (intros []). reflexivity.
Qed.
End RoutingFacts.

Section RoutingClaims.
Context {U : Unicode} {R : Regex} {HS : HashSeed}.
Context {W : Type} {TE : ToolExecutor W}.




End RoutingClaims.





(* ===================================================================== *)
(** * More about learning_memory.py *)
(* ===================================================================== *)

Lemma SFltb_zero_positive x :
  SFltb (S754_zero false) x = true <-> sf_positive x.
Proof.
  destruct x as [s|s| |s m e]; unfold SFltb; simpl; try destruct s; simpl.
  all: split; try discriminate; try tauto; try reflexivity.
Qed.

Lemma ltb_zero_positive (x : float) :
  PrimFloat.ltb 0%float x = true <-> sf_positive (Prim2SF x).
Proof. rewrite FloatAxioms.ltb_spec. exact (SFltb_zero_positive (Prim2SF x)). Qed.

Lemma SFltb_positive_trans x y :
  sf_positive x -> SFltb x y = true -> sf_positive y.
Proof.
  unfold SFltb, SFcompare, sf_positive.
  destruct x as [sx|sx| |sx mx ex]; try tauto; intros ->;
    destruct y as [sy|sy| |sy my ey]; try destruct sy;
    try discriminate; try reflexivity.
Qed.

Lemma ltb_positive_trans (x y : float) :
  PrimFloat.ltb 0%float x = true -> PrimFloat.ltb x y = true ->
  PrimFloat.ltb 0%float y = true.
Proof.
  rewrite !ltb_zero_positive, (FloatAxioms.ltb_spec x y).
  apply SFltb_positive_trans.
Qed.

Lemma join_nonempty (sep : list N) (words : list (list N)) w :
  w ∈ words -> w ≠ [] -> join sep words ≠ [].
Proof.
  induction words as [|x words IH]; intros Hin Hw; [inversion Hin|].
  cbn [join]. destruct words as [|y words].
  - apply list_elem_of_singleton in Hin. subst. exact Hw.
  - apply elem_of_cons in Hin. destruct Hin as [->|Hin].
    + destruct x; [contradiction|discriminate].
    + specialize (IH Hin Hw). intros E.
      apply app_eq_nil in E. destruct E as [_ E].
      apply app_eq_nil in E. destruct E as [_ E]. exact (IH E).
Qed.

Lemma filter_all_false {A} (P : A -> Prop) `{forall x, Decision (P x)} (l : list A) :
  (forall x, x ∈ l -> ~ P x) -> filter P l = [].
Proof.
  induction l as [|x l IH]; intros Hall; [reflexivity|].
  rewrite filter_cons. destruct (decide (P x)) as [Hp|_].
  - exfalso. exact (Hall x ltac:(left) Hp).
  - apply IH. intros y Hy. apply Hall. right. exact Hy.
Qed.

Section LearningMemoryMore.
Context {U : Unicode} {D : Difflib}.

(** X1.  [_generate_key] never returns the empty string and never more
    than 100 characters; it is "unknown" when the normalized question has
    no word of more than two characters. *)
Theorem generate_key_shape (question : list N) :
  generate_key question ≠ []
  /\ (length (generate_key question) <= 100)%nat
  /\ ((forall w, w ∈ split_ws (normalize_text question) -> (length w <= 2)%nat)
      -> generate_key question = u "unknown").
Proof.
  unfold generate_key.
  set (long := filter (fun w => (2 < length w)%nat)
                      (split_ws (normalize_text question))).
  assert (Hlong : forall w, w ∈ take 5 long -> (2 < length w)%nat).
  { intros w Hw. apply elem_of_take in Hw. destruct Hw as (i & Hw & _).
    apply list_elem_of_lookup_2 in Hw. apply list_elem_of_filter in Hw.
    exact (proj1 Hw). }
  split; [|split].
  - destruct (take 5 long) as [|w ws] eqn:E; [discriminate|].
    assert (Hj : join (u "_") (w :: ws) ≠ []).
    { apply (join_nonempty _ _ w); [left|].
      specialize (Hlong w ltac:(left)).
      destruct w; [cbn in Hlong; lia|discriminate]. }
    destruct (join (u "_") (w :: ws)); [contradiction|discriminate].
  - destruct (take 5 long); [vm_compute; lia|].
    rewrite length_take. lia.
  - intros Hshort. assert (E : long = []).
    { apply filter_all_false. intros w Hw Hlen. specialize (Hshort w Hw). lia. }
    rewrite E. reflexivity.
Qed.

Lemma score_candidate_invariant question min_similarity acc c :
  scoring_invariant acc ->
  scoring_invariant (score_candidate question min_similarity acc c).
Proof.
  destruct acc as [best bs]. intros [Hnone Hsome]. cbn [fst snd] in *.
  unfold score_candidate.
  destruct (PrimFloat.ltb bs _ && PrimFloat.leb min_similarity _) eqn:E;
    [|split; assumption].
  split; cbn [fst snd]; [discriminate|].
  intros i e s [= <- <- <-]. split; [reflexivity|].
  apply andb_prop in E. destruct E as [E _].
  destruct best as [[[i' e'] s']|].
  - destruct (Hsome i' e' s' eq_refl) as [-> Hpos].
    exact (ltb_positive_trans _ _ Hpos E).
  - rewrite (Hnone eq_refl) in E. exact E.
Qed.

Lemma score_candidates_invariant question min_similarity candidates acc :
  scoring_invariant acc ->
  scoring_invariant (fold_left (score_candidate question min_similarity)
                               candidates acc).
Proof.
  revert acc. induction candidates as [|c cs IH]; intros acc H; cbn [fold_left].
  - exact H.
  - apply IH, score_candidate_invariant, H.
Qed.

Lemma scoring_invariant_start : scoring_invariant (None, 0%float).
Proof. split; cbn [fst snd]; [reflexivity|discriminate]. Qed.

Lemma score_candidates_found question min_similarity candidates best bs :
  forall i e s,
    fst (fold_left (score_candidate question min_similarity) candidates (best, bs))
    = Some (i, e, s) ->
    best = Some (i, e, s)
    \/ (e ∈ candidates /\ i = entry_id e
        /\ s = calculate_similarity question (entry_question e)
        /\ PrimFloat.leb min_similarity s = true).
Proof.
  revert best bs. induction candidates as [|c cs IH]; intros best bs i e s;
    cbn [fold_left fst].
  - intros ->. left. reflexivity.
  - unfold score_candidate at 2.
    destruct (PrimFloat.ltb bs _ && PrimFloat.leb min_similarity _) eqn:E;
      intros H; apply IH in H; destruct H as [H|(Hin & Hi & Hs & Hm)].
    + injection H as <- <- <-. right. apply andb_prop in E.
      split; [left|]. split; [reflexivity|]. split; [reflexivity|exact (proj2 E)].
    + right. split; [right; exact Hin|auto].
    + left. exact H.
    + right. split; [right; exact Hin|auto].
Qed.

Lemma score_candidates_none question min_similarity candidates :
  fst (fold_left (score_candidate question min_similarity) candidates
                 (None, 0%float)) = None
  <-> forall e, e ∈ candidates ->
        PrimFloat.ltb 0%float (calculate_similarity question (entry_question e))
        && PrimFloat.leb min_similarity
             (calculate_similarity question (entry_question e)) = false.
Proof.
  induction candidates as [|c cs IH] using rev_ind.
  - cbn. split; [intros _ e He; inversion He|reflexivity].
  - rewrite fold_left_app. cbn [fold_left].
    destruct (fold_left _ cs (None, 0%float)) as [best bs] eqn:Ef.
    pose proof (score_candidates_invariant question min_similarity cs _
                  scoring_invariant_start) as [Hnone _].
    rewrite Ef in Hnone. try rewrite Ef in IH. cbn [fst snd] in Hnone, IH.
    unfold score_candidate.
    destruct (PrimFloat.ltb bs _ && PrimFloat.leb min_similarity _) eqn:E;
      cbn [fst].
    + split; [discriminate|]. intros Hall. exfalso.
      destruct best as [x|].
      * assert (Hcs : forall e, e ∈ cs -> _ = false)
          by (intros e He; apply Hall, elem_of_app; left; exact He).
        apply IH in Hcs. discriminate.
      * rewrite (Hnone eq_refl) in E.
        rewrite (Hall c) in E by (apply elem_of_app; right; left). discriminate.
    + split.
      * intros ->. rewrite (Hnone eq_refl) in E. intros e He.
        apply elem_of_app in He. destruct He as [He|He].
        -- apply (proj1 IH eq_refl e He).
        -- apply list_elem_of_singleton in He. subst e. exact E.
      * intros Hall. apply IH. intros e He. apply Hall, elem_of_app. left. exact He.
Qed.

(** X2.  What the scoring loop of [find_similar] returns is one of the
    candidates, paired with its own id and its own similarity to the
    question; that similarity reaches [min_similarity] and is strictly
    positive.  The loop returns [None] exactly when no candidate has a
    positive similarity that reaches [min_similarity]. *)
Theorem best_candidate_sound (question : list N) (min_similarity : float)
    (candidates : list Entry) :
  (forall i e s,
      best_candidate question min_similarity candidates = Some (i, e, s) ->
      e ∈ candidates /\ i = entry_id e
      /\ s = calculate_similarity question (entry_question e)
      /\ PrimFloat.leb min_similarity s = true
      /\ PrimFloat.ltb 0%float s = true)
  /\ (best_candidate question min_similarity candidates = None
      <-> forall e, e ∈ candidates ->
            PrimFloat.ltb 0%float (calculate_similarity question (entry_question e))
            && PrimFloat.leb min_similarity
                 (calculate_similarity question (entry_question e)) = false).
Proof.
  unfold best_candidate. split; [|apply score_candidates_none].
  intros i e s H.
  pose proof (score_candidates_invariant question min_similarity candidates _
                scoring_invariant_start) as [_ Hpos].
  destruct (Hpos i e s H) as [_ Hs].
  apply score_candidates_found in H. destruct H as [H|(Hin & Hi & He & Hm)];
    [discriminate|auto].
Qed.

(** X3.  A key term on one side only is a weak match: when exactly one of
    the two texts has key terms, [_calculate_similarity] is exactly 0.3,
    whatever else the texts share. *)
Theorem one_sided_key_terms (text1 text2 : list N) :
  (key_terms_of text1 = ∅ /\ key_terms_of text2 ≠ ∅)
  \/ (key_terms_of text1 ≠ ∅ /\ key_terms_of text2 = ∅) ->
  calculate_similarity text1 text2 = 0.3%float.
Proof.
  intros H. rewrite calculate_similarity_unfold. cbv zeta.
  destruct H as [[H1 H2]|[H1 H2]].
  - assert (Hne : key_terms_of text1 ≠ key_terms_of text2) by congruence.
    apply truthy_false in H1. apply truthy_spec in H2.
    rewrite H1, H2, (bool_decide_eq_true_2 _ Hne). reflexivity.
  - assert (Hne : key_terms_of text1 ≠ key_terms_of text2) by congruence.
    apply truthy_spec in H1. apply truthy_false in H2.
    rewrite H1, H2, (bool_decide_eq_true_2 _ Hne). reflexivity.
Qed.
End LearningMemoryMore.

Lemma one_sided_key_terms_witness :
  calculate_similarity (U := Latin1) (D := difflib_reference)
    (u "que es el IPC") (u "que es eso") = 0.3%float.
Proof.
  apply (one_sided_key_terms (U := Latin1) (D := difflib_reference)).
  right. split; by_evaluation.
Defined.

(** ** The shape of a normalized text *)

Lemma replacements_as_map (s : list N) :
  fold_left (fun t '(old, new) => replace_char old new t) replacements s
  = map fold_accent s.
Proof.
  unfold fold_accent, replacements, replace_char. cbn [fold_left].
  rewrite !map_map. reflexivity.
Qed.

Lemma fold_accent_cases (c : N) :
  fold_accent c = c \/ exists old, (old, fold_accent c) ∈ replacements.
Proof.
  unfold fold_accent, replacements. cbn [fold_left].
  destruct (N.eqb_spec c 225) as [->|?]; [right; exists 225; vm_compute; left|].
  destruct (N.eqb_spec c 233) as [->|?];
    [right; exists 233; vm_compute; right; left|].
  destruct (N.eqb_spec c 237) as [->|?];
    [right; exists 237; vm_compute; do 2 right; left|].
  destruct (N.eqb_spec c 243) as [->|?];
    [right; exists 243; vm_compute; do 3 right; left|].
  destruct (N.eqb_spec c 250) as [->|?];
    [right; exists 250; vm_compute; do 4 right; left|].
  destruct (N.eqb_spec c 241) as [->|?];
    [right; exists 241; vm_compute; do 5 right; left|].
  destruct (N.eqb_spec c 252) as [->|?];
    [right; exists 252; vm_compute; do 6 right; left|].
  left. reflexivity.
Qed.

Ltac split_accent c :=
  unfold fold_accent, replacements; cbn [fold_left];
  repeat match goal with
         | |- context [N.eqb c ?k] =>
             destruct (N.eqb_spec c k) as [->|?]; cbv iota
         end.

Lemma fold_accent_no_accent (c old new : N) :
  (old, new) ∈ replacements -> fold_accent c ≠ old.
Proof.
  intros Hin. unfold replacements in Hin.
  repeat (apply elem_of_cons in Hin; destruct Hin as [[= -> ->]|Hin]);
    [..|inversion Hin];
    split_accent c; first [assumption | vm_compute; discriminate].
Qed.

Lemma fold_accent_space (c : N) : (SP =? fold_accent c) = (SP =? c).
Proof. split_accent c; reflexivity. Qed.

Lemma startswith_map_space (f : N -> N) (l : list N) :
  (forall c, (SP =? f c) = (SP =? c)) ->
  startswith (map f l) [SP; SP] = startswith l [SP; SP].
Proof.
  intros Hf. destruct l as [|a [|b l]]; cbn [map startswith]; rewrite ?Hf;
    reflexivity.
Qed.

Lemma contains_map_space (f : N -> N) (l : list N) :
  (forall c, (SP =? f c) = (SP =? c)) ->
  contains (map f l) [SP; SP] = contains l [SP; SP].
Proof.
  intros Hf. induction l as [|a l IH].
  - reflexivity.
  - change (contains (map f (a :: l)) [SP; SP])
      with (startswith (map f (a :: l)) [SP; SP] || contains (map f l) [SP; SP]).
    rewrite startswith_map_space, IH by exact Hf. reflexivity.
Qed.

Lemma startswith_take (l p : list N) n :
  startswith (take n l) p = true -> startswith l p = true.
Proof.
  revert l n. induction p as [|x p IH]; intros l n; [reflexivity|].
  destruct l as [|y l], n as [|n]; cbn [take startswith]; try discriminate.
  intros H. apply andb_prop in H. destruct H as [-> H]. exact (IH _ _ H).
Qed.

Lemma contains_take (l p : list N) n :
  contains (take n l) p = true -> contains l p = true.
Proof.
  revert n. induction l as [|a l IH]; intros n.
  - rewrite take_nil. intros H. exact H.
  - destruct n as [|n].
    + cbn [take contains]. rewrite orb_false_r. intros H.
      destruct p; [reflexivity|discriminate H].
    + cbn [take contains]. intros H. apply orb_prop in H. destruct H as [H|H].
      * change (startswith (take (S n) (a :: l)) p = true) in H.
        apply startswith_take in H. rewrite H. reflexivity.
      * rewrite (IH _ H). apply orb_true_r.
Qed.

Section NormalizedShape.
Context {U : Unicode}.

Lemma collapse_from_spaces (in_run : bool) (s : list N) :
  isspace SP = true ->
  contains (collapse_from in_run s) [SP; SP] = false
  /\ (in_run = true -> startswith (collapse_from in_run s) [SP] = false).
Proof.
  intros Hsp. revert in_run. induction s as [|c r IH]; intros in_run.
  - split; [reflexivity|intros _; reflexivity].
  - cbn [collapse_from]. destruct (isspace c) eqn:Ec.
    + destruct in_run.
      * apply IH.
      * split; [|discriminate].
        destruct (IH true) as [IH1 IH2]. specialize (IH2 eq_refl).
        change (contains (SP :: collapse_from true r) [SP; SP])
          with ((SP =? SP) && startswith (collapse_from true r) [SP]
                || contains (collapse_from true r) [SP; SP]).
        rewrite IH1, IH2. reflexivity.
    + assert (Hc : (SP =? c) = false).
      { destruct (N.eqb_spec SP c) as [<-|]; [congruence|reflexivity]. }
      destruct (IH false) as [IH1 _]. split.
      * change (contains (c :: collapse_from false r) [SP; SP])
          with ((SP =? c) && startswith (collapse_from false r) [SP]
                || contains (collapse_from false r) [SP; SP]).
        rewrite Hc, IH1. reflexivity.
      * intros _. cbn [startswith]. rewrite Hc. reflexivity.
Qed.

Lemma collapse_from_chars (in_run : bool) (s : list N) c :
  c ∈ collapse_from in_run s -> c = SP \/ (c ∈ s /\ isspace c = false).
Proof.
  revert in_run. induction s as [|a r IH]; intros in_run; cbn [collapse_from].
  - intros H. inversion H.
  - destruct (isspace a) eqn:Ea.
    + destruct in_run.
      * intros H. destruct (IH _ H) as [?|[? ?]]; [left|right; split; [right|]];
          assumption.
      * intros H. apply elem_of_cons in H. destruct H as [->|H]; [left; reflexivity|].
        destruct (IH _ H) as [?|[? ?]]; [left|right; split; [right|]]; assumption.
    + intros H. apply elem_of_cons in H. destruct H as [->|H].
      * right. split; [left|exact Ea].
      * destruct (IH _ H) as [?|[? ?]]; [left|right; split; [right|]]; assumption.
Qed.

(** X4.  A normalized text holds none of the seven accented characters
    that [_normalize_text] folds (á é í ó ú ñ ü). *)
Theorem normalize_text_no_accents (text : list N) (old new : N) :
  (old, new) ∈ replacements -> old ∉ normalize_text text.
Proof.
  intros Hin Hold. unfold normalize_text in Hold.
  apply elem_of_take in Hold. destruct Hold as (i & Hold & _).
  apply list_elem_of_lookup_2 in Hold.
  rewrite replacements_as_map in Hold.
  apply list_elem_of_fmap in Hold. destruct Hold as (c & E & _).
  exact (fold_accent_no_accent c old new Hin (eq_sym E)).
Qed.

(** X5.  With U+0020 among the whitespace characters and the six target
    letters of the replacements among the word characters, a normalized
    text never holds two spaces in a row, and each of its characters is
    a word character or a single space: punctuation is gone and every run
    of whitespace has become one space. *)
Theorem normalize_text_clean (text : list N) :
  isspace SP = true ->
  (forall old new, (old, new) ∈ replacements -> re_word new = true) ->
  contains (normalize_text text) [SP; SP] = false
  /\ (forall c, c ∈ normalize_text text -> re_word c = true \/ c = SP).
Proof.
  intros Hsp Hletters. unfold normalize_text. split.
  - destruct (contains (take 500 _) [SP; SP]) eqn:E; [|reflexivity].
    apply contains_take in E. rewrite replacements_as_map in E.
    rewrite (contains_map_space fold_accent _ fold_accent_space) in E.
    unfold collapse_whitespace in E.
    rewrite (proj1 (collapse_from_spaces false _ Hsp)) in E. discriminate.
  - intros c Hc. apply elem_of_take in Hc. destruct Hc as (i & Hc & _).
    apply list_elem_of_lookup_2 in Hc. rewrite replacements_as_map in Hc.
    apply list_elem_of_fmap in Hc. destruct Hc as (c0 & -> & Hc0).
    destruct (fold_accent_cases c0) as [->|[old Hin]].
    + apply collapse_from_chars in Hc0. destruct Hc0 as [->|[Hc0 Hns]];
        [right; reflexivity|].
      unfold remove_punctuation in Hc0. apply list_elem_of_filter in Hc0.
      destruct Hc0 as [Hc0 _]. apply Is_true_true in Hc0.
      rewrite Hns, orb_false_r in Hc0. left. exact Hc0.
    + left. exact (Hletters _ _ Hin).
Qed.
End NormalizedShape.

Lemma normalize_text_no_accents_witness :
  241 ∉ normalize_text (U := Latin1) (u "Año de la medición").
Proof.
  apply (normalize_text_no_accents (U := Latin1) (u "Año de la medición") 241 110).
  by_evaluation.
Defined.

Lemma normalize_text_clean_witness :
  contains (normalize_text (U := Latin1) (u "¿Qué   es,  el IPC?")) [SP; SP] = false.
Proof.
  assert (Hletters : forall old new : N,
             (old, new) ∈ replacements -> re_word (Unicode := Latin1) new = true).
  { intros old new Hin. unfold replacements in Hin.
    repeat (apply elem_of_cons in Hin; destruct Hin as [[= -> ->]|Hin];
            [reflexivity|]).
    inversion Hin. }
  exact (proj1 (normalize_text_clean (U := Latin1) (u "¿Qué   es,  el IPC?")
                  eq_refl Hletters)).
Defined.

(* ===================================================================== *)
(** * More about query_router.py *)
(* ===================================================================== *)

Section DetectToolMore.
Context {U : Unicode}.

Lemma best_tool_from_spec query_lower tools best_tool best_score :
  let '(best_tool', best_score') :=
    best_tool_from query_lower tools best_tool best_score in
  (best_tool' = best_tool /\ best_score' = best_score
   /\ forall n c, (n, c) ∈ tools -> (tool_score query_lower c <= best_score)%nat)
  \/ (exists pre n c post,
         tools = pre ++ (n, c) :: post
         /\ best_tool' = Some n /\ best_score' = tool_score query_lower c
         /\ (best_score < best_score')%nat
         /\ (forall n' c', (n', c') ∈ pre ->
               (tool_score query_lower c' < best_score')%nat)
         /\ (forall n' c', (n', c') ∈ post ->
               (tool_score query_lower c' <= best_score')%nat)).
Proof.
  revert best_tool best_score.
  induction tools as [|[n c] rest IH]; intros best_tool best_score;
    cbn [best_tool_from].
  - left. split; [reflexivity|]. split; [reflexivity|].
    intros n c H. inversion H.
  - cbv zeta. destruct (Nat.ltb_spec best_score (tool_score query_lower c)) as [Hlt|Hge].
    + specialize (IH (Some n) (tool_score query_lower c)).
      destruct (best_tool_from query_lower rest (Some n) _) as [bt bs].
      destruct IH as [(-> & -> & Hall)|(pre & n2 & c2 & post & -> & -> & -> & Hlt2 & Hpre & Hpost)];
        right.
      * exists [], n, c, rest. cbn [app]. repeat (split; [reflexivity || exact Hlt|]).
        split; [intros ? ? H; inversion H|exact Hall].
      * exists ((n, c) :: pre), n2, c2, post. cbn [app].
        split; [reflexivity|]. split; [reflexivity|]. split; [reflexivity|].
        split; [lia|]. split; [|exact Hpost].
        intros n' c' H. apply elem_of_cons in H. destruct H as [[= -> ->]|H];
          [exact Hlt2|exact (Hpre _ _ H)].
    + specialize (IH best_tool best_score).
      destruct (best_tool_from query_lower rest best_tool best_score) as [bt bs].
      destruct IH as [(-> & -> & Hall)|(pre & n2 & c2 & post & -> & -> & -> & Hlt2 & Hpre & Hpost)].
      * left. split; [reflexivity|]. split; [reflexivity|].
        intros n' c' H. apply elem_of_cons in H. destruct H as [[= -> ->]|H];
          [exact Hge|exact (Hall _ _ H)].
      * right. exists ((n, c) :: pre), n2, c2, post. cbn [app].
        split; [reflexivity|]. split; [reflexivity|]. split; [reflexivity|].
        split; [exact Hlt2|]. split; [|exact Hpost].
        intros n' c' H. apply elem_of_cons in H. destruct H as [[= -> ->]|H];
          [lia|exact (Hpre _ _ H)].
Qed.

(** X6.  [detect_tool] answers with the first entry of [TOOL_MAPPINGS]
    that reaches the highest score, provided that score is at least 5:
    every entry listed before it scores strictly less, no entry listed
    after it scores more.  It answers [None] exactly when every entry
    scores below 5. *)
Theorem detect_tool_maximal (query : list N) :
  match detect_tool query with
  | Some tool_name =>
      exists pre config post,
        TOOL_MAPPINGS = pre ++ (tool_name, config) :: post
        /\ (5 <= tool_score (str_lower query) config)%nat
        /\ (forall n c, (n, c) ∈ pre ->
              (tool_score (str_lower query) c
               < tool_score (str_lower query) config)%nat)
        /\ (forall n c, (n, c) ∈ post ->
              (tool_score (str_lower query) c
               <= tool_score (str_lower query) config)%nat)
  | None =>
      forall n c, (n, c) ∈ TOOL_MAPPINGS ->
        (tool_score (str_lower query) c < 5)%nat
  end.
Proof.
  unfold detect_tool.
  pose proof (best_tool_from_spec (str_lower query) TOOL_MAPPINGS None 0) as H.
  destruct (best_tool_from (str_lower query) TOOL_MAPPINGS None 0) as [bt bs].
  destruct H as [(-> & -> & Hall)|(pre & n & c & post & E & -> & -> & Hlt & Hpre & Hpost)].
  - cbn. intros n c H. specialize (Hall n c H). lia.
  - destruct (Nat.leb_spec 5 (tool_score (str_lower query) c)) as [Hge|Hlow].
    + exists pre, c, post. auto.
    + intros n' c' H. rewrite E in H. apply elem_of_app in H.
      destruct H as [H|H]; [specialize (Hpre _ _ H); lia|].
      apply elem_of_cons in H. destruct H as [[= -> ->]|H]; [exact Hlow|].
      specialize (Hpost _ _ H). lia.
Qed.
End DetectToolMore.

(** ** The places found in a query *)

Lemma found_from_elem {U : Unicode} query_lower names found x :
  x ∈ found_from query_lower names found
  <-> x ∈ found
      \/ exists location, location ∈ names
           /\ contains query_lower location = true
           /\ x = canonical_name location.
Proof.
  revert found. induction names as [|location rest IH]; intros found;
    cbn [found_from].
  - split; [auto|]. intros [H|(l & H & _)]; [exact H|inversion H].
  - cbv zeta. fold (canonical_name location).
    destruct (contains query_lower location) eqn:Ec.
    + destruct (bool_decide (canonical_name location ∈ found)) eqn:Ed.
      * apply bool_decide_eq_true_1 in Ed. rewrite IH. split.
        -- intros [H|(l & Hl & Hc & ->)]; [auto|].
           right. exists l. split; [right; exact Hl|auto].
        -- intros [H|(l & Hl & Hc & ->)]; [auto|].
           apply elem_of_cons in Hl. destruct Hl as [->|Hl]; [auto|].
           right. exists l. auto.
      * rewrite IH, elem_of_app, list_elem_of_singleton. split.
        -- intros [[H| ->]|(l & Hl & Hc & ->)]; [auto| |].
           ++ right. exists location. split; [left|auto].
           ++ right. exists l. split; [right; exact Hl|auto].
        -- intros [H|(l & Hl & Hc & ->)]; [auto|].
           apply elem_of_cons in Hl. destruct Hl as [->|Hl]; [auto|].
           right. exists l. auto.
    + rewrite IH. split.
      * intros [H|(l & Hl & Hc & ->)]; [auto|].
        right. exists l. split; [right; exact Hl|auto].
      * intros [H|(l & Hl & Hc & ->)]; [auto|].
        apply elem_of_cons in Hl. destruct Hl as [->|Hl]; [congruence|].
        right. exists l. auto.
Qed.

Lemma canonical_names_fixed :
  forallb (fun location =>
             bool_decide (dict_get LOCATION_CANONICAL (canonical_name location)
                          = None))
          LOCATION_NAMES_listed = true.
Proof. vm_compute. reflexivity. Qed.

(** X7.  The places [extract_locations] returns are exactly the canonical
    names of the known places spelled in the lower-cased query, each
    once; none of them is itself a variant spelling listed in
    [LOCATION_CANONICAL]. *)
Theorem extract_locations_canonical {U : Unicode} {HS : HashSeed}
    (query : list N) :
  iterates_LOCATION_NAMES ->
  NoDup (extract_locations query)
  /\ (forall place,
        place ∈ extract_locations query
        <-> exists location, location ∈ LOCATION_NAMES
              /\ contains (str_lower query) location = true
              /\ place = canonical_name location)
  /\ (forall place,
        place ∈ extract_locations query ->
        dict_get LOCATION_CANONICAL place = None).
Proof.
  intros [_ Hiter].
  assert (Hspec : forall place,
             place ∈ extract_locations query
             <-> exists location, location ∈ LOCATION_NAMES
                   /\ contains (str_lower query) location = true
                   /\ place = canonical_name location).
  { intros place. unfold extract_locations. rewrite found_from_elem. split.
    - intros [H|(l & Hl & H)]; [inversion H|].
      exists l. split; [apply Hiter, Hl|exact H].
    - intros (l & Hl & H). right. exists l. split; [apply Hiter, Hl|exact H]. }
  split; [apply extract_locations_NoDup|]. split; [exact Hspec|].
  intros place Hplace. apply Hspec in Hplace.
  destruct Hplace as (l & Hl & _ & ->).
  unfold LOCATION_NAMES in Hl. apply elem_of_list_to_set in Hl.
  pose proof canonical_names_fixed as Hfix.
  rewrite forallb_forall in Hfix. apply list_elem_of_In in Hl.
  specialize (Hfix l Hl). exact (bool_decide_eq_true_1 _ Hfix).
Qed.

Lemma extract_locations_canonical_witness :
  NoDup (extract_locations (U := Latin1) (HS := listed_order)
           (u "Poblacion de Bs As y Ctes")).
Proof.
  refine (proj1 (extract_locations_canonical (U := Latin1) (HS := listed_order)
                   (u "Poblacion de Bs As y Ctes") _)).
  split; [by_evaluation|]. intros location. unfold LOCATION_NAMES.
  rewrite elem_of_list_to_set. reflexivity.
Defined.

(** X8.  Which places are found does not depend on the order in which
    the interpreter iterates over [LOCATION_NAMES]: two interpreters
    return the same places, possibly in a different order. *)
Theorem extract_locations_any_order {U : Unicode} (HS1 HS2 : HashSeed)
    (query : list N) :
  iterates_LOCATION_NAMES (HS := HS1) ->
  iterates_LOCATION_NAMES (HS := HS2) ->
  extract_locations (HS := HS1) query ≡ₚ extract_locations (HS := HS2) query.
Proof.
  intros [_ H1] [_ H2]. apply NoDup_Permutation.
  - apply extract_locations_NoDup.
  - apply extract_locations_NoDup.
  - intros place. unfold extract_locations. rewrite !found_from_elem.
    split; (intros [H|(l & Hl & H)]; [inversion H|]); right; exists l;
      (split; [|exact H]).
    + apply H2, H1, Hl.
    + apply H1, H2, Hl.
Qed.

Lemma extract_locations_any_order_witness :
  extract_locations (U := Latin1) (HS := listed_order) (u "goya y mercedes")
  ≡ₚ extract_locations (U := Latin1) (HS := reversed_order) (u "goya y mercedes").
Proof.
  apply extract_locations_any_order.
  - split; [by_evaluation|]. intros location. unfold LOCATION_NAMES.
    rewrite elem_of_list_to_set. reflexivity.
  - split.
    + by_evaluation.
    + intros location. unfold LOCATION_NAMES.
      rewrite elem_of_list_to_set. cbn [LOCATION_NAMES_iter reversed_order].
      rewrite !list_elem_of_In. symmetry. apply in_rev.
Defined.

(** ** The calls [route_and_execute] makes *)

Section RoutingMore.
Context {U : Unicode} {R : Regex} {HS : HashSeed}.
Context {W : Type} {TE : ToolExecutor W}.

Lemma fan_out_calls w tool_name name params locations :
  let log := snd (fst (fan_out w tool_name name params locations [] [])) in
  map call_tool log = map (fun _ => tool_name) locations
  /\ map call_args log
     = map (fun location => params ∪ {[ name := location ]}) locations.
Proof.
  pose proof (fan_out_log w tool_name name params locations [] []) as H.
  destruct (fan_out w tool_name name params locations [] []) as [[results log] w'].
  destruct H as (calls & -> & _ & Ht & Ha). cbn [fst snd app]. auto.
Qed.

Lemma single_call_log w tool_name params :
  snd (fst (single_call w tool_name params))
  = [ {| call_tool := tool_name; call_args := params;
         call_result := fst (execute w tool_name params) |} ].
Proof.
  unfold single_call. destruct (execute w tool_name params) as [result w'].
  destruct (found_something result); reflexivity.
Qed.

Lemma extract_params_shape query tool_name :
  extract_params query tool_name = ∅
  \/ exists name value,
       param_name (tool_config tool_name) = Some name
       /\ extract_params query tool_name = {[ name := value ]}.
Proof.
  unfold extract_params. cbv zeta.
  destruct (param_values (tool_config tool_name)) as [values|]; [|left; reflexivity].
  destruct (List.find _ values) as [[k value]|]; [|left; reflexivity].
  destruct (param_name (tool_config tool_name)) as [name|]; [|left; reflexivity].
  right. exists name, value. auto.
Qed.

(** X9.  Every call [route_and_execute] makes goes to the tool that
    [detect_tool] chose.  No call is made without an executor, with an
    unavailable one, or when no tool is detected.  Otherwise a tool
    that takes a place is called once per place found, and once when no
    place is found; a tool that takes none is called once. *)
Theorem route_calls (tool_executor : option W) (query : list N) :
  let log := snd (fst (route_and_execute tool_executor query)) in
  (forall call, call ∈ log -> detect_tool query = Some (call_tool call))
  /\ length log
     = match tool_executor with
       | None => 0%nat
       | Some w =>
           if is_available w then
             match detect_tool query with
             | None => 0%nat
             | Some tool_name =>
                 match param_name (tool_config tool_name) with
                 | Some name =>
                     if str_eqb name [] then 1%nat
                     else Nat.max 1 (length (extract_locations query))
                 | None => 1%nat
                 end
             end
           else 0%nat
       end.
Proof.
  cbv zeta. destruct tool_executor as [w|]; cbn [route_and_execute].
  2:{ split; [intros call H; inversion H|reflexivity]. }
  assert (E : snd (fst (let '(r, log, w0) := route w query in (r, log, Some w0)))
              = snd (fst (route w query))).
  { destruct (route w query) as [[r log] w0]. reflexivity. }
  rewrite E. clear E. unfold route.
  destruct (is_available w); cbn [negb];
    [|split; [intros call H; inversion H|reflexivity]].
  destruct (detect_tool query) as [tool_name|];
    [|split; [intros call H; inversion H|reflexivity]].
  cbv zeta.
  assert (Hsingle : forall params,
             (forall call, call ∈ snd (fst (single_call w tool_name params)) ->
                Some tool_name = Some (call_tool call))
             /\ length (snd (fst (single_call w tool_name params))) = 1%nat).
  { intros params. rewrite single_call_log. split; [|reflexivity].
    intros call H. apply list_elem_of_singleton in H. subst call. reflexivity. }
  destruct (extract_locations query) as [|first rest] eqn:El.
  - destruct (param_name (tool_config tool_name)) as [name|];
      [destruct (str_eqb name [])|]; apply Hsingle.
  - destruct (param_name (tool_config tool_name)) as [name|]; [|apply Hsingle].
    destruct (str_eqb name []); [apply Hsingle|].
    destruct (is_comparison_query query) eqn:Ec.
    + pose proof (fan_out_calls w tool_name name (extract_params query tool_name)
                    (first :: rest)) as [Ht Ha].
      destruct (fan_out w tool_name name _ (first :: rest) [] [])
        as [[results log] w'].
      cbn [fst snd] in Ht, Ha.
      assert (Hlog : (forall call, call ∈ log ->
                        Some tool_name = Some (call_tool call))
                     /\ length log = Nat.max 1 (length (first :: rest))).
      { split.
        - intros call H. f_equal.
          assert (Hin : call_tool call ∈ map call_tool log).
          { apply list_elem_of_In, in_map, list_elem_of_In, H. }
          rewrite Ht in Hin. apply list_elem_of_In, in_map_iff in Hin.
          destruct Hin as (? & <- & _). reflexivity.
        - rewrite <- (length_map call_tool), Ht, length_map. cbn [length]. lia. }
      destruct results; exact Hlog.
    + unfold is_comparison_query in Ec. apply orb_false_elim in Ec.
      destruct Ec as [_ Ec]. rewrite El in Ec. apply Nat.leb_gt in Ec.
      destruct (Hsingle (<[name:=first]> (extract_params query tool_name)))
        as [H1 H2].
      split; [exact H1|]. rewrite H2. cbn [length] in *. lia.
Qed.

(** X10.  A single place overrides an extracted parameter value: when the
    query is not a comparison and names one place, the one call passes
    that place under the tool's parameter name and nothing else,
    whatever value the query carried for that parameter. *)
Theorem single_place_overrides_parameter (w : W) (query tool_name name : list N) :
  is_available w = true ->
  detect_tool query = Some tool_name ->
  param_name (tool_config tool_name) = Some name ->
  name ≠ [] ->
  is_comparison_query query = false ->
  forall place, place ∈ extract_locations query ->
  map call_args (snd (fst (route_and_execute (Some w) query)))
  = [ {[ name := place ]} ].
Proof.
  intros Hav Hdet Hname Hne Hcmp place Hplace.
  cbn [route_and_execute].
  assert (E : snd (fst (let '(r, log, w0) := route w query in (r, log, Some w0)))
              = snd (fst (route w query))).
  { destruct (route w query) as [[r log] w0]. reflexivity. }
  rewrite E. clear E. unfold route. rewrite Hav, Hdet. cbn [negb]. cbv zeta.
  rewrite Hname, (proj2 (str_eqb_false name []) Hne), Hcmp.
  unfold is_comparison_query in Hcmp. apply orb_false_elim in Hcmp.
  destruct Hcmp as [_ Hcmp]. apply Nat.leb_gt in Hcmp.
  destruct (extract_locations query) as [|first [|second rest]];
    [inversion Hplace| |cbn [length] in Hcmp; lia].
  apply list_elem_of_singleton in Hplace. subst place.
  rewrite single_call_log. cbn [map call_args]. f_equal.
  destruct (extract_params_shape query tool_name) as [->|(n & v & Hn & ->)].
  - apply insert_empty.
  - rewrite Hname in Hn. injection Hn as <-.
    rewrite <- (insert_empty name v). rewrite insert_insert_eq. apply insert_empty.
Qed.

(** X11.  In a comparison it is the other way round: when the query
    carries a value for the tool's parameter, every call of the fan-out
    passes that value and no call receives a place, so all the calls
    carry the same arguments. *)
Theorem comparison_keeps_parameter (w : W) (query tool_name name : list N) :
  is_available w = true ->
  detect_tool query = Some tool_name ->
  param_name (tool_config tool_name) = Some name ->
  name ≠ [] ->
  is_comparison_query query = true ->
  extract_locations query ≠ [] ->
  extract_params query tool_name ≠ ∅ ->
  map call_args (snd (fst (route_and_execute (Some w) query)))
  = map (fun _ => extract_params query tool_name) (extract_locations query).
Proof.
  intros Hav Hdet Hname Hne Hcmp Hloc Hpar.
  cbn [route_and_execute].
  assert (E : snd (fst (let '(r, log, w0) := route w query in (r, log, Some w0)))
              = snd (fst (route w query))).
  { destruct (route w query) as [[r log] w0]. reflexivity. }
  rewrite E. clear E. unfold route. rewrite Hav, Hdet. cbn [negb]. cbv zeta.
  rewrite Hname, (proj2 (str_eqb_false name []) Hne), Hcmp.
  destruct (extract_locations query) as [|first rest] eqn:El; [contradiction|].
  pose proof (fan_out_calls w tool_name name (extract_params query tool_name)
                (first :: rest)) as [_ Ha].
  destruct (fan_out w tool_name name _ (first :: rest) [] [])
    as [[results log] w'].
  cbn [fst snd] in Ha.
  assert (Hargs : map call_args log
                  = map (fun _ => extract_params query tool_name) (first :: rest)).
  { rewrite Ha. apply map_ext. intros location.
    destruct (extract_params_shape query tool_name) as [E|(n & v & Hn & E)];
      [contradiction|].
    rewrite E. rewrite Hname in Hn. injection Hn as <-.
    apply map_eq. intros k. rewrite lookup_union.
    destruct (decide (k = name)) as [->|Hk].
    - rewrite !lookup_singleton_eq. reflexivity.
    - rewrite !lookup_singleton_ne by congruence. reflexivity. }
  destruct results; exact Hargs.
Qed.
End RoutingMore.

Lemma single_place_overrides_parameter_witness :
  map call_args
    (snd (fst (route_and_execute (U := Latin1) (R := no_pattern_matches)
                 (HS := listed_order) (TE := answering (fun _ => plain_answer))
                 (Some tt) (u "dolar blue en goya"))))
  = [ {[ u "tipo" := u "goya" ]} ].
Proof.
  apply (single_place_overrides_parameter (U := Latin1) (R := no_pattern_matches)
           (HS := listed_order) (TE := answering (fun _ => plain_answer))
           tt (u "dolar blue en goya") (u "get_dolar") (u "tipo")).
  - reflexivity.
  - vm_compute. reflexivity.
  - vm_compute. reflexivity.
  - discriminate.
  - vm_compute. reflexivity.
  - by_evaluation.
Defined.

Lemma comparison_keeps_parameter_witness :
  map call_args
    (snd (fst (route_and_execute (U := Latin1) (R := no_pattern_matches)
                 (HS := listed_order) (TE := answering (fun _ => plain_answer))
                 (Some tt) (u "dolar blue goya corrientes"))))
  = [ {[ u "tipo" := u "blue" ]}; {[ u "tipo" := u "blue" ]} ].
Proof.
  assert (Ep : extract_params (U := Latin1) (u "dolar blue goya corrientes")
                 (u "get_dolar") = {[ u "tipo" := u "blue" ]})
    by (vm_compute; reflexivity).
  assert (El : extract_locations (U := Latin1) (HS := listed_order)
                 (u "dolar blue goya corrientes") = [u "goya"; u "corrientes"])
    by (vm_compute; reflexivity).
  rewrite (comparison_keeps_parameter (U := Latin1) (R := no_pattern_matches)
             (HS := listed_order) (TE := answering (fun _ => plain_answer))
             tt (u "dolar blue goya corrientes") (u "get_dolar") (u "tipo")).
  - rewrite Ep, El. reflexivity.
  - reflexivity.
  - vm_compute. reflexivity.
  - vm_compute. reflexivity.
  - discriminate.
  - vm_compute. reflexivity.
  - rewrite El. discriminate.
  - rewrite Ep. intros E. apply (f_equal (fun m => m !! u "tipo")) in E.
    rewrite lookup_singleton_eq, lookup_empty in E. discriminate.
Defined.

(** ** Results without a table *)

Lemma contains_char (s : list N) (c : N) : contains s [c] = true -> c ∈ s.
Proof.
  induction s as [|a s IH]; cbn [contains startswith].
  - discriminate.
  - intros H. apply orb_prop in H. destruct H as [H|H].
    + rewrite andb_true_r in H. apply N.eqb_eq in H. subst. left.
    + right. exact (IH H).
Qed.

Lemma not_contains_char (s : list N) (c : N) : contains s [c] = false -> c ∉ s.
Proof.
  induction s as [|a s IH]; cbn [contains startswith].
  - intros _ H. inversion H.
  - intros H Hin. apply orb_false_elim in H. destruct H as [Ha H].
    rewrite andb_true_r in Ha. apply N.eqb_neq in Ha.
    apply elem_of_cons in Hin. destruct Hin as [->|Hin];
      [contradiction|exact (IH H Hin)].
Qed.

Lemma split_on_chars (sep : N) (s line : list N) (c : N) :
  line ∈ split_on sep s -> c ∈ line -> c ∈ s.
Proof.
  revert line. induction s as [|a s IH]; intros line; cbn [split_on].
  - intros H Hc. apply list_elem_of_singleton in H. subst. inversion Hc.
  - destruct (a =? sep).
    + intros H Hc. apply elem_of_cons in H. destruct H as [->|H];
        [inversion Hc|right; exact (IH _ H Hc)].
    + destruct (split_on sep s) as [|w ws] eqn:E.
      * intros H Hc. apply list_elem_of_singleton in H. subst.
        apply list_elem_of_singleton in Hc. subst. left.
      * intros H Hc. apply elem_of_cons in H. destruct H as [->|H].
        -- apply elem_of_cons in Hc. destruct Hc as [->|Hc]; [left|].
           right. apply (IH w); [left|exact Hc].
        -- right. apply (IH line); [right; exact H|exact Hc].
Qed.

Lemma comparison_result_no_table {U : Unicode} (acc : list N * bool)
    (r : list N) :
  contains r (u "|") = false -> comparison_result acc r = acc.
Proof.
  intros Hr. unfold comparison_result. cbv zeta.
  assert (Hlines : forall line, line ∈ split_on NL r ->
                     contains line (u "|") = false).
  { intros line Hl. destruct (contains line (u "|")) eqn:E; [|reflexivity].
    exfalso. apply (contains_char line 124) in E.
    exact (not_contains_char r 124 Hr (split_on_chars _ _ _ _ Hl E)). }
  generalize (split_on NL r) at 1 as lines.
  revert Hlines. generalize (split_on NL r) as rest. intros rest Hlines lines.
  revert acc. induction rest as [|line rest IH]; intros acc; [reflexivity|].
  cbn [fold_left]. unfold comparison_line at 2. destruct acc as [combined h].
  rewrite (Hlines line) by left. apply IH. intros l Hl. apply Hlines. right.
  exact Hl.
Qed.

(** X12.  When no result holds a [|], nothing is merged: two or more
    results come back as the heading, the results joined by a line of
    three dashes, and the footer; of a single result nothing is changed. *)
Theorem format_comparison_without_table {U : Unicode}
    (results : list (list N)) (description : list N) :
  (forall r, r ∈ results -> contains r (u "|") = false) ->
  format_comparison results description
  = match results with
    | [only] => only
    | _ => comparison_heading description
           ++ join ([NL] ++ u "---" ++ [NL]) results ++ COMPARISON_FOOTER
    end.
Proof.
  intros Hno.
  assert (Hfold : forall acc,
             fold_left comparison_result results acc = acc).
  { revert Hno. generalize results as rs.
    induction rs as [|r rs IH]; intros Hno acc; [reflexivity|].
    cbn [fold_left]. rewrite comparison_result_no_table by (apply Hno; left).
    apply IH. intros r' Hr'. apply Hno. right. exact Hr'. }
  unfold format_comparison. destruct results as [|r1 [|r2 rest]];
    [|reflexivity|]; cbv zeta; rewrite Hfold; cbn [negb];
    rewrite <- app_assoc; reflexivity.
Qed.

Lemma format_comparison_without_table_witness :
  format_comparison (U := Latin1) [plain_answer; lowercase_error]
    (u "datos de población")
  = comparison_heading (U := Latin1) (u "datos de población")
    ++ join ([NL] ++ u "---" ++ [NL]) [plain_answer; lowercase_error]
    ++ COMPARISON_FOOTER.
Proof.
  apply (format_comparison_without_table (U := Latin1)
           [plain_answer; lowercase_error]).
  intros r Hr. apply elem_of_cons in Hr. destruct Hr as [->|Hr];
    [vm_compute; reflexivity|].
  apply list_elem_of_singleton in Hr. subst r. vm_compute. reflexivity.
Defined.

(* ===================================================================== *)
(** * tool_executor.py behind the router *)
(* ===================================================================== *)

Lemma detect_tool_listed {U : Unicode} (query tool_name : list N) :
  detect_tool query = Some tool_name -> tool_name ∈ map fst TOOL_MAPPINGS.
Proof.
  unfold detect_tool.
  pose proof (best_tool_from_spec (str_lower query) TOOL_MAPPINGS None 0) as H.
  destruct (best_tool_from (str_lower query) TOOL_MAPPINGS None 0) as [bt bs].
  destruct H as [(-> & -> & _)|(pre & n & c & post & E & -> & _)].
  - cbn. discriminate.
  - destruct (5 <=? bs)%nat; [|discriminate]. intros [= <-]. rewrite E.
    rewrite map_app. apply elem_of_app. right. left.
Qed.

Lemma mapped_tools_handled :
  forallb (fun name => bool_decide (name ∈ TOOL_HANDLERS))
          (map fst TOOL_MAPPINGS) = true.
Proof. vm_compute. reflexivity. Qed.

Lemma found_something_APOLOGY : found_something APOLOGY = true.
Proof. vm_compute. reflexivity. Qed.

Lemma detected_tool_handled {U : Unicode} (query tool_name : list N) :
  detect_tool query = Some tool_name -> tool_name ∈ TOOL_HANDLERS.
Proof.
  intros Hdet. apply detect_tool_listed in Hdet.
  pose proof mapped_tools_handled as Hall. rewrite forallb_forall in Hall.
  apply list_elem_of_In in Hdet. specialize (Hall _ Hdet).
  exact (bool_decide_eq_true_1 _ Hall).
Qed.

Section ExecutorFacts.
Context {U : Unicode} {R : Regex} {HS : HashSeed}.
Context {D : Type} {DT : DatabaseTools D}.

(** X25.  Every tool the router can choose has a handler in the
    executor: for no query does [execute] answer that the detected tool
    is not available. *)
Theorem routed_tool_has_handler (query tool_name : list N) :
  detect_tool query = Some tool_name ->
  tool_name ∈ TOOL_HANDLERS
  /\ forall (d : D) tool_args,
       fst (executor_execute (Some d) tool_name tool_args)
       = match fst (call d tool_name (handler_args tool_name tool_args)) with
         | Some result => result
         | None => APOLOGY
         end.
Proof.
  intros Hdet. pose proof (detected_tool_handled _ _ Hdet) as Hall.
  split; [exact Hall|].
  intros d tool_args. unfold executor_execute.
  rewrite (bool_decide_eq_true_2 _ Hall).
  destruct (call d tool_name _) as [[result|] d']; reflexivity.
Qed.

(** X26.  A failure of the data layer reaches the user as data: when the
    query is not a comparison and the method behind the detected tool
    raises, the executor answers with its apology, which holds neither
    of the router's markers, and [route_and_execute] returns it as the
    result of the tool. *)
Theorem handler_failure_is_surfaced (d : D) (query tool_name : list N) :
  detect_tool query = Some tool_name ->
  is_comparison_query query = false ->
  (forall d' tool_args, fst (call d' tool_name tool_args) = None) ->
  fst (fst (route_and_execute (TE := tool_executor) (Some (Some d)) query))
  = Some (tool_name, APOLOGY).
Proof.
  intros Hdet Hcmp Hfail.
  pose proof (detected_tool_handled query tool_name Hdet) as Hh.
  cbn [route_and_execute].
  assert (E : forall x : option (list N * list N) * list Call * option D,
             fst (fst (let '(r, log, w0) := x in (r, log, Some w0)))
             = fst (fst x)) by (intros [[? ?] ?]; reflexivity).
  rewrite E. clear E. unfold route.
  change (is_available (Some d)) with (bool_decide (is_Some (Some d))).
  rewrite bool_decide_eq_true_2 by (eexists; reflexivity).
  cbn [negb]. rewrite Hdet. cbv zeta. rewrite Hcmp.
  assert (Hsingle : forall params,
             fst (fst (single_call (TE := tool_executor) (Some d) tool_name params))
             = Some (tool_name, APOLOGY)).
  { intros params. unfold single_call.
    change (execute (Some d) tool_name params)
      with (executor_execute (Some d) tool_name params).
    unfold executor_execute. rewrite (bool_decide_eq_true_2 _ Hh).
    specialize (Hfail d (handler_args tool_name params)).
    destruct (call d tool_name _) as [[result|] d']; [discriminate|].
    rewrite found_something_APOLOGY. reflexivity. }
  destruct (extract_locations query) as [|first rest]; [|].
  - destruct (param_name (tool_config tool_name)) as [name|];
      [destruct (str_eqb name [])|]; apply Hsingle.
  - destruct (param_name (tool_config tool_name)) as [name|];
      [destruct (str_eqb name [])|]; apply Hsingle.
Qed.
End ExecutorFacts.

Lemma routed_tool_has_handler_witness : u "get_dolar" ∈ TOOL_HANDLERS.
Proof.
  exact (proj1 (routed_tool_has_handler (U := Latin1) (DT := failing_tools)
                  (u "cotizacion del dolar") (u "get_dolar")
                  ltac:(vm_compute; reflexivity))).
Defined.

Lemma handler_failure_is_surfaced_witness :
  fst (fst (route_and_execute (U := Latin1) (R := no_pattern_matches)
              (HS := listed_order) (TE := tool_executor (DT := failing_tools))
              (Some (Some tt)) (u "cotizacion del dolar")))
  = Some (u "get_dolar", APOLOGY).
Proof.
  apply (handler_failure_is_surfaced (U := Latin1) (R := no_pattern_matches)
           (HS := listed_order) (DT := failing_tools)).
  - vm_compute. reflexivity.
  - vm_compute. reflexivity.
  - reflexivity.
Defined.

(* ===================================================================== *)
(** * More about menu_tree.py *)
(* ===================================================================== *)

(** ** The children a menu lists *)





(** ** The path to a node *)

Section FindPath.
Variable t : MenuTree.
Variable target_node_id : list N.














End FindPath.


(** ** The node a text points at *)

Section FindNodeFacts.
Context {U : Unicode}.

Lemma better_match_keeps text_lower text_clean is_action_query seen node score best :
  node_score text_lower text_clean is_action_query node = inr score ->
  best_so_far text_lower text_clean is_action_query seen best ->
  best_so_far text_lower text_clean is_action_query (seen ++ [node])
              (better_match node score best).
Proof.
  intros Hs (Hpos & Hseen & Hbest). destruct best as [bm bs]. cbn [fst snd] in *.
  assert (Hold : forall bs', (bs <= bs')%Z -> (score <= bs')%Z ->
            forall n, n ∈ seen ++ [node] ->
            exists s, node_score text_lower text_clean is_action_query n = inr s
                      /\ (s <= bs')%Z).
  { intros bs' Hle Hsc n Hn. apply elem_of_app in Hn. destruct Hn as [Hn|Hn].
    - destruct (Hseen n Hn) as (s & E & Hle'). exists s. split; [exact E|lia].
    - apply list_elem_of_singleton in Hn. subst n. exists score. auto. }
  assert (Hsame : best_so_far text_lower text_clean is_action_query
                    (seen ++ [node]) (bm, bs) \/ (bs < score)%Z).
  { destruct (Z.ltb_spec bs score) as [Hlt|Hge]; [right; exact Hlt|left].
    split; [exact Hpos|]. cbn [fst snd]. split; [apply Hold; lia|].
    intros b Hb. destruct (Hbest b Hb) as [Hin E]. split; [|exact E].
    apply elem_of_app. left. exact Hin. }
  unfold better_match. destruct (Z.ltb_spec bs score) as [Hlt|Hge].
  - split; [cbn; lia|]. split; [cbn [snd]; apply Hold; lia|].
    cbn [fst snd]. intros b [= <-]. split; [|exact Hs].
    apply elem_of_app. right. left.
  - destruct Hsame as [Hsame|?]; [|lia].
    destruct ((score =? bs)%Z && (0 <? score)%Z) eqn:Et; [|exact Hsame].
    destruct (str_eqb (action node) (u "tool") && _); [|exact Hsame].
    apply andb_prop in Et. destruct Et as [Et _]. apply Z.eqb_eq in Et. subst bs.
    split; [exact Hpos|]. split; [cbn [snd]; apply Hold; lia|].
    cbn [fst snd]. intros b [= <-]. split; [|exact Hs].
    apply elem_of_app. right. left.
Qed.

Lemma best_node_from_keeps text_lower text_clean is_action_query values :
  forall seen best result,
    best_so_far text_lower text_clean is_action_query seen best ->
    best_node_from text_lower text_clean is_action_query values best
    = inr result ->
    best_so_far text_lower text_clean is_action_query (seen ++ values) result.
Proof.
  induction values as [|node rest IH]; intros seen best result Hinv;
    cbn [best_node_from].
  - intros [= <-]. rewrite app_nil_r. exact Hinv.
  - destruct (node_score text_lower text_clean is_action_query node)
      as [e|score] eqn:Es; [discriminate|].
    intros H. apply (IH (seen ++ [node])) in H.
    + rewrite <- app_assoc in H. exact H.
    + apply better_match_keeps; assumption.
Qed.


Lemma get_node_in (t : MenuTree) node_id node :
  get_node t node_id = Some node -> (node_id, node) ∈ nodes t.
Proof.
  unfold get_node. intros H.
  destruct (List.find _ (nodes t)) as [[k n]|] eqn:E; [|discriminate].
  injection H as ->. apply find_some in E. destruct E as [Hin Hk].
  cbn [fst] in Hk. apply str_eqb_true in Hk. subst k.
  apply list_elem_of_In. exact Hin.
Qed.

(** X16.  A text that reads as a number from 1 to the number of children
    of the root is answered by position among the root's children,
    exactly as [get_child_by_number] does on the root, whatever the
    titles and keywords of the tree say. *)
Theorem find_node_by_number (t : MenuTree) (text root_id : list N)
    (root : MenuNode) (option_number : Z) :
  int_of_str (strip (str_lower text)) = Some option_number ->
  root_node_id t = Some root_id -> root_id ≠ [] ->
  get_node t root_id = Some root ->
  (1 <= option_number <= Z.of_nat (length (children root)))%Z ->
  find_node_by_keyword t text
  = inr (get_child_by_number t root_id option_number).
Proof.
  intros Hint Hroot Hne Hnode [Hlo Hhi].
  unfold find_node_by_keyword, numbered_child, get_child_by_number, get_root.
  cbv zeta. rewrite Hint, Hroot, (proj2 (str_eqb_false root_id []) Hne), Hnode.
  destruct (children root) as [|c cs] eqn:Ec; [cbn in Hhi; lia|].
  rewrite <- Ec in *.
  replace ((1 <=? option_number)
           && (option_number <=? Z.of_nat (length (children root))))%Z
    with true by (symmetry; apply andb_true_intro; split; apply Z.leb_le; lia).
  destruct (children root !! Z.to_nat (option_number - 1)) as [child_id|] eqn:El;
    [reflexivity|].
  apply lookup_ge_None in El. lia.
Qed.

(** X17.  A node [find_node_by_keyword] returns is a node stored in the
    tree.  When the text is not answered as a number, the node scored at
    least 5 and no stored node scored more. *)
Theorem find_node_by_keyword_best (t : MenuTree) (text : list N)
    (node : MenuNode) :
  find_node_by_keyword t text = inr (Some node) ->
  let text_lower := strip (str_lower text) in
  let score_of :=
    node_score text_lower (remove_punctuation text_lower)
      (existsb (fun word => contains text_lower word) action_words) in
  (exists node_id, (node_id, node) ∈ nodes t)
  /\ (numbered_child t text_lower = None ->
      exists score,
        score_of node = inr score /\ (5 <= score)%Z
        /\ forall node_id other, (node_id, other) ∈ nodes t ->
             exists score', score_of other = inr score' /\ (score' <= score)%Z).
Proof.
  unfold find_node_by_keyword. cbv zeta.
  destruct (numbered_child t (strip (str_lower text))) as [found|] eqn:En.
  - intros [= ->]. split; [|discriminate].
    unfold numbered_child in En.
    destruct (int_of_str _); [|discriminate].
    destruct (get_root t) as [root|]; [|discriminate].
    destruct (children root); [discriminate|].
    destruct (_ && _)%Z; [|discriminate].
    destruct (_ !! _) as [child_id|]; [|discriminate].
    injection En as En. exists child_id. exact (get_node_in _ _ _ En).
  - destruct (best_node_from _ _ _ (map snd (nodes t)) (None, 0%Z))
      as [e|[bm bs]] eqn:Eb; [discriminate|].
    apply (best_node_from_keeps _ _ _ _ []) in Eb.
    2:{ split; [cbn; lia|]. split; [intros n Hn; inversion Hn|].
        cbn. intros b Hb. discriminate. }
    destruct Eb as (_ & Hseen & Hbest). cbn [fst snd app] in *.
    destruct (Z.leb_spec 5 bs) as [Hge|]; [|discriminate].
    intros [= ->]. destruct (Hbest node eq_refl) as [Hin Hscore]. split.
    + apply list_elem_of_In, in_map_iff in Hin. destruct Hin as ([k n] & E & Hin).
      cbn [snd] in E. subst n. exists k. apply list_elem_of_In. exact Hin.
    + intros _. exists bs. split; [exact Hscore|]. split; [exact Hge|].
      intros node_id other Hother. apply Hseen.
      apply list_elem_of_In, in_map_iff. exists (node_id, other).
      split; [reflexivity|]. apply list_elem_of_In. exact Hother.
Qed.

End FindNodeFacts.

Lemma find_node_by_number_witness :
  find_node_by_keyword (U := Latin1) two_level_tree (u " 2 ")
  = inr (get_node two_level_tree (u "dolar")).
Proof.
  rewrite (find_node_by_number (U := Latin1) two_level_tree (u " 2 ") (u "root")
             (snd (example_node (u "root") (u "Menú Principal") (u "menu")
                     [u "economico"; u "dolar"])) 2).
  - vm_compute. reflexivity.
  - vm_compute. reflexivity.
  - reflexivity.
  - discriminate.
  - vm_compute. reflexivity.
  - cbn. lia.
Defined.

Lemma find_node_by_keyword_best_witness :
  exists node_id,
    (node_id, snd (example_node (u "empleo") (u "Empleo") (u "tool") []))
    ∈ nodes two_level_tree.
Proof.
  exact (proj1 (find_node_by_keyword_best (U := Latin1) two_level_tree
                  (u "tasa de empleo")
                  (snd (example_node (u "empleo") (u "Empleo") (u "tool") []))
                  ltac:(vm_compute; reflexivity))).
Defined.


(* ===================================================================== *)
(** * More about keyword_detector.py *)
(* ===================================================================== *)

Lemma common_menu :
  common (u "menu") = map u ["menú"; "menu"; "inicio"; "principal"; "volver"]%string.
Proof. vm_compute. reflexivity. Qed.

Lemma common_back :
  common (u "back") = map u ["atrás"; "back"; "volver"; "anterior"; "regresar"]%string.
Proof. vm_compute. reflexivity. Qed.

Ltac float_discriminate E :=
  apply (f_equal Prim2SF) in E; vm_compute in E; discriminate E.

Section TextBranchFacts.
Context {U : Unicode} {R : Regex}.

Lemma number_selection_shape (t : MenuTree) text_lower selected :
  number_selection t text_lower = Some selected ->
  exists child_id child_node,
    get_node t child_id = Some child_node
    /\ selected = selection_intent child_node.
Proof.
  unfold number_selection. intros H.
  destruct (int_of_str text_lower); [|discriminate].
  destruct (get_root t) as [root|]; [|discriminate].
  destruct (children root); [discriminate|].
  destruct (_ && _)%Z; [|discriminate].
  destruct (_ !! _) as [child_id|]; [|discriminate].
  destruct (get_node t child_id) as [child_node|] eqn:E; [|discriminate].
  injection H as <-. exists child_id, child_node. auto.
Qed.

(** X19.  ["volver"] never goes back: it is listed under both [menu] and
    [back], and [menu] is tested first.  A ["back"] intent is returned
    only for a text that holds none of the [menu] words and one of
    atrás, back, anterior, regresar. *)
Theorem back_intent_words (kd : KeywordDetector) (text : list N)
    (detected : TextIntent) :
  detect_intent_full kd text = inr detected ->
  intent_type (intent detected) = u "back" ->
  any_in (strip (str_lower text)) (common (u "menu")) = false
  /\ contains (strip (str_lower text)) (u "volver") = false
  /\ any_in (strip (str_lower text)) back_only_words = true.
Proof.
  unfold detect_intent_full.
  destruct (number_selection _ _) as [selected|] eqn:En.
  - apply number_selection_shape in En.
    destruct En as (child_id & child_node & _ & ->).
    intros [= <-]. cbn [intent intent_type selection_intent].
    destruct (str_eqb (action child_node) (u "menu")); vm_compute; discriminate.
  - unfold detect_text_intent. cbv zeta.
    destruct (any_in _ (common (u "menu"))) eqn:Em.
    { intros [= <-]. vm_compute. discriminate. }
    destruct (any_in _ (common (u "back"))) eqn:Eb.
    + intros _ _. split; [reflexivity|].
      rewrite common_menu in Em. rewrite common_back in Eb.
      unfold any_in in *. cbn [map existsb] in Em, Eb.
      repeat (apply orb_false_elim in Em; destruct Em as [? Em]).
      split; [assumption|].
      unfold back_only_words. cbn [existsb].
      repeat match goal with
             | H : contains _ _ = false |- _ =>
                 first [rewrite H in Eb | clear H]
             end.
      cbn [orb] in Eb. exact Eb.
    + destruct (any_in _ (common (u "help"))).
      { intros [= <-]. vm_compute. discriminate. }
      destruct (matched_node kd text _) as [e|matched]; [discriminate|].
      destruct (match matched with Some _ => _ | None => _ end) as [[nid mn]|].
      { intros [= <-]. vm_compute. discriminate. }
      destruct (bool_decide _); intros [= <-]; vm_compute; discriminate.
Qed.

(** X20.  What [detect_intent] can answer: a ["menu"] intent at
    confidence 1.0 or 0.95, a ["back"] intent at 1.0, a ["query"] intent
    at 1.0 or 0.9, or an ["open"] intent at 0.6 or 0.8 that carries the
    text as it was typed and at most ten database matches.  No other
    type is returned; ["keyword"] in particular never is. *)
Theorem intent_table (kd : KeywordDetector) (text : list N)
    (detected : TextIntent) :
  detect_intent_full kd text = inr detected ->
  let i := intent detected in
  (intent_type i = u "menu"
   /\ (confidence i = 1.0%float \/ confidence i = 0.95%float))
  \/ (intent_type i = u "back" /\ confidence i = 1.0%float)
  \/ (intent_type i = u "query"
      /\ (confidence i = 1.0%float \/ confidence i = 0.9%float))
  \/ (intent_type i = u "open"
      /\ (confidence i = 0.6%float \/ confidence i = 0.8%float)
      /\ intent_db_query i = Some text
      /\ (length (db_matches detected) <= 10)%nat).
Proof.
  unfold detect_intent_full.
  destruct (number_selection _ _) as [selected|] eqn:En.
  - apply number_selection_shape in En.
    destruct En as (child_id & child_node & _ & ->).
    intros [= <-]. cbn [intent intent_type confidence selection_intent].
    destruct (str_eqb (action child_node) (u "menu")); [left|right; right; left];
      auto.
  - unfold detect_text_intent. cbv zeta.
    destruct (any_in _ (common (u "menu"))).
    { intros [= <-]. left. auto. }
    destruct (any_in _ (common (u "back"))).
    { intros [= <-]. right. left. auto. }
    destruct (any_in _ (common (u "help"))).
    { intros [= <-]. left. auto. }
    destruct (matched_node kd text _) as [e|matched]; [discriminate|].
    destruct (match matched with Some _ => _ | None => _ end) as [[nid mn]|].
    { intros [= <-]. left. auto. }
    destruct (bool_decide _); intros [= <-].
    + right. right. left. auto.
    + right. right. right. cbn [intent intent_type confidence intent_db_query
                                 db_matches].
      split; [reflexivity|]. split; [|split; [reflexivity|]].
      * destruct (detect_db_matches kd _); auto.
      * rewrite length_take. lia.
Qed.

(** X21.  On a tree that stores every node under its own id, a
    ["menu"] intent names the literal id [root] or [ayuda] of the
    navigation words, or else a stored node whose action is ["menu"]. *)
Theorem menu_intent_target (kd : KeywordDetector) (text : list N)
    (detected : TextIntent) :
  stored_by_id (menu_tree kd) ->
  detect_intent_full kd text = inr detected ->
  intent_type (intent detected) = u "menu" ->
  intent_node_id (intent detected) = Some (u "root")
  \/ intent_node_id (intent detected) = Some (u "ayuda")
  \/ exists node_id node,
       intent_node_id (intent detected) = Some node_id
       /\ get_node (menu_tree kd) node_id = Some node
       /\ action node = u "menu".
Proof.
  intros Hwf. unfold detect_intent_full.
  destruct (number_selection _ _) as [selected|] eqn:En.
  - apply number_selection_shape in En.
    destruct En as (child_id & child_node & Hchild & ->).
    intros [= <-]. cbn [intent intent_type intent_node_id selection_intent].
    destruct (str_eqb (action child_node) (u "menu")) eqn:Ea;
      [|vm_compute; discriminate].
    intros _. right. right. exists child_id, child_node.
    rewrite (Hwf _ _ (get_node_in _ _ _ Hchild)).
    apply str_eqb_true in Ea. auto.
  - unfold detect_text_intent. cbv zeta.
    destruct (any_in _ (common (u "menu"))).
    { intros [= <-] _. left. reflexivity. }
    destruct (any_in _ (common (u "back"))).
    { intros [= <-]. vm_compute. discriminate. }
    destruct (any_in _ (common (u "help"))).
    { intros [= <-] _. right. left. reflexivity. }
    destruct (matched_node kd text _) as [e|matched]; [discriminate|].
    destruct (match matched with Some _ => _ | None => _ end)
      as [[nid mn]|] eqn:Em.
    + intros [= <-] _. right. right. exists nid, mn.
      cbn [intent intent_node_id]. split; [reflexivity|].
      destruct matched as [m|]; [|discriminate].
      destruct (str_eqb m []); [discriminate|].
      destruct (get_node (menu_tree kd) m) as [n|] eqn:Eg; [|discriminate].
      destruct (str_eqb (action n) (u "menu")) eqn:Ea; [|discriminate].
      injection Em as <- <-. apply str_eqb_true in Ea. auto.
    + destruct (bool_decide _); intros [= <-]; vm_compute; discriminate.
Qed.

End TextBranchFacts.

(** X28.  A number is resolved the same way by [detect_intent] and by
    [find_node_by_keyword]: the selection [detect_intent] builds is for
    the very node the head of [find_node_by_keyword] returns, and
    [detect_intent] goes on to its text branch exactly when that head
    returns no node. *)
Theorem number_selection_agrees {U : Unicode} (t : MenuTree)
    (text_lower : list N) :
  number_selection t text_lower
  = match numbered_child t text_lower with
    | Some (Some child_node) => Some (selection_intent child_node)
    | _ => None
    end.
Proof.
  unfold number_selection, numbered_child.
  destruct (int_of_str text_lower); [|reflexivity].
  destruct (get_root t) as [root|]; [|reflexivity].
  destruct (children root); [reflexivity|].
  destruct (_ && _)%Z; [|reflexivity].
  destruct (_ !! _) as [child_id|]; [|reflexivity].
  destruct (get_node t child_id); reflexivity.
Qed.


Lemma two_level_tree_stored_by_id : stored_by_id two_level_tree.
Proof.
  intros node_id node Hin. unfold two_level_tree in Hin. cbn [nodes] in Hin.
  repeat (apply elem_of_cons in Hin; destruct Hin as [[= -> ->]|Hin];
          [reflexivity|]).
  inversion Hin.
Qed.

Lemma back_intent_words_witness :
  contains (strip (U := Latin1) (str_lower (Unicode := Latin1) (u "Ir atrás")))
           (u "volver") = false.
Proof.
  assert (E : detect_intent_full (U := Latin1) (R := no_pattern_matches)
                example_detector (u "Ir atrás")
              = inr {| intent := {| intent_type := u "back";
                                    intent_node_id := None;
                                    intent_keywords := [u "back"];
                                    intent_db_query := None;
                                    confidence := 1.0%float |};
                       query_type := None; db_matches := [] |})
    by (vm_compute; reflexivity).
  exact (proj1 (proj2 (back_intent_words (U := Latin1) (R := no_pattern_matches)
                         example_detector (u "Ir atrás") _ E eq_refl))).
Defined.

Lemma intent_table_witness :
  exists detected,
    detect_intent_full (U := Latin1) (R := no_pattern_matches)
      example_detector (u "Precio del pan") = inr detected
    /\ intent_db_query (intent detected) = Some (u "Precio del pan").
Proof.
  assert (E : detect_intent_full (U := Latin1) (R := no_pattern_matches)
                example_detector (u "Precio del pan")
              = inr {| intent := {| intent_type := u "open";
                                    intent_node_id := None;
                                    intent_keywords := [];
                                    intent_db_query := Some (u "Precio del pan");
                                    confidence := 0.6%float |};
                       query_type := None; db_matches := [] |})
    by (vm_compute; reflexivity).
  eexists. split; [exact E|].
  destruct (intent_table (U := Latin1) (R := no_pattern_matches)
              example_detector (u "Precio del pan") _ E)
    as [[Hm _]|[[Hb _]|[[Hq _]|(_ & _ & Hdb & _)]]].
  - vm_compute in Hm. discriminate Hm.
  - vm_compute in Hb. discriminate Hb.
  - vm_compute in Hq. discriminate Hq.
  - exact Hdb.
Defined.


Lemma menu_intent_target_witness :
  exists node,
    get_node two_level_tree (u "economico") = Some node
    /\ action node = u "menu".
Proof.
  assert (E : detect_intent_full (U := Latin1) (R := no_pattern_matches)
                example_detector (u "datos económicos")
              = inr {| intent := {| intent_type := u "menu";
                                    intent_node_id := Some (u "economico");
                                    intent_keywords := [];
                                    intent_db_query := None;
                                    confidence := 0.95%float |};
                       query_type := None; db_matches := [] |})
    by (vm_compute; reflexivity).
  destruct (menu_intent_target (U := Latin1) (R := no_pattern_matches)
              example_detector (u "datos económicos") _
              two_level_tree_stored_by_id E eq_refl)
    as [H|[H|(node_id & node & Hid & Hnode & Haction)]].
  - vm_compute in H. discriminate H.
  - vm_compute in H. discriminate H.
  - cbn [intent intent_node_id] in Hid. injection Hid as <-.
    exists node. auto.
Defined.

(** ** The query sent to the database *)

Section BuildQueryFacts.
Context {U : Unicode}.

Lemma split_ws_from_words (cur s : list N) w :
  (forall c, c ∈ cur -> isspace c = false) ->
  w ∈ split_ws_from cur s ->
  w ≠ [] /\ forall c, c ∈ w -> isspace c = false.
Proof.
  revert cur. induction s as [|a s IH]; intros cur Hcur; cbn [split_ws_from].
  - destruct cur as [|x cur]; [intros H; inversion H|].
    intros H. apply list_elem_of_singleton in H. subst w. split.
    + intros E. apply (f_equal (@length N)) in E.
      rewrite length_rev in E. discriminate.
    + intros c Hc. apply Hcur. apply list_elem_of_In, in_rev, list_elem_of_In, Hc.
  - destruct (isspace a) eqn:Ea.
    + destruct cur as [|x cur].
      * apply IH. intros c Hc. inversion Hc.
      * intros H. apply elem_of_cons in H. destruct H as [->|H].
        -- split.
           ++ intros E. apply (f_equal (@length N)) in E.
              rewrite length_rev in E. discriminate.
           ++ intros c Hc. apply Hcur.
              apply list_elem_of_In, in_rev, list_elem_of_In, Hc.
        -- revert H. apply IH. intros c Hc. inversion Hc.
    + apply IH. intros c Hc. apply elem_of_cons in Hc.
      destruct Hc as [->|Hc]; [exact Ea|exact (Hcur c Hc)].
Qed.

Lemma dropwhile_head (f : N -> bool) (a : N) (s : list N) :
  f a = false -> dropwhile f (a :: s) = a :: s.
Proof. intros H. cbn [dropwhile]. rewrite H. reflexivity. Qed.

Lemma strip_trimmed (a b : N) (s : list N) :
  isspace a = false -> isspace b = false ->
  head s = Some a -> last s = Some b -> strip s = s.
Proof.
  intros Ha Hb Hh Hl. unfold strip.
  destruct s as [|x s]; [discriminate|]. injection Hh as ->.
  rewrite (dropwhile_head _ _ _ Ha).
  apply last_Some in Hl. destruct Hl as [l El]. rewrite El.
  rewrite rev_app_distr. cbn [rev app].
  rewrite (dropwhile_head _ _ _ Hb).
  change (b :: rev l) with (rev [b] ++ rev l).
  rewrite <- rev_app_distr, rev_involutive. reflexivity.
Qed.

Lemma join_ends (sep : list N) (words : list (list N)) (P : N -> Prop) :
  words ≠ [] ->
  (forall w, w ∈ words -> w ≠ [] /\ forall c, c ∈ w -> P c) ->
  exists a b, head (join sep words) = Some a /\ last (join sep words) = Some b
              /\ P a /\ P b.
Proof.
  induction words as [|w words IH]; [contradiction|]. intros _ Hall.
  destruct (Hall w ltac:(left)) as [Hw Hc].
  destruct w as [|a w]; [contradiction|].
  destruct words as [|w2 words].
  - cbn [join]. destruct (last (a :: w)) as [b|] eqn:El.
    + exists a, b. split; [reflexivity|]. split; [reflexivity|].
      split; [apply Hc; left|]. apply Hc.
      apply last_Some in El. destruct El as [l ->].
      apply elem_of_app. right. left.
    + apply last_None in El. discriminate.
  - destruct IH as (a2 & b & _ & Hl & _ & Hb); [discriminate| |].
    + intros w' Hw'. apply Hall. right. exact Hw'.
    + exists a, b. change (join sep ((a :: w) :: w2 :: words))
        with ((a :: w) ++ sep ++ join sep (w2 :: words)).
      split; [reflexivity|]. split; [|split; [apply Hc; left|exact Hb]].
      apply last_Some in Hl. destruct Hl as [l ->].
      rewrite !app_assoc. apply last_snoc.
Qed.

(** X23.  [build_database_query] never answers a non-empty text with an
    empty query: whatever the intent, what it returns for a non-empty
    text is not empty. *)
Theorem build_database_query_nonempty (detected : TextIntent)
    (original_text : list N) :
  original_text ≠ [] -> build_database_query detected original_text ≠ [].
Proof.
  intros Hne. unfold build_database_query. cbv zeta.
  match goal with
  | |- (if str_eqb ?q [] then _ else _) ≠ [] =>
      destruct (str_eqb q []) eqn:E;
        [exact Hne|exact (proj1 (str_eqb_false _ _) E)]
  end.
Qed.

(** X24.  For a query for the latest value the text is rewritten: when a
    word other than último, ultimo, última, ultima, más, reciente, mas,
    valor, dato is left, the query is those words, lower-cased, in
    order, joined by single spaces. *)
Theorem latest_value_query (detected : TextIntent) (original_text : list N) :
  query_type detected = Some (u "ultimo") ->
  relevant_words original_text ≠ [] ->
  build_database_query detected original_text
  = join [SP] (relevant_words original_text).
Proof.
  intros Hq Hrel. unfold build_database_query. cbv zeta. rewrite Hq.
  cbn [default]. rewrite (proj2 (str_eqb_true _ _) eq_refl).
  destruct (relevant_words original_text) as [|w words] eqn:Er; [contradiction|].
  rewrite <- Er in *.
  destruct (join_ends [SP] (relevant_words original_text)
              (fun c => isspace c = false) Hrel) as (a & b & Hh & Hl & Ha & Hb).
  { intros w' Hw'. unfold relevant_words in Hw'.
    apply list_elem_of_filter in Hw'. destruct Hw' as [_ Hw'].
    apply (split_ws_from_words [] (str_lower original_text));
      [intros c Hc; inversion Hc|exact Hw']. }
  rewrite (strip_trimmed a b _ Ha Hb Hh Hl).
  destruct (str_eqb (join [SP] (relevant_words original_text)) []) eqn:E;
    [|reflexivity].
  apply str_eqb_true in E. rewrite E in Hh. discriminate.
Qed.
End BuildQueryFacts.

Lemma build_database_query_nonempty_witness :
  build_database_query (U := Latin1)
    {| intent := open_intent two_level_tree (u "promedio");
       query_type := Some (u "promedio"); db_matches := [] |}
    (u "promedio") ≠ [].
Proof.
  apply build_database_query_nonempty. discriminate.
Defined.

Lemma latest_value_query_witness :
  build_database_query (U := Latin1)
    {| intent := open_intent two_level_tree (u "Último valor del IPC");
       query_type := Some (u "ultimo"); db_matches := [] |}
    (u "Último valor del IPC")
  = u "del ipc".
Proof.
  rewrite (latest_value_query (U := Latin1)).
  - vm_compute. reflexivity.
  - reflexivity.
  - vm_compute. discriminate.
Defined.

(* ===================================================================== *)
(** * related_options_finder.py *)
(* ===================================================================== *)

Lemma insert_by_score_elem {A} (x y : A * nat) (l : list (A * nat)) :
  y ∈ insert_by_score x l <-> y = x \/ y ∈ l.
Proof.
  induction l as [|z l IH]; cbn [insert_by_score].
  - rewrite list_elem_of_singleton. split; [auto|]. intros [H|H]; [exact H|].
    inversion H.
  - destruct (snd z <=? snd x)%nat.
    + rewrite elem_of_cons. reflexivity.
    + rewrite !elem_of_cons, IH. tauto.
Qed.

Lemma insert_by_score_sorted {A} (x : A * nat) (l : list (A * nat)) :
  Sorted.StronglySorted by_score l -> Sorted.StronglySorted by_score (insert_by_score x l).
Proof.
  induction 1 as [|z l Hs IH Hall]; cbn [insert_by_score].
  - repeat constructor.
  - destruct (Nat.leb_spec (snd z) (snd x)) as [Hle|Hlt].
    + constructor; [constructor; assumption|].
      constructor; [exact Hle|].
      rewrite Forall_forall in Hall |- *. intros y Hy. specialize (Hall y Hy).
      unfold by_score in *. lia.
    + constructor; [exact IH|].
      rewrite Forall_forall in Hall |- *. intros y Hy.
      apply insert_by_score_elem in Hy. destruct Hy as [->|Hy].
      * unfold by_score. lia.
      * exact (Hall y Hy).
Qed.

Lemma sort_by_score_sorted {A} (l : list (A * nat)) :
  Sorted.StronglySorted by_score (sort_by_score l).
Proof.
  induction l as [|x l IH]; cbn; [constructor|].
  apply insert_by_score_sorted, IH.
Qed.

Lemma sort_by_score_elem {A} (y : A * nat) (l : list (A * nat)) :
  y ∈ sort_by_score l <-> y ∈ l.
Proof.
  induction l as [|x l IH]; cbn [sort_by_score foldr]; [reflexivity|].
  fold (sort_by_score l). rewrite insert_by_score_elem, IH, elem_of_cons.
  reflexivity.
Qed.

Lemma take_sorted {A} (R : A -> A -> Prop) (l : list A) n :
  Sorted.StronglySorted R l -> Sorted.StronglySorted R (take n l).
Proof.
  intros H. revert n. induction H as [|x l Hs IH Hall]; intros n.
  - rewrite take_nil. constructor.
  - destruct n as [|n]; cbn [take]; [constructor|].
    constructor; [apply IH|]. apply Forall_take, Hall.
Qed.

Lemma slice_to_elem {A} (l : list A) stop x : x ∈ slice_to l stop -> x ∈ l.
Proof.
  unfold slice_to. destruct (0 <=? stop)%Z; intros H;
    apply elem_of_take in H; destruct H as (i & H & _);
    exact (list_elem_of_lookup_2 _ _ _ H).
Qed.

Section RelatedOptionsFacts.
Context {U : Unicode}.

Lemma related_from_entries query_normalized query_words values :
  forall related_nodes result,
    related_from query_normalized query_words values related_nodes = inr result ->
    forall node score, (node, score) ∈ result ->
      (node, score) ∈ related_nodes
      \/ (node ∈ values /\ (15 <= score)%nat
          /\ related_score query_normalized query_words node = inr score).
Proof.
  induction values as [|n rest IH]; intros related_nodes result;
    cbn [related_from].
  - intros [= <-] node score H. left. exact H.
  - destruct (related_score query_normalized query_words n) as [e|s] eqn:Es;
      [discriminate|].
    intros H node score Hin. destruct (IH _ _ H node score Hin) as [Hold|Hnew].
    + destruct (Nat.leb_spec 15 s) as [Hge|Hlt]; [|left; exact Hold].
      apply elem_of_app in Hold. destruct Hold as [Hold|Hold]; [left; exact Hold|].
      apply list_elem_of_singleton in Hold. injection Hold as -> ->.
      right. split; [left|auto].
    + right. destruct Hnew as (Hn & Hs & Hr). split; [right; exact Hn|auto].
Qed.

(** X27.  What [find_related_options] returns is ordered by score,
    highest first; every entry is a stored node with its own score, which
    is at least 15; and there are at most [max_options] entries when
    that bound is not negative.  An empty or blank query is answered
    with the empty list. *)
Theorem find_related_options_sound (t : MenuTree) (query : list N)
    (max_options : Z) (result : list (MenuNode * nat)) :
  find_related_options t query max_options = inr result ->
  Sorted.StronglySorted by_score result
  /\ (forall node score, (node, score) ∈ result ->
        (15 <= score)%nat /\ exists node_id, (node_id, node) ∈ nodes t)
  /\ ((0 <= max_options)%Z -> (length result <= Z.to_nat max_options)%nat)
  /\ (strip query = [] -> result = []).
Proof.
  unfold find_related_options. cbv zeta.
  destruct (str_eqb query []) eqn:Eq; cbn [orb].
  { intros [= <-]. split; [constructor|]. split; [intros ? ? H; inversion H|].
    split; [cbn; lia|reflexivity]. }
  destruct (str_eqb (strip query) []) eqn:Es.
  { intros [= <-]. split; [constructor|]. split; [intros ? ? H; inversion H|].
    split; [cbn; lia|reflexivity]. }
  apply str_eqb_false in Es.
  destruct (bool_decide _).
  { intros [= <-]. split; [constructor|]. split; [intros ? ? H; inversion H|].
    split; [cbn; lia|reflexivity]. }
  destruct (related_from _ _ (map snd (nodes t)) []) as [e|related] eqn:Er;
    [discriminate|].
  intros [= <-]. split; [|split; [|split; [|contradiction]]].
  - unfold slice_to. destruct (0 <=? max_options)%Z;
      apply take_sorted, sort_by_score_sorted.
  - intros node score Hin. apply slice_to_elem in Hin.
    rewrite sort_by_score_elem in Hin.
    destruct (related_from_entries _ _ _ _ _ Er node score Hin)
      as [H|(Hn & Hs & _)]; [inversion H|].
    split; [exact Hs|]. apply list_elem_of_In, in_map_iff in Hn.
    destruct Hn as ([k n] & E & Hn). cbn [snd] in E. subst n.
    exists k. apply list_elem_of_In. exact Hn.
  - intros Hmax. unfold slice_to.
    rewrite (proj2 (Z.leb_le 0 max_options) Hmax), length_take. lia.
Qed.
End RelatedOptionsFacts.

Lemma find_related_options_sound_witness :
  Sorted.StronglySorted by_score
    [(snd (example_node (u "empleo") (u "Empleo") (u "tool") []), 100%nat)].
Proof.
  exact (proj1 (find_related_options_sound (U := Latin1) two_level_tree
                  (u "¿Empleo?") 5 _ ltac:(vm_compute; reflexivity))).
Defined.
